(** * The environmental synthesis engine of [audio-engine.js]

    A shallow embedding of the class [EnvironmentalAudioEngine] (the first
    class of [src/audio-engine.js]) and the properties its specification
    states about it.

    JavaScript numbers are IEEE 754 binary64 values, so they are Rocq's
    primitive floats: [NaN], the two zeros and the infinities are the real
    ones and every arithmetic step rounds as the engine's does.  The
    transcendental functions of [Math] are implementation-approximated in
    ECMAScript; they are taken from a [MathLib] record the development is
    parameterised by.  [Math.random] is a sequence of draws held by the
    host. *)

From Stdlib Require Import ZArith List String Bool Lia.
From Stdlib Require Import Floats.
Import ListNotations.

Set Warnings "-inexact-float".
Open Scope float_scope.

(** ** JavaScript values and the parts of [Math] that are exact *)

Module JS.

(** The values an environmental field can hold: a number or [undefined]
    (an argument the caller left out). *)
Inductive value : Type :=
| Undefined
| Number (x : float).

(** [ToNumber]: [undefined] becomes [NaN]. *)
Definition toNumber (v : value) : float :=
  match v with
  | Undefined => nan
  | Number x => x
  end.

(** A default parameter [p = d] replaces [undefined], and only that. *)
Definition param_default (d : float) (v : value) : value :=
  match v with
  | Undefined => Number d
  | Number _ => v
  end.

Definition is_defined (v : value) : bool :=
  match v with
  | Undefined => false
  | Number _ => true
  end.

Definition is_neg_zero (x : float) : bool := is_zero x && get_sign x.
Definition is_pos_zero (x : float) : bool := is_zero x && negb (get_sign x).

(** [Math.min(a, b)] and [Math.max(a, b)]: [NaN] if either is [NaN],
    and [-0] counts as smaller than [+0]. *)
Definition Math_min (a b : float) : float :=
  if is_nan a || is_nan b then nan
  else if b <? a then b
  else if is_neg_zero b && is_pos_zero a then b
  else a.

Definition Math_max (a b : float) : float :=
  if is_nan a || is_nan b then nan
  else if a <? b then b
  else if is_pos_zero b && is_neg_zero a then b
  else a.

Definition of_Z (n : Z) : float := of_uint63 (Uint63.of_Z n).
Definition of_nat (n : nat) : float := of_Z (Z.of_nat n).

(** [Math.floor]: the mantissa and exponent of a finite value give its
    integer part exactly. *)
Definition Math_floor (x : float) : float :=
  match Prim2SF x with
  | S754_finite s m e =>
      if (0 <=? e)%Z then x
      else
        let d := (2 ^ (- e))%Z in
        if (Zpos m mod d =? 0)%Z then x
        else if s then - of_Z (Zpos m / d + 1) else of_Z (Zpos m / d)
  | _ => x
  end.

Definition Math_ceil (x : float) : float := - Math_floor (- x).

(** The [%] operator: the remainder of the truncated division, exact, with
    the sign of the dividend. *)
Definition rem (n d : float) : float :=
  match Prim2SF n, Prim2SF d with
  | S754_nan, _ | _, S754_nan => nan
  | S754_infinity _, _ => nan
  | _, S754_zero _ => nan
  | _, S754_infinity _ => n
  | S754_zero _, _ => n
  | S754_finite sn mn en, S754_finite _ md ed =>
      let e0 := Z.min en ed in
      let N := (Zpos mn * 2 ^ (en - e0))%Z in
      let D := (Zpos md * 2 ^ (ed - e0))%Z in
      let R := (N mod D)%Z in
      SF2Prim (binary_normalize prec emax (if sn then - R else R)%Z e0 sn)
  end.

(** The array index a number denotes as a property key: a non-negative
    integer ([-0] is the key "0"); anything else names no element. *)
Definition to_key (x : float) : option N :=
  match Prim2SF x with
  | S754_zero _ => Some 0%N
  | S754_finite false m e =>
      if (0 <=? e)%Z then Some (Z.to_N (Zpos m * 2 ^ e))
      else if (Zpos m mod 2 ^ (- e) =? 0)%Z
           then Some (Z.to_N (Zpos m / 2 ^ (- e)))
           else None
  | _ => None
  end.

Definition to_index (x : float) : option nat :=
  option_map N.to_nat (to_key x).

(** [a[x]]: the element the key [x] names, if any. *)
Definition lookup {A : Type} (a : list A) (x : float) : option A :=
  match to_index x with
  | Some i => nth_error a i
  | None => None
  end.

(** [a[x]] on an array of numbers: [undefined] outside the array. *)
Definition get (a : list float) (x : float) : value :=
  match lookup a x with
  | Some r => Number r
  | None => Undefined
  end.

(** [a[x]] on an array whose elements may themselves be [undefined]. *)
Definition get_value (a : list value) (x : float) : value :=
  match lookup a x with
  | Some v => v
  | None => Undefined
  end.

(** The number of turns of [for (let i = 0; i < n; i++)]. *)
Definition loop_count (n : float) : N :=
  match to_key (Math_ceil n) with
  | Some k => k
  | None => 0%N
  end.

Definition PI : float := 3.141592653589793.

End JS.

(** The implementation-approximated functions of [Math] the engine calls. *)
Record MathLib : Type := {
  Math_pow : float -> float -> float;
  Math_sin : float -> float;
  Math_cos : float -> float;
  Math_asin : float -> float
}.

(** ** The Web Audio objects the engine drives *)

(** An [AudioParam] is its current [value] and the automation calls made on
    it, in call order.  The host's own checking of the arguments is not part
    of the engine and is not modelled: the schedule records what the engine
    asked for. *)
Inductive AutomationEvent : Type :=
| SetValueAtTime (v t : float)
| LinearRampToValueAtTime (v t : float)
| ExponentialRampToValueAtTime (v t : float).

Definition eventValue (ev : AutomationEvent) : float :=
  match ev with
  | SetValueAtTime v _ => v
  | LinearRampToValueAtTime v _ => v
  | ExponentialRampToValueAtTime v _ => v
  end.

Definition eventTime (ev : AutomationEvent) : float :=
  match ev with
  | SetValueAtTime _ t => t
  | LinearRampToValueAtTime _ t => t
  | ExponentialRampToValueAtTime _ t => t
  end.

Record AudioParam : Type := mkParam {
  value : float;
  events : list AutomationEvent
}.

(** [cancelScheduledValues(t)] drops the events at or after [t]. *)
Definition cancelScheduledValues (t : float) (p : AudioParam) : AudioParam :=
  mkParam (value p) (filter (fun ev => negb (t <=? eventTime ev)) (events p)).

Definition schedule (ev : AutomationEvent) (p : AudioParam) : AudioParam :=
  mkParam (value p) (events p ++ [ev]).

Definition setValueAtTime (v t : float) := schedule (SetValueAtTime v t).
Definition linearRampToValueAtTime (v t : float) :=
  schedule (LinearRampToValueAtTime v t).
Definition exponentialRampToValueAtTime (v t : float) :=
  schedule (ExponentialRampToValueAtTime v t).

(** An oscillator's timbre: a built-in [type], or a periodic wave given by
    its cosine coefficients as the source writes them. *)
Inductive Wave : Type :=
| BuiltIn (type : string)
| PeriodicWave (real : list float).

Record Oscillator : Type := mkOsc {
  wave : Wave;
  frequency : AudioParam
}.

(** Replace element [i] of a list; nothing happens outside it. *)
Fixpoint update_nth {A : Type} (i : nat) (f : A -> A) (l : list A) : list A :=
  match l, i with
  | [], _ => []
  | x :: r, O => f x :: r
  | x :: r, S j => x :: update_nth j f r
  end.

(** ** The host: timers, clock and random draws *)

(** The three closures the scheduler hands to [setTimeout], with the values
    each one captured when it was created, and the resume check of
    [start]. *)
Inductive Callback : Type :=
| ResumeCheck
| PulseDue (oscIndex : nat) (interval duration fadeIn fadeOut : float)
| ClickRearm (oscIndex : nat)
| HoldEnd (oscIndex : nat) (fadeOut : float).

Record Timer : Type := mkTimer {
  timerId : nat;
  delay : float;
  callback : Callback
}.

(** A click-mode buffer source started on the output buses. *)
Record Click : Type := mkClick {
  clickVoice : nat;
  clickVolume : float;
  clickStart : float
}.

Record Host : Type := mkHost {
  currentTime : float;
  sampleRate : float;
  timers : list Timer;
  nextTimerId : nat;
  randomSeq : N -> float;
  drawn : N;
  clicks : list Click;
  reports : list (list float)
}.

Definition set_currentTime (t : float) (h : Host) : Host :=
  mkHost t (sampleRate h) (timers h) (nextTimerId h) (randomSeq h) (drawn h) (clicks h) (reports h).

Definition set_timers (l : list Timer) (h : Host) : Host :=
  mkHost (currentTime h) (sampleRate h) l (nextTimerId h) (randomSeq h) (drawn h) (clicks h) (reports h).

Definition set_nextTimerId (n : nat) (h : Host) : Host :=
  mkHost (currentTime h) (sampleRate h) (timers h) n (randomSeq h) (drawn h) (clicks h) (reports h).

Definition set_drawn (n : N) (h : Host) : Host :=
  mkHost (currentTime h) (sampleRate h) (timers h) (nextTimerId h) (randomSeq h) n (clicks h) (reports h).

Definition set_clicks (l : list Click) (h : Host) : Host :=
  mkHost (currentTime h) (sampleRate h) (timers h) (nextTimerId h) (randomSeq h) (drawn h) l (reports h).

Definition set_reports (l : list (list float)) (h : Host) : Host :=
  mkHost (currentTime h) (sampleRate h) (timers h) (nextTimerId h) (randomSeq h) (drawn h) (clicks h) l.

(** [Math.random()]: the next draw of the host's sequence. *)
Definition random (h : Host) : float * Host :=
  (randomSeq h (drawn h), set_drawn (N.succ (drawn h)) h).

(** [setTimeout(cb, delay)]: a fresh id, the timer pending. *)
Definition setTimeout (cb : Callback) (d : float) (h : Host) : nat * Host :=
  (nextTimerId h,
   set_nextTimerId (S (nextTimerId h))
     (set_timers (timers h ++ [mkTimer (nextTimerId h) d cb]) h)).

(** [clearTimeout(id)]: the timer, if still pending, never fires. *)
Definition clearTimeout (id : nat) (h : Host) : Host :=
  set_timers (filter (fun t => negb (Nat.eqb (timerId t) id)) (timers h)) h.

Definition pending (id : nat) (h : Host) : bool :=
  existsb (fun t => Nat.eqb (timerId t) id) (timers h).

(** ** The engine object *)

(** The fields of [this] the methods below read or write.  An audio node is
    held by the one parameter the engine touches ([gain], [pan.value],
    [frequency.value] of a filter); [convolver], [masterGain] and the traffic
    voice, which no method below uses, are left out. *)
Record Engine : Type := mkEngine {
  oscillators : list Oscillator;
  gainNodes : list AudioParam;
  panners : list float;
  dryGain : float;
  wetGain : float;
  lowPassFilter : float;
  highPassFilter : float;
  isRunning : bool;
  mode : string;
  waveform : string;
  scale : string;
  fundamentalFreq : float;
  sporadicTimers : list nat;
  latitude : JS.value;
  longitude : JS.value;
  speed : JS.value;
  temperature : JS.value;
  humidity : JS.value;
  heading : JS.value;
  timeOfDay : JS.value;
  elevation : JS.value;
  rainfall : JS.value;
  sunElevation : float;
  populationDensity : JS.value;
  trafficDensity : JS.value;
  lastHeading : JS.value;
  onFrequencyUpdate : bool
}.

Definition set_oscillators (l : list Oscillator) (e : Engine) : Engine :=
  mkEngine l (gainNodes e) (panners e) (dryGain e) (wetGain e)
    (lowPassFilter e) (highPassFilter e) (isRunning e) (mode e) (waveform e)
    (scale e) (fundamentalFreq e) (sporadicTimers e) (latitude e)
    (longitude e) (speed e) (temperature e) (humidity e) (heading e)
    (timeOfDay e) (elevation e) (rainfall e) (sunElevation e)
    (populationDensity e) (trafficDensity e) (lastHeading e)
    (onFrequencyUpdate e).

Definition set_gainNodes (l : list AudioParam) (e : Engine) : Engine :=
  mkEngine (oscillators e) l (panners e) (dryGain e) (wetGain e)
    (lowPassFilter e) (highPassFilter e) (isRunning e) (mode e) (waveform e)
    (scale e) (fundamentalFreq e) (sporadicTimers e) (latitude e)
    (longitude e) (speed e) (temperature e) (humidity e) (heading e)
    (timeOfDay e) (elevation e) (rainfall e) (sunElevation e)
    (populationDensity e) (trafficDensity e) (lastHeading e)
    (onFrequencyUpdate e).

Definition set_panners (l : list float) (e : Engine) : Engine :=
  mkEngine (oscillators e) (gainNodes e) l (dryGain e) (wetGain e)
    (lowPassFilter e) (highPassFilter e) (isRunning e) (mode e) (waveform e)
    (scale e) (fundamentalFreq e) (sporadicTimers e) (latitude e)
    (longitude e) (speed e) (temperature e) (humidity e) (heading e)
    (timeOfDay e) (elevation e) (rainfall e) (sunElevation e)
    (populationDensity e) (trafficDensity e) (lastHeading e)
    (onFrequencyUpdate e).

Definition set_isRunning (b : bool) (e : Engine) : Engine :=
  mkEngine (oscillators e) (gainNodes e) (panners e) (dryGain e) (wetGain e)
    (lowPassFilter e) (highPassFilter e) b (mode e) (waveform e) (scale e)
    (fundamentalFreq e) (sporadicTimers e) (latitude e) (longitude e)
    (speed e) (temperature e) (humidity e) (heading e) (timeOfDay e)
    (elevation e) (rainfall e) (sunElevation e) (populationDensity e)
    (trafficDensity e) (lastHeading e) (onFrequencyUpdate e).

Definition set_mode (m : string) (e : Engine) : Engine :=
  mkEngine (oscillators e) (gainNodes e) (panners e) (dryGain e) (wetGain e)
    (lowPassFilter e) (highPassFilter e) (isRunning e) m (waveform e)
    (scale e) (fundamentalFreq e) (sporadicTimers e) (latitude e)
    (longitude e) (speed e) (temperature e) (humidity e) (heading e)
    (timeOfDay e) (elevation e) (rainfall e) (sunElevation e)
    (populationDensity e) (trafficDensity e) (lastHeading e)
    (onFrequencyUpdate e).

Definition set_waveform (wf : string) (e : Engine) : Engine :=
  mkEngine (oscillators e) (gainNodes e) (panners e) (dryGain e) (wetGain e)
    (lowPassFilter e) (highPassFilter e) (isRunning e) (mode e) wf (scale e)
    (fundamentalFreq e) (sporadicTimers e) (latitude e) (longitude e)
    (speed e) (temperature e) (humidity e) (heading e) (timeOfDay e)
    (elevation e) (rainfall e) (sunElevation e) (populationDensity e)
    (trafficDensity e) (lastHeading e) (onFrequencyUpdate e).

Definition set_scale (s : string) (e : Engine) : Engine :=
  mkEngine (oscillators e) (gainNodes e) (panners e) (dryGain e) (wetGain e)
    (lowPassFilter e) (highPassFilter e) (isRunning e) (mode e) (waveform e)
    s (fundamentalFreq e) (sporadicTimers e) (latitude e) (longitude e)
    (speed e) (temperature e) (humidity e) (heading e) (timeOfDay e)
    (elevation e) (rainfall e) (sunElevation e) (populationDensity e)
    (trafficDensity e) (lastHeading e) (onFrequencyUpdate e).

Definition set_fundamentalFreq (f : float) (e : Engine) : Engine :=
  mkEngine (oscillators e) (gainNodes e) (panners e) (dryGain e) (wetGain e)
    (lowPassFilter e) (highPassFilter e) (isRunning e) (mode e) (waveform e)
    (scale e) f (sporadicTimers e) (latitude e) (longitude e) (speed e)
    (temperature e) (humidity e) (heading e) (timeOfDay e) (elevation e)
    (rainfall e) (sunElevation e) (populationDensity e) (trafficDensity e)
    (lastHeading e) (onFrequencyUpdate e).

Definition set_sporadicTimers (l : list nat) (e : Engine) : Engine :=
  mkEngine (oscillators e) (gainNodes e) (panners e) (dryGain e) (wetGain e)
    (lowPassFilter e) (highPassFilter e) (isRunning e) (mode e) (waveform e)
    (scale e) (fundamentalFreq e) l (latitude e) (longitude e) (speed e)
    (temperature e) (humidity e) (heading e) (timeOfDay e) (elevation e)
    (rainfall e) (sunElevation e) (populationDensity e) (trafficDensity e)
    (lastHeading e) (onFrequencyUpdate e).

Definition set_sunElevation (x : float) (e : Engine) : Engine :=
  mkEngine (oscillators e) (gainNodes e) (panners e) (dryGain e) (wetGain e)
    (lowPassFilter e) (highPassFilter e) (isRunning e) (mode e) (waveform e)
    (scale e) (fundamentalFreq e) (sporadicTimers e) (latitude e)
    (longitude e) (speed e) (temperature e) (humidity e) (heading e)
    (timeOfDay e) (elevation e) (rainfall e) x (populationDensity e)
    (trafficDensity e) (lastHeading e) (onFrequencyUpdate e).

Definition set_lastHeading (v : JS.value) (e : Engine) : Engine :=
  mkEngine (oscillators e) (gainNodes e) (panners e) (dryGain e) (wetGain e)
    (lowPassFilter e) (highPassFilter e) (isRunning e) (mode e) (waveform e)
    (scale e) (fundamentalFreq e) (sporadicTimers e) (latitude e)
    (longitude e) (speed e) (temperature e) (humidity e) (heading e)
    (timeOfDay e) (elevation e) (rainfall e) (sunElevation e)
    (populationDensity e) (trafficDensity e) v (onFrequencyUpdate e).

Definition set_dryGain (x : float) (e : Engine) : Engine :=
  mkEngine (oscillators e) (gainNodes e) (panners e) x (wetGain e)
    (lowPassFilter e) (highPassFilter e) (isRunning e) (mode e) (waveform e)
    (scale e) (fundamentalFreq e) (sporadicTimers e) (latitude e)
    (longitude e) (speed e) (temperature e) (humidity e) (heading e)
    (timeOfDay e) (elevation e) (rainfall e) (sunElevation e)
    (populationDensity e) (trafficDensity e) (lastHeading e)
    (onFrequencyUpdate e).

Definition set_wetGain (x : float) (e : Engine) : Engine :=
  mkEngine (oscillators e) (gainNodes e) (panners e) (dryGain e) x
    (lowPassFilter e) (highPassFilter e) (isRunning e) (mode e) (waveform e)
    (scale e) (fundamentalFreq e) (sporadicTimers e) (latitude e)
    (longitude e) (speed e) (temperature e) (humidity e) (heading e)
    (timeOfDay e) (elevation e) (rainfall e) (sunElevation e)
    (populationDensity e) (trafficDensity e) (lastHeading e)
    (onFrequencyUpdate e).

Definition set_lowPassFilter (x : float) (e : Engine) : Engine :=
  mkEngine (oscillators e) (gainNodes e) (panners e) (dryGain e) (wetGain e)
    x (highPassFilter e) (isRunning e) (mode e) (waveform e) (scale e)
    (fundamentalFreq e) (sporadicTimers e) (latitude e) (longitude e)
    (speed e) (temperature e) (humidity e) (heading e) (timeOfDay e)
    (elevation e) (rainfall e) (sunElevation e) (populationDensity e)
    (trafficDensity e) (lastHeading e) (onFrequencyUpdate e).

Definition set_highPassFilter (x : float) (e : Engine) : Engine :=
  mkEngine (oscillators e) (gainNodes e) (panners e) (dryGain e) (wetGain e)
    (lowPassFilter e) x (isRunning e) (mode e) (waveform e) (scale e)
    (fundamentalFreq e) (sporadicTimers e) (latitude e) (longitude e)
    (speed e) (temperature e) (humidity e) (heading e) (timeOfDay e)
    (elevation e) (rainfall e) (sunElevation e) (populationDensity e)
    (trafficDensity e) (lastHeading e) (onFrequencyUpdate e).

Definition set_heading (v : JS.value) (e : Engine) : Engine :=
  mkEngine (oscillators e) (gainNodes e) (panners e) (dryGain e) (wetGain e)
    (lowPassFilter e) (highPassFilter e) (isRunning e) (mode e) (waveform e)
    (scale e) (fundamentalFreq e) (sporadicTimers e) (latitude e)
    (longitude e) (speed e) (temperature e) (humidity e) v (timeOfDay e)
    (elevation e) (rainfall e) (sunElevation e) (populationDensity e)
    (trafficDensity e) (lastHeading e) (onFrequencyUpdate e).

Definition set_populationDensity (v : JS.value) (e : Engine) : Engine :=
  mkEngine (oscillators e) (gainNodes e) (panners e) (dryGain e) (wetGain e)
    (lowPassFilter e) (highPassFilter e) (isRunning e) (mode e) (waveform e)
    (scale e) (fundamentalFreq e) (sporadicTimers e) (latitude e)
    (longitude e) (speed e) (temperature e) (humidity e) (heading e)
    (timeOfDay e) (elevation e) (rainfall e) (sunElevation e) v
    (trafficDensity e) (lastHeading e) (onFrequencyUpdate e).

(** The engine as the constructor leaves it. *)
Definition newEngine : Engine :=
  {| oscillators := []; gainNodes := []; panners := [];
     dryGain := 0; wetGain := 0; lowPassFilter := 0; highPassFilter := 0;
     isRunning := false;
     mode := "drone"; waveform := "sine"; scale := "dreyblatt";
     fundamentalFreq := 200;
     sporadicTimers := [];
     latitude := JS.Number 0; longitude := JS.Number 0; speed := JS.Number 0;
     temperature := JS.Number 20; humidity := JS.Number 50;
     heading := JS.Number 0; timeOfDay := JS.Number 0.5;
     elevation := JS.Number 0; rainfall := JS.Number 0;
     sunElevation := 0;
     populationDensity := JS.Number 0.5; trafficDensity := JS.Number 0.0;
     lastHeading := JS.Number 0;
     onFrequencyUpdate := false |}.

(** The engine together with the host it runs in. *)
Record World : Type := mkWorld {
  this : Engine;
  host : Host
}.

Definition on_this (f : Engine -> Engine) (w : World) : World :=
  mkWorld (f (this w)) (host w).

Definition on_host (f : Host -> Host) (w : World) : World :=
  mkWorld (this w) (f (host w)).

(** [x |> f |> g]: the calls [f] then [g] on [x], in source order. *)
Notation "x |> f" := (f x) (at level 68, left associativity, only parsing).

(** ** The methods of the class *)

Section Methods.

Variable M : MathLib.

(** *** Tonal scales and tone selection *)

Definition dreyblatt : list float :=
  [1.0; 1.125; 1.25; 1.375; 1.5; 1.625; 1.75; 1.875; 2.0; 2.125;
   2.25; 2.375; 2.5; 2.625; 2.75; 2.875; 3.0; 3.125; 3.25; 3.375].

Definition harmonic : list float :=
  [1.0; 2.0; 3.0; 4.0; 5.0; 6.0; 7.0; 8.0; 9.0; 10.0;
   11.0; 12.0; 13.0; 14.0; 15.0; 16.0; 17.0; 18.0; 19.0; 20.0].

Definition slendroBase : list float := [1.0; 1.2; 1.4; 1.68; 1.87].

Definition slendro : list float :=
  slendroBase ++ map (fun r => r * 2) slendroBase
    ++ map (fun r => r * 3) slendroBase ++ map (fun r => r * 4) slendroBase.

Definition pelogBase : list float :=
  [1.0; 1.122; 1.26; 1.414; 1.587; 1.682; 1.888].

Definition pelog : list float :=
  pelogBase ++ map (fun r => r * 2) pelogBase
    ++ map (fun r => r * 3) pelogBase.

Definition quartertone : list float :=
  map (fun i => Math_pow M 2 (JS.of_nat i / 24)) (seq 0 24).

Definition fallbackScale : list float := [1.0; 1.125; 1.25; 1.5; 1.75; 2.0].

(** The [switch (this.scale)] of [getScaleTones]. *)
Definition scaleRatios (s : string) : list float :=
  if String.eqb s "dreyblatt" then dreyblatt
  else if String.eqb s "harmonic" then harmonic
  else if String.eqb s "slendro" then slendro
  else if String.eqb s "pelog" then pelog
  else if String.eqb s "quartertone" then quartertone
  else fallbackScale.

Definition getScaleTones (e : Engine) : list JS.value :=
  let headingNorm := JS.rem (JS.toNumber (heading e)) 360 in
  let ratios := scaleRatios (scale e) in
  let len := JS.of_nat (List.length ratios) in
  let at_ := JS.get ratios in
  let clamp x := JS.Math_min x (len - 1) in
  if headingNorm <? 90 then
    let t := headingNorm / 90 in
    let startIdx := JS.Math_floor (t * JS.Math_min 4 (len - 10)) in
    [ at_ startIdx;
      at_ (clamp (startIdx + 2));
      at_ (clamp (startIdx + 4));
      at_ (clamp (startIdx + 6));
      at_ (clamp (startIdx + 8));
      at_ (clamp (startIdx + 10)) ]
  else if headingNorm <? 180 then
    let t := (headingNorm - 90) / 90 in
    let startIdx := JS.Math_floor (5 + t * JS.Math_min 5 (len - 15)) in
    [ at_ (clamp startIdx);
      at_ (clamp (startIdx + 1));
      at_ (clamp (startIdx + 3));
      at_ (clamp (startIdx + 5));
      at_ (clamp (startIdx + 7));
      at_ (clamp (startIdx + 9)) ]
  else if headingNorm <? 270 then
    let t := (headingNorm - 180) / 90 in
    let startIdx := JS.Math_floor (10 + t * JS.Math_min 6 (len - 16)) in
    [ at_ (clamp startIdx);
      at_ (clamp (startIdx + 2));
      at_ (clamp (startIdx + 4));
      at_ (clamp (startIdx + 6));
      at_ (clamp (startIdx + 8));
      at_ (len - 1) ]
  else
    let t := (headingNorm - 270) / 90 in
    let spread := JS.Math_floor (t * 3) in
    [ at_ (clamp (0 + spread));
      at_ (clamp (4 + spread));
      at_ (clamp (8 + spread));
      at_ (clamp (12 + spread));
      at_ (clamp (16 + spread));
      at_ (len - 1) ].

(** *** Frequencies *)

Definition setOscillatorFrequency (index : nat) (freq : float) (w : World)
  : World :=
  match nth_error (oscillators (this w)) index with
  | None => w
  | Some _ =>
      let now := currentTime (host w) in
      let organicFreq := freq in
      let glide (osc : Oscillator) :=
        mkOsc (wave osc)
          (frequency osc
             |> cancelScheduledValues now
             |> setValueAtTime (value (frequency osc)) now
             |> exponentialRampToValueAtTime
                  (JS.Math_max 20 (JS.Math_min 20000 organicFreq))
                  (now + 2.0)) in
      on_this (fun e => set_oscillators (update_nth index glide (oscillators e)) e) w
  end.

Definition calculateSunElevation (e : Engine) : float :=
  let hourAngle := (JS.toNumber (timeOfDay e) - 0.5) * JS.PI * 2 in
  let declination := 0 in
  let latRad := JS.toNumber (latitude e) * JS.PI / 180 in
  let elevation :=
    Math_asin M
      (Math_sin M latRad * Math_sin M declination
       + Math_cos M latRad * Math_cos M declination * Math_cos M hourAngle)
    * 180 / JS.PI in
  JS.Math_max (-90) (JS.Math_min 90 elevation).

Definition harmonicIndices : list nat := [1; 2; 4; 5; 6; 7]%nat.

(** One turn of [harmonicIndices.forEach((oscIdx, i) => ...)]. *)
Definition setHarmonic (compassTones : list JS.value)
    (useSubharmonics : bool) (fund : float) (w : World) (turn : nat * nat)
  : World :=
  let '(oscIdx, i) := turn in
  let len := JS.of_nat (List.length compassTones) in
  let tone :=
    JS.toNumber (JS.get_value compassTones (JS.rem (JS.of_nat i) len)) in
  let octaveMultiplier := JS.Math_floor (JS.of_nat i / len) + 1 in
  let harmonic :=
    if useSubharmonics then fund / (tone * octaveMultiplier)
    else fund * tone * octaveMultiplier in
  let harmonic :=
    if String.eqb (mode (this w)) "pulse" then
      if (oscIdx <=? 2)%nat then harmonic * 0.25
      else if (5 <=? oscIdx)%nat then harmonic * 4.0
      else harmonic
    else if String.eqb (mode (this w)) "click" then
      if (oscIdx <=? 2)%nat then harmonic * 0.125
      else if (5 <=? oscIdx)%nat then harmonic * 8.0
      else harmonic
    else
      if (oscIdx =? 1)%nat || (oscIdx =? 2)%nat then harmonic * 1.0
      else if (oscIdx =? 6)%nat || (oscIdx =? 7)%nat then harmonic * 8.0
      else if (oscIdx =? 5)%nat then harmonic * 4.0
      else harmonic in
  setOscillatorFrequency oscIdx harmonic w.

(** The ramps of [for (let t = 0; t < 2; t += 0.05)]; the loop is over
    well before the fuel is (see [tremoloRamps_fuel]). *)
Fixpoint tremoloRamps (fuel : nat) (t : float)
    (currentGain tremoloRate tremoloDepth now : float) (p : AudioParam)
  : AudioParam :=
  match fuel with
  | O => p
  | S k =>
      if t <? 2 then
        let phase := t * tremoloRate * JS.PI * 2 in
        let modulation :=
          1 - tremoloDepth * 0.5 + tremoloDepth * 0.5 * Math_sin M phase in
        tremoloRamps k (t + 0.05) currentGain tremoloRate tremoloDepth now
          (p |> linearRampToValueAtTime (currentGain * modulation) (now + t))
      else p
  end.

(** One turn of [this.gainNodes.forEach] in the rainfall branch. *)
Definition rainTremolo (tremoloRate tremoloDepth now : float)
    (gain : AudioParam) : AudioParam :=
  let currentGain := value gain in
  if 0 <? currentGain then
    tremoloRamps 64 0 currentGain tremoloRate tremoloDepth now
      (gain |> cancelScheduledValues now
            |> setValueAtTime currentGain now)
  else gain.

(** One turn of [this.panners.forEach((panner, i) => ...)]. *)
Definition panOf (e : Engine) (panPosition : float) (i : nat) : float :=
  let densitySpread := 1.0 - JS.toNumber (populationDensity e) * 0.7 in
  let baseOffset := (JS.of_nat i - 3.5) * 0.05 in
  let offset := baseOffset * densitySpread in
  JS.Math_max (-0.8) (JS.Math_min 0.8 (panPosition + offset)).

(** [updateFrequencies] runs five blocks one after the other; they share
    no local, and each is a definition of its own here. *)

(** The fundamental, the two filters, and voices 0, 1, 2, 4, 5, 6, 7. *)
Definition tuneHarmonics (w : World) : World :=
  let e := this w in
  let hours := JS.toNumber (timeOfDay e) * 24 in
  let tempNorm := (JS.toNumber (temperature e) + 20) / 60 in
  let tempReference := 100 + tempNorm * 700 in
  let latNorm := abs (JS.toNumber (latitude e)) / 90 in
  let latOctave := Math_pow M 2 latNorm in
  let phaseShift := (hours - 12) / 24 * 2 * JS.PI in
  let timeModulation := Math_pow M 2 (Math_sin M phaseShift * 0.5) in
  let densityShift :=
    Math_pow M 2 (JS.toNumber (populationDensity e) * 0.5) in
  let baseFreq := tempReference * latOctave * timeModulation * densityShift in
  let (r, h) := random (host w) in
  let fundamental :=
    if String.eqb (mode e) "pulse" then baseFreq * (0.5 + r * 2.5)
    else if String.eqb (mode e) "click" then baseFreq * (0.25 + r * 8)
    else baseFreq * (0.75 + r * 0.5) in
  let e := set_fundamentalFreq fundamental e in
  let tempDrift := (JS.toNumber (temperature e) - 20) * 0.5 in
  let (r, h) := random h in
  let randomDrift := (r - 0.5) * abs tempDrift in
  let e := set_sunElevation (calculateSunElevation e) e in
  let elevationNorm := JS.Math_max (-20) (JS.Math_min 70 (sunElevation e)) in
  let elevationFactor := (elevationNorm + 20) / 90 in
  let sunBasedLPF := 500 + elevationFactor * 4500 in
  let latNormFilter := (JS.toNumber (latitude e) + 90) / 180 in
  let latModulation := latNormFilter * 1000 in
  let e := set_lowPassFilter (sunBasedLPF + latModulation) e in
  let sunBasedHPF := 200 - elevationFactor * 150 in
  let lonNorm := (JS.toNumber (longitude e) + 180) / 360 in
  let lonModulation := lonNorm * 50 in
  let e := set_highPassFilter (sunBasedHPF + lonModulation) e in
  let compassTones := getScaleTones e in
  let useSubharmonics := 200 <? fundamentalFreq e in
  let fund := fundamentalFreq e + randomDrift in
  let w := setOscillatorFrequency 0 fund (mkWorld e h) in
  let w :=
    fold_left (setHarmonic compassTones useSubharmonics fund)
      (combine harmonicIndices (seq 0 (List.length harmonicIndices))) w in
  on_this (fun e => set_lastHeading (heading e) e) w.

(** Voice 3, driven by the speed. *)
Definition tuneSpeedVoice (w : World) : World :=
  let e := this w in
  let speedNorm := JS.Math_min (JS.toNumber (speed e) / 35.8) 1 in
  let speedFreq := 50 + speedNorm * 950 in
  let speedFreq :=
    if String.eqb (mode e) "pulse" || String.eqb (mode e) "click" then
      if speedNorm <? 0.5 then speedFreq * 0.25 else speedFreq * 4.0
    else speedFreq in
  setOscillatorFrequency 3 speedFreq w.

(** The dry/wet mix and the pan of each voice. *)
Definition mixAndPan (w : World) : World :=
  let e := this w in
  let humidityNorm := JS.toNumber (humidity e) / 100 in
  let e := set_dryGain (0.85 - humidityNorm * 0.30) e in
  let e := set_wetGain (0.15 + humidityNorm * 0.45) e in
  let headingRad := JS.toNumber (heading e) * JS.PI / 180 in
  let panPosition := Math_sin M headingRad * 0.7 in
  let e :=
    set_panners
      (map (panOf e panPosition) (seq 0 (List.length (panners e)))) e in
  mkWorld e (host w).

(** The rainfall tremolo. *)
Definition rainfallTremolo (w : World) : World :=
  let e := this w in
  if 0 <? JS.toNumber (rainfall e) then
    let now := currentTime (host w) in
    let (r, h) := random (host w) in
    let tremoloRate := 4 + r * 2 in
    let rainfallNorm := JS.Math_min (JS.toNumber (rainfall e) / 10) 1 in
    let tremoloDepth := 0.1 + rainfallNorm * 0.7 in
    mkWorld
      (set_gainNodes
         (map (rainTremolo tremoloRate tremoloDepth now) (gainNodes e)) e)
      h
  else w.

(** The report to the listener, when one is registered. *)
Definition reportFrequencies (w : World) : World :=
  if onFrequencyUpdate (this w) then
    let freqs := map (fun osc => value (frequency osc)) (oscillators (this w)) in
    on_host (fun h => set_reports (reports h ++ [freqs]) h) w
  else w.

Definition updateFrequencies (w : World) : World :=
  if negb (isRunning (this w)) then w
  else
    w |> tuneHarmonics |> tuneSpeedVoice |> mixAndPan |> rainfallTremolo
      |> reportFrequencies.

(** *** Envelopes *)

Definition fadeIn (oscIndex : nat) (duration targetVolume : float)
    (w : World) : World :=
  if negb (isRunning (this w)) then w
  else
    match nth_error (gainNodes (this w)) oscIndex with
    | None => w
    | Some _ =>
        let e := this w in
        let now := currentTime (host w) in
        let (r, h) := random (host w) in
        let irregularity := (r - 0.5) * 0.02 in
        let organicDuration := JS.Math_max 0.01 (duration + irregularity) in
        let (r, h) := random h in
        let flutter := (r - 0.5) * 0.001 in
        let organicVolume := targetVolume * (1 + flutter) in
        let reverseAttackMultiplier :=
          1 + (1 - JS.toNumber (populationDensity e)) * 2 in
        let finalDuration := organicDuration * reverseAttackMultiplier in
        let ramp (gain : AudioParam) :=
          gain |> cancelScheduledValues now
               |> setValueAtTime 0 now
               |> linearRampToValueAtTime organicVolume (now + finalDuration) in
        mkWorld (set_gainNodes (update_nth oscIndex ramp (gainNodes e)) e) h
    end.

Definition fadeOut (oscIndex : nat) (duration : float) (w : World) : World :=
  if negb (isRunning (this w)) then w
  else
    match nth_error (gainNodes (this w)) oscIndex with
    | None => w
    | Some _ =>
        let e := this w in
        let now := currentTime (host w) in
        let ruralCutoff := JS.toNumber (populationDensity e) <? 0.3 in
        if ruralCutoff then
          let ramp (gain : AudioParam) :=
            gain |> cancelScheduledValues now
                 |> setValueAtTime (value gain) now
                 |> linearRampToValueAtTime 0 (now + 0.001) in
          mkWorld (set_gainNodes (update_nth oscIndex ramp (gainNodes e)) e)
            (host w)
        else
          let (r, h) := random (host w) in
          let irregularity := (r - 0.5) * 0.02 in
          let organicDuration := JS.Math_max 0.01 (duration + irregularity) in
          let fadeMultiplier := JS.toNumber (populationDensity e) in
          let finalDuration := organicDuration * fadeMultiplier in
          let ramp (gain : AudioParam) :=
            gain |> cancelScheduledValues now
                 |> setValueAtTime (value gain) now
                 |> linearRampToValueAtTime 0 (now + finalDuration) in
          mkWorld (set_gainNodes (update_nth oscIndex ramp (gainNodes e)) e) h
    end.

(** *** The pulse scheduler *)

Definition primeIntervals : list float := [37; 41; 43; 47; 53; 59; 61; 67].

(** The randomised timing of one cycle: interval, duration, fade-in and
    fade-out, drawn in the order the source draws them. *)
Definition drawTiming (oscIndex : nat) (e : Engine) (h : Host)
  : float * float * float * float * Host :=
  let speedNorm := JS.Math_min (JS.toNumber (speed e) / 35.8) 1 in
  if String.eqb (mode e) "pulse" then
    let (r, h) := random h in
    let duration := 50 + r * 250 in
    let (r, h) := random h in
    let fadeInT := (20 + r * 60) / 1000 in
    let (r, h) := random h in
    let fadeOutT := (10 + r * 40) / 1000 in
    let (r, h) := random h in
    let interval :=
      if (oscIndex =? 3)%nat then
        let minInterval := 12000 - speedNorm * 8000 in
        let maxInterval := 20000 - speedNorm * 12000 in
        minInterval + r * (maxInterval - minInterval)
      else
        let minInterval := 8000 - speedNorm * 5000 in
        let maxInterval := 15000 - speedNorm * 8000 in
        minInterval + r * (maxInterval - minInterval) in
    (interval, duration, fadeInT, fadeOutT, h)
  else if String.eqb (mode e) "click" then
    let (clickType, h) := random h in
    let (r, h) := random h in
    let '(duration, fadeInT, fadeOutT) :=
      if clickType <? 0.5 then (0.5 + r * 2, 0.0001, 0.0001)
      else if clickType <? 0.8 then (3 + r * 7, 0.0001, 0.001)
      else (10 + r * 20, 0.0001, 0.003) in
    let baseInterval :=
      JS.toNumber (JS.get primeIntervals (JS.of_nat oscIndex))
      * (40 + speedNorm * 20) in
    let (silenceChance, h) := random h in
    let (extraSilence, h) :=
      if 0.7 <? silenceChance then
        let (r, h) := random h in (r * 10000, h)
      else (0, h) in
    let (r, h) := random h in
    let jitter := (r - 0.5) * baseInterval * 0.1 in
    let interval := baseInterval + jitter + extraSilence in
    (interval, duration, fadeInT, fadeOutT, h)
  else
    let (r, h) := random h in
    let duration := 4000 + r * 8000 in
    let (r, h) := random h in
    let fadeInT := 1.0 + r * 2.0 in
    let (r, h) := random h in
    let fadeOutT := 2.0 + r * 4.0 in
    let (r, h) := random h in
    let interval :=
      if (oscIndex =? 3)%nat then
        let minInterval := 15000 - speedNorm * 10000 in
        let maxInterval := 25000 - speedNorm * 15000 in
        minInterval + r * (maxInterval - minInterval)
      else
        let minInterval := 12000 - speedNorm * 8000 in
        let maxInterval := 20000 - speedNorm * 12000 in
        minInterval + r * (maxInterval - minInterval) in
    (interval, duration, fadeInT, fadeOutT, h).

(** [scheduleSporadicPulse]: draw the timing, arm the interval timer and
    record its id in [sporadicTimers]. *)
Definition scheduleSporadicPulse (oscIndex : nat) (w : World) : World :=
  let e := this w in
  let '(interval, duration, fadeInT, fadeOutT, h) :=
    drawTiming oscIndex e (host w) in
  let (timer, h) :=
    setTimeout (PulseDue oscIndex interval duration fadeInT fadeOutT)
      interval h in
  mkWorld (set_sporadicTimers (sporadicTimers e ++ [timer]) e) h.

(** The volume a voice fades in to, by the mode at the time it fires. *)
Definition targetVolumeOf (m : string) (oscIndex : nat) : float :=
  let targetVolume := if String.eqb m "pulse" then 0.08 else 0.10 in
  let targetVolume :=
    if String.eqb m "drone" && (oscIndex <=? 2)%nat
    then targetVolume * 1.15 else targetVolume in
  if String.eqb m "drone" then
    if (oscIndex =? 4)%nat then targetVolume * 0.5
    else if (oscIndex =? 5)%nat then targetVolume * 0.5
    else if (oscIndex =? 6)%nat || (oscIndex =? 7)%nat then targetVolume * 0.6
    else targetVolume
  else targetVolume.

(** The body of the interval timer's closure.  In click mode the sample
    buffer itself is not kept: only the draws it uses up, the click's
    volume and start time, and the timer that re-arms the voice. *)
Definition pulseDue (oscIndex : nat) (interval duration fadeInT fadeOutT : float)
    (w : World) : World :=
  if negb (isRunning (this w)) then w
  else if String.eqb (mode (this w)) "click" then
    let h := host w in
    let now := currentTime h in
    let bufferLength := JS.Math_ceil (sampleRate h * (duration / 1000)) in
    match nth_error (oscillators (this w)) oscIndex with
    | None => w
    | Some osc =>
        let freq := value (frequency osc) in
        let h :=
          if 2000 <? freq
          then set_drawn (drawn h + JS.loop_count bufferLength)%N h else h in
        let targetVolume :=
          if 2000 <? freq then 0.35
          else if 200 <? freq then 0.45
          else 0.60 in
        let h := set_clicks (clicks h ++ [mkClick oscIndex targetVolume now]) h in
        let (_, h) := setTimeout (ClickRearm oscIndex) interval h in
        mkWorld (this w) h
    end
  else
    let targetVolume := targetVolumeOf (mode (this w)) oscIndex in
    let w := fadeIn oscIndex fadeInT targetVolume w in
    let (_, h) := setTimeout (HoldEnd oscIndex fadeOutT) duration (host w) in
    mkWorld (this w) h.

Definition runCallback (cb : Callback) (w : World) : World :=
  match cb with
  | ResumeCheck => w
  | PulseDue oscIndex interval duration fadeInT fadeOutT =>
      pulseDue oscIndex interval duration fadeInT fadeOutT w
  | ClickRearm oscIndex =>
      if negb (isRunning (this w)) then w
      else scheduleSporadicPulse oscIndex w
  | HoldEnd oscIndex fadeOutT =>
      if negb (isRunning (this w)) then w
      else w |> fadeOut oscIndex fadeOutT |> scheduleSporadicPulse oscIndex
  end.

(** The host fires a pending timer: it leaves the queue and its closure
    runs.  An id that is not pending fires nothing. *)
Definition fire (id : nat) (w : World) : World :=
  match find (fun t => Nat.eqb (timerId t) id) (timers (host w)) with
  | None => w
  | Some t => runCallback (callback t) (on_host (clearTimeout id) w)
  end.

Definition startSporadicOscillators (w : World) : World :=
  fold_left (fun w i => scheduleSporadicPulse i w) (seq 0 8) w.

(** *** Configuration *)

Definition waveOf (wf : string) : Wave :=
  if String.eqb wf "organ" then
    PeriodicWave [0; 1.0; 0.7; 0.3; 0.8; 0.2; 0.4; 0.15; 0.6; 0.1; 0.3;
                  0.08; 0.2; 0.05; 0.15; 0.03; 0.4]
  else if String.eqb wf "square" then
    PeriodicWave [0; 1.0; 0; 0.333; 0; 0.2; 0; 0.143; 0; 0.111; 0; 0.091;
                  0; 0.077]
  else if String.eqb wf "metallic" then
    PeriodicWave [0; 1.0; 0.4; 0.15; 0.3; 0.08; 0.2; 0.06; 0.15; 0.04; 0.1;
                  0.03; 0.08]
  else if String.eqb wf "harsh" then
    PeriodicWave [0; 1.0; 0.9; 0.8; 0.7; 0.6; 0.5; 0.4; 0.3; 0.2; 0.15; 0.1]
  else BuiltIn wf.

Definition setWaveform (wf : string) (w : World) : World :=
  on_this
    (fun e =>
       let e := set_waveform wf e in
       set_oscillators
         (map (fun osc => mkOsc (waveOf wf) (frequency osc)) (oscillators e)) e)
    w.

Definition clearSporadicTimers (w : World) : World :=
  let h := fold_left (fun h timer => clearTimeout timer h)
             (sporadicTimers (this w)) (host w) in
  mkWorld (set_sporadicTimers [] (this w)) h.

Definition setMode (m : string) (w : World) : World :=
  let w := on_this (set_mode m) w in
  let w := setWaveform (waveform (this w)) w in
  let w := clearSporadicTimers w in
  fold_left (fun w i => scheduleSporadicPulse i w) (seq 0 8) w.

Definition setScale (s : string) (w : World) : World :=
  updateFrequencies (on_this (set_scale s) w).

(** *** Life cycle *)

(** [createReverbImpulse] fills two channels of [sampleRate * 1.5] samples,
    one draw each; the impulse itself plays no part below. *)
Definition createReverbImpulse (h : Host) : Host :=
  let length := sampleRate h * 1.5 in
  set_drawn (drawn h + 2 * JS.loop_count length)%N h.

Definition newVoice (e : Engine) : Engine :=
  e |> (fun e => set_oscillators
                   (oscillators e ++ [mkOsc (BuiltIn (waveform e)) (mkParam 200 [])]) e)
    |> (fun e => set_gainNodes (gainNodes e ++ [mkParam 0 []]) e)
    |> (fun e => set_panners (panners e ++ [0]) e).

(** [start], with the audio backend available: the new context's clock
    starts at 0. *)
Definition start (w : World) : World :=
  if isRunning (this w) then w
  else
    let h := set_currentTime 0 (host w) in
    let (_, h) := setTimeout ResumeCheck 100 h in
    let h := createReverbImpulse h in
    let e :=
      this w |> set_dryGain 0.85 |> set_wetGain 0.15
             |> set_lowPassFilter 5000 |> set_highPassFilter 100 in
    let e := fold_left (fun e _ => newVoice e) (seq 0 8) e in
    let e := set_isRunning true e in
    mkWorld e h |> updateFrequencies |> startSporadicOscillators.

Definition stop (w : World) : World :=
  if negb (isRunning (this w)) then w
  else
    let w := clearSporadicTimers w in
    on_this
      (fun e => e |> set_oscillators [] |> set_gainNodes [] |> set_panners []
                  |> set_isRunning false)
      w.

Definition setEnvironmentalData
    (lat lon speed_ temp humidity_ heading_ timeOfDay_ : JS.value)
    (populationDensity_ trafficDensity_ elevation_ rainfall_ : JS.value)
    (w : World) : World :=
  let populationDensity_ := JS.param_default 0.5 populationDensity_ in
  let trafficDensity_ := JS.param_default 0.0 trafficDensity_ in
  let elevation_ := JS.param_default 0 elevation_ in
  let rainfall_ := JS.param_default 0 rainfall_ in
  let store (e : Engine) : Engine :=
    {| oscillators := oscillators e; gainNodes := gainNodes e;
       panners := panners e; dryGain := dryGain e; wetGain := wetGain e;
       lowPassFilter := lowPassFilter e; highPassFilter := highPassFilter e;
       isRunning := isRunning e;
       mode := mode e; waveform := waveform e; scale := scale e;
       fundamentalFreq := fundamentalFreq e;
       sporadicTimers := sporadicTimers e;
       latitude := lat; longitude := lon; speed := speed_;
       temperature := temp; humidity := humidity_; heading := heading_;
       timeOfDay := timeOfDay_;
       elevation := elevation_; rainfall := rainfall_;
       sunElevation := sunElevation e;
       populationDensity := populationDensity_;
       trafficDensity := trafficDensity_;
       lastHeading := lastHeading e;
       onFrequencyUpdate := onFrequencyUpdate e |} in
  updateFrequencies (on_this store w).

End Methods.

(** ** A concrete host

    One admissible [Math]: truncated power series, evaluated in binary64.
    It is what the concrete runs below are computed with; the general
    theorems hold for every [MathLib]. *)

Module Series.

(** [sum_{k < n} term k], the terms given by their ratio to the previous
    one. *)
Fixpoint series (n : nat) (k : float) (term acc : float)
    (next : float -> float -> float) : float :=
  match n with
  | O => acc
  | S n' => series n' (k + 1) (next k term) (acc + term) next
  end.

Definition exp (x : float) : float :=
  (* halve the argument eight times, then square back *)
  let y := x / 256 in
  let e := series 20 1 1 0 (fun k t => t * y / k) in
  let sq z := z * z in
  sq (sq (sq (sq (sq (sq (sq (sq e))))))).

Definition ln (b : float) : float :=
  let u := (b - 1) / (b + 1) in
  2 * series 40 0 u 0 (fun k t => t * u * u * (2 * k + 1) / (2 * k + 3)).

Definition pow (b e : float) : float := exp (e * ln b).

(** The angle brought back into [[-pi, pi]]. *)
Definition reduce (x : float) : float :=
  let r := JS.rem x (2 * JS.PI) in
  if JS.PI <? r then r - 2 * JS.PI
  else if r <? - JS.PI then r + 2 * JS.PI
  else r.

Definition sin (x : float) : float :=
  let x := reduce x in
  series 16 1 x 0 (fun k t => - t * x * x / ((2 * k) * (2 * k + 1))).

Definition cos (x : float) : float :=
  let x := reduce x in
  series 16 1 1 0 (fun k t => - t * x * x / ((2 * k - 1) * (2 * k))).

Definition asin_series (x : float) : float :=
  series 60 0 x 0
    (fun k t => t * x * x * (2 * k + 1) * (2 * k + 1)
                / ((2 * k + 2) * (2 * k + 3))).

(** Near the ends of [-1, 1] the series is slow: there
    [asin x = pi/2 - 2 asin (sqrt ((1 - x) / 2))]. *)
Definition asin (x : float) : float :=
  if 0.7 <? x then JS.PI / 2 - 2 * asin_series (sqrt ((1 - x) / 2))
  else if x <? -0.7 then 2 * asin_series (sqrt ((1 + x) / 2)) - JS.PI / 2
  else asin_series x.

End Series.

Definition seriesMath : MathLib :=
  {| Math_pow := Series.pow; Math_sin := Series.sin;
     Math_cos := Series.cos; Math_asin := Series.asin |}.

(** A host at rest: no timer pending, ids from 1, the given draws. *)
Definition newHost (rate : float) (draws : N -> float) : Host :=
  {| currentTime := 0; sampleRate := rate; timers := []; nextTimerId := 1;
     randomSeq := draws; drawn := 0; clicks := []; reports := [] |}.

(** The host moves the audio clock on, and renders a voice's gain. *)
Definition advanceTo (t : float) (w : World) : World :=
  on_host (set_currentTime t) w.

Definition rendered (oscIndex : nat) (v : float) (w : World) : World :=
  on_this
    (fun e =>
       set_gainNodes
         (update_nth oscIndex (fun g => mkParam v (events g)) (gainNodes e)) e)
    w.


(** ** Vocabulary of the properties *)

Definition supportedScales : list string :=
  ["dreyblatt"; "harmonic"; "slendro"; "pelog"; "quartertone"]%string.

(** An engine with the given scale and heading, otherwise as constructed. *)
Definition engineAt (s : string) (h : float) : Engine :=
  newEngine |> set_scale s |> set_heading (JS.Number h).

(** [l] never steps down from one element to the next. *)
Fixpoint nondecreasing (l : list float) : bool :=
  match l with
  | a :: (b :: _) as r => (a <=? b) && nondecreasing r
  | _ => true
  end.

(** A tone that is a ratio of the table [l]. *)
Definition ratioOf (l : list float) (v : JS.value) : Prop :=
  exists r, v = JS.Number r /\ In r l.

(** The voice a pending timer keeps cycling: each such timer is one live
    scheduler chain of that voice. *)
Definition voiceOf (cb : Callback) : option nat :=
  match cb with
  | ResumeCheck => None
  | PulseDue oscIndex _ _ _ _ => Some oscIndex
  | ClickRearm oscIndex => Some oscIndex
  | HoldEnd oscIndex _ => Some oscIndex
  end.

Definition onVoice (i : nat) (t : Timer) : bool :=
  match voiceOf (callback t) with
  | Some j => Nat.eqb i j
  | None => false
  end.

Definition chainsOf (i : nat) (w : World) : list Callback :=
  map callback (filter (onVoice i) (timers (host w))).

Definition liveChains (w : World) : list nat :=
  map (fun i => List.length (chainsOf i w)) (seq 0 8).

(** An interval timer of voice [i], as [scheduleSporadicPulse] arms it. *)
Definition isPulseDue (i : nat) (t : Timer) : Prop :=
  exists interval duration fadeInT fadeOutT,
    callback t = PulseDue i interval duration fadeInT fadeOutT
    /\ delay t = interval.

(** A timer whose id is among [ids]. *)
Definition recorded (ids : list nat) (t : Timer) : bool :=
  existsb (Nat.eqb (timerId t)) ids.

Definition isLinearRamp (ev : AutomationEvent) : bool :=
  match ev with
  | LinearRampToValueAtTime _ _ => true
  | _ => false
  end.

(** The last call made on a parameter. *)
Definition lastEvent (p : AudioParam) : option AutomationEvent :=
  last (map Some (events p)) None.

(** [w'] is [w] but for its oscillators. *)
Definition sameButOscillators (w w' : World) : Prop :=
  host w' = host w
  /\ exists l, this w' = set_oscillators l (this w).

(** [h'] is [h] but for the draws used up and the reports sent: the clock,
    the timers and the clicks are the same. *)
Definition hostKeeps (h h' : Host) : Prop :=
  currentTime h' = currentTime h
  /\ sampleRate h' = sampleRate h
  /\ timers h' = timers h
  /\ nextTimerId h' = nextTimerId h
  /\ randomSeq h' = randomSeq h
  /\ clicks h' = clicks h.

(** ** Concrete runs *)

(** A fresh engine in a host at 44.1 kHz whose every draw is 0.5. *)
Definition world0 : World :=
  mkWorld newEngine (newHost 44100 (fun _ => 0.5)).

(** The engine started: eight voices, eight interval timers (ids 2 to 9,
    id 1 being the resume check). *)
Definition running : World := start seriesMath world0.

(** Voice 0's interval has elapsed at 16 s: it fades in and is now held by
    the hold timer (id 10), which [sporadicTimers] does not list. *)
Definition voice0Held : World := running |> advanceTo 16 |> fire 2.

(** Half a second into that fade-in the gain of voice 0 has reached 0.01. *)
Definition voice0FadingIn : World :=
  voice0Held |> advanceTo 16.5 |> rendered 0 0.01.

(** An environmental snapshot for New York at noon, standing still; the
    traffic density and the elevation are left out. *)
Definition snapshot (temp density rain : JS.value) (w : World) : World :=
  setEnvironmentalData seriesMath
    (JS.Number 40) (JS.Number (-74)) (JS.Number 0) temp (JS.Number 50)
    (JS.Number 0) (JS.Number 0.5)
    density JS.Undefined JS.Undefined rain w.

(** Voice 0 held, in the countryside: population density 0.1. *)
Definition ruralHeld : World :=
  voice0Held |> snapshot (JS.Number 20) (JS.Number 0.1) JS.Undefined.

(** ** Vocabulary of the further properties *)

(** An interval timer, by its closure. *)
Definition isInterval (t : Timer) : bool :=
  match callback t with
  | PulseDue _ _ _ _ _ => true
  | _ => false
  end.

(** The timers are in order: the pending ones have distinct ids, every id
    handed out so far, pending or recorded, is below the next one, and every
    pending interval timer is recorded in [sporadicTimers]. *)
Definition timersInOrder (w : World) : Prop :=
  NoDup (map timerId (timers (host w)))
  /\ Forall (fun t => (timerId t < nextTimerId (host w))%nat) (timers (host w))
  /\ Forall (fun id => (id < nextTimerId (host w))%nat) (sporadicTimers (this w))
  /\ Forall (fun t => isInterval t = true ->
                      In (timerId t) (sporadicTimers (this w)))
       (timers (host w)).

(** The number of voices, when the three banks agree on it. *)
Definition voices (n : nat) (e : Engine) : Prop :=
  List.length (oscillators e) = n
  /\ List.length (gainNodes e) = n
  /\ List.length (panners e) = n.


(** The configuration and the environmental snapshot of two engines are the
    same: everything but the audio nodes and the values derived for them. *)
Definition sameSettings (e e' : Engine) : Prop :=
  isRunning e' = isRunning e /\ mode e' = mode e
  /\ waveform e' = waveform e /\ scale e' = scale e
  /\ sporadicTimers e' = sporadicTimers e
  /\ onFrequencyUpdate e' = onFrequencyUpdate e
  /\ latitude e' = latitude e /\ longitude e' = longitude e
  /\ speed e' = speed e /\ temperature e' = temperature e
  /\ humidity e' = humidity e /\ heading e' = heading e
  /\ timeOfDay e' = timeOfDay e /\ elevation e' = elevation e
  /\ rainfall e' = rainfall e
  /\ populationDensity e' = populationDensity e
  /\ trafficDensity e' = trafficDensity e.

(** What can happen to the engine: a call of its interface, or the host
    firing a timer, moving the audio clock on or rendering a voice's gain. *)
Inductive Action : Type :=
| Start
| Stop
| SetMode (m : string)
| SetWaveform (wf : string)
| SetScale (s : string)
| SetEnvironmentalData
    (lat lon speed_ temp humidity_ heading_ timeOfDay_ : JS.value)
    (populationDensity_ trafficDensity_ elevation_ rainfall_ : JS.value)
| Fire (id : nat)
| AdvanceTo (t : float)
| Rendered (oscIndex : nat) (v : float).

Definition perform (M : MathLib) (a : Action) (w : World) : World :=
  match a with
  | Start => start M w
  | Stop => stop w
  | SetMode m => setMode m w
  | SetWaveform wf => setWaveform wf w
  | SetScale s => setScale M s w
  | SetEnvironmentalData lat lon sp temp hum hd tod pd td el rain =>
      setEnvironmentalData M lat lon sp temp hum hd tod pd td el rain w
  | Fire id => fire id w
  | AdvanceTo t => advanceTo t w
  | Rendered oscIndex v => rendered oscIndex v w
  end.


(** The state is well formed: the timers are in order, a running engine
    holds eight voices and a stopped one none, and every pending timer that
    cycles a voice names one of the eight. *)
Definition wellFormed (w : World) : Prop :=
  timersInOrder w
  /\ voices (if isRunning (this w) then 8 else 0) (this w)
  /\ Forall (fun t => forall i, voiceOf (callback t) = Some i -> (i < 8)%nat)
       (timers (host w)).

(** [e'] is [e] but for its gains, of which only voice [i]'s may differ. *)
Definition sameButGain (i : nat) (e e' : Engine) : Prop :=
  exists gains : list AudioParam,
    e' = set_gainNodes gains e
    /\ List.length gains = List.length (gainNodes e)
    /\ forall j, j <> i -> nth_error gains j = nth_error (gainNodes e) j.

(** From [w] to [w'] the timers [added] were armed, with the next ids in
    order, and the interval timers among them were recorded; nothing was
    cancelled. *)
Definition arms (added : list Timer) (w w' : World) : Prop :=
  timers (host w') = timers (host w) ++ added
  /\ nextTimerId (host w') = (nextTimerId (host w) + List.length added)%nat
  /\ map timerId added = seq (nextTimerId (host w)) (List.length added)
  /\ sporadicTimers (this w')
     = sporadicTimers (this w) ++ map timerId (filter isInterval added).

(** The running flag and the size of the three banks are the same. *)
Definition sameShape (e e' : Engine) : Prop :=
  isRunning e' = isRunning e
  /\ List.length (oscillators e') = List.length (oscillators e)
  /\ List.length (gainNodes e') = List.length (gainNodes e)
  /\ List.length (panners e') = List.length (panners e).

(** [v] is NaN or lies between [lo] and [hi]: what
    [Math.max(lo, Math.min(hi, x))] can return. *)
Definition within (lo hi v : float) : Prop :=
  is_nan v = true \/ ((lo <=? v) = true /\ (v <=? hi) = true).

(** The values [t] takes in [for (let t = 0; t < 2; t += 0.05)]. *)
Fixpoint tremoloTimes (fuel : nat) (t : float) : list float :=
  match fuel with
  | O => []
  | S k => if t <? 2 then t :: tremoloTimes k (t + 0.05) else []
  end.

(** The ramp the tremolo loop schedules at [t]. *)
Definition tremoloRamp (M : MathLib)
    (currentGain tremoloRate tremoloDepth now t : float) : AutomationEvent :=
  let phase := t * tremoloRate * JS.PI * 2 in
  let modulation :=
    1 - tremoloDepth * 0.5 + tremoloDepth * 0.5 * Math_sin M phase in
  LinearRampToValueAtTime (currentGain * modulation) (now + t).

(** *** The application's buttons (src/app.js) *)

(** [Array.prototype.indexOf] on strings: the first position, or -1. *)
Fixpoint indexOfFrom (x : string) (l : list string) (i : Z) : Z :=
  match l with
  | [] => (-1)%Z
  | y :: r => if String.eqb y x then i else indexOfFrom x r (i + 1)%Z
  end.

Definition indexOf (x : string) (l : list string) : Z := indexOfFrom x l 0.

(** [toggleMode]: the mode after the current one in [modes], through
    [setMode].  The button's text and colour belong to the page and are left
    out.  The index is 0, 1 or 2, so [modes[nextIndex]] is always defined. *)
Definition toggleMode (w : World) : World :=
  let modes := ["drone"; "pulse"; "click"]%string in
  let currentIndex := indexOf (mode (this w)) modes in
  let nextIndex := Z.rem (currentIndex + 1) (Z.of_nat (List.length modes)) in
  match nth_error modes (Z.to_nat nextIndex) with
  | Some newMode => setMode newMode w
  | None => w
  end.

(** [toggleWaveform], likewise, through [setWaveform]. *)
Definition toggleWaveform (w : World) : World :=
  let waveforms :=
    ["sine"; "sawtooth"; "organ"; "square"; "metallic"; "harsh"]%string in
  let currentIndex := indexOf (waveform (this w)) waveforms in
  let nextIndex :=
    Z.rem (currentIndex + 1) (Z.of_nat (List.length waveforms)) in
  match nth_error waveforms (Z.to_nat nextIndex) with
  | Some newWaveform => setWaveform newWaveform w
  | None => w
  end.
(** ** Facts about binary64 arithmetic *)

Module FloatFacts.

Lemma ltb_leb (x y : float) : (x <? y) = true -> (x <=? y) = true.
Proof.
  rewrite ltb_spec, leb_spec. unfold SFltb, SFleb.
  destruct (SFcompare (Prim2SF x) (Prim2SF y)) as [[ | | ] | ];
    intros H; try reflexivity; discriminate H.
Qed.

(** There is one [NaN]. *)
Lemma is_nan_eq (x : float) : is_nan x = true -> x = nan.
Proof.
  intros H. apply Prim2SF_inj. unfold Prim2SF at 1. rewrite H. reflexivity.
Qed.

Lemma Prim2SF_nan : Prim2SF nan = S754_nan.
Proof. reflexivity. Qed.

Lemma mul_nan_l (x : float) : nan * x = nan.
Proof.
  apply Prim2SF_inj. rewrite mul_spec, Prim2SF_nan. reflexivity.
Qed.

Lemma mul_nan_r (x : float) : x * nan = nan.
Proof.
  apply Prim2SF_inj. rewrite mul_spec, Prim2SF_nan.
  destruct (Prim2SF x); reflexivity.
Qed.

Lemma add_nan_l (x : float) : nan + x = nan.
Proof.
  apply Prim2SF_inj. rewrite add_spec, Prim2SF_nan. reflexivity.
Qed.

Lemma add_nan_r (x : float) : x + nan = nan.
Proof.
  apply Prim2SF_inj. rewrite add_spec, Prim2SF_nan.
  destruct (Prim2SF x); reflexivity.
Qed.

(** The clamp of [setOscillatorFrequency]. *)
Lemma clamp_20_20000 (f : float) :
  is_nan f = false ->
  let v := JS.Math_max 20 (JS.Math_min 20000 f) in
  (20 <=? v) = true /\ (v <=? 20000) = true.
Proof.
  intros Hf. unfold JS.Math_min.
  replace (is_nan 20000) with false by reflexivity.
  replace (JS.is_pos_zero 20000) with false by reflexivity.
  rewrite Hf, andb_false_r. cbn [orb].
  destruct (f <? 20000) eqn:Hhi.
  - unfold JS.Math_max.
    replace (is_nan 20) with false by reflexivity.
    replace (JS.is_neg_zero 20) with false by reflexivity.
    rewrite Hf, andb_false_r. cbn [orb].
    destruct (20 <? f) eqn:Hlo.
    + split; [apply ltb_leb, Hlo | apply ltb_leb, Hhi].
    + split; reflexivity.
  - split; reflexivity.
Qed.

End FloatFacts.

(** Split conjunctions only, then evaluate each part. *)
Ltac conjuncts := repeat match goal with |- _ /\ _ => split end.
Ltac evaluate := cbv zeta; conjuncts; vm_compute; reflexivity.

(** ** Lists updated in place *)

Lemma nth_error_update_nth {A : Type} (f : A -> A) (l : list A) (i : nat) :
  nth_error (update_nth i f l) i = option_map f (nth_error l i).
Proof.
  revert i. induction l as [ | x r IH]; intros [ | i]; cbn; auto.
Qed.

Lemma nth_error_update_nth_other {A : Type} (f : A -> A) (l : list A)
    (i j : nat) :
  i <> j -> nth_error (update_nth i f l) j = nth_error l j.
Proof.
  revert i j. induction l as [ | x r IH]; intros [ | i] [ | j] Hij; cbn; auto.
  - congruence.
Qed.

Lemma length_update_nth {A : Type} (f : A -> A) (l : list A) (i : nat) :
  List.length (update_nth i f l) = List.length l.
Proof.
  revert i. induction l as [ | x r IH]; intros [ | i]; cbn; auto.
Qed.

(** ** The frequency clamp (C1) *)

Lemma setOscillatorFrequency_absent (index : nat) (f : float) (w : World) :
  nth_error (oscillators (this w)) index = None ->
  setOscillatorFrequency index f w = w.
Proof.
  intros H. unfold setOscillatorFrequency. rewrite H. reflexivity.
Qed.

(** C1.  For every voice index and every target frequency that is a number
    (the infinities included, so 1e9 and -50 too), [setOscillatorFrequency]
    schedules on that voice's oscillator one exponential glide, whose target
    lies in [20, 20000] Hz, and touches no other oscillator. *)
Theorem setOscillatorFrequency_in_range
    (index : nat) (f : float) (w : World) (osc : Oscillator) :
  is_nan f = false ->
  nth_error (oscillators (this w)) index = Some osc ->
  let now := currentTime (host w) in
  let w' := setOscillatorFrequency index f w in
  exists v : float,
    nth_error (oscillators (this w')) index
    = Some (mkOsc (wave osc)
              (frequency osc
                 |> cancelScheduledValues now
                 |> setValueAtTime (value (frequency osc)) now
                 |> exponentialRampToValueAtTime v (now + 2)))
    /\ (20 <=? v) = true /\ (v <=? 20000) = true
    /\ forall j, j <> index ->
         nth_error (oscillators (this w')) j
         = nth_error (oscillators (this w)) j.
Proof.
  intros Hf Hosc now w'.
  exists (JS.Math_max 20 (JS.Math_min 20000 f)).
  destruct (FloatFacts.clamp_20_20000 f Hf) as [Hlo Hhi].
  subst w'. unfold setOscillatorFrequency. rewrite Hosc. cbn.
  split; [rewrite nth_error_update_nth, Hosc; reflexivity | ].
  split; [exact Hlo | ]. split; [exact Hhi | ].
  intros j Hj. apply nth_error_update_nth_other. congruence.
Qed.

(** The clamp at work on the started engine: a target of 1e9 Hz for voice 3,
    whose oscillator glides to 50 Hz, is scheduled within the range. *)
Lemma setOscillatorFrequency_in_range_witness :
  let osc := mkOsc (BuiltIn "sine")
               (mkParam 200 [SetValueAtTime 200 0;
                             ExponentialRampToValueAtTime 50 2]) in
  let w' := setOscillatorFrequency 3 1e9 running in
  is_nan 1e9 = false
  /\ nth_error (oscillators (this running)) 3 = Some osc
  /\ exists v : float,
       nth_error (oscillators (this w')) 3
       = Some (mkOsc (wave osc)
                 (frequency osc
                    |> cancelScheduledValues 0
                    |> setValueAtTime 200 0
                    |> exponentialRampToValueAtTime v (0 + 2)))
       /\ (20 <=? v) = true /\ (v <=? 20000) = true
       /\ forall j, j <> 3%nat ->
            nth_error (oscillators (this w')) j
            = nth_error (oscillators (this running)) j.
Proof.
  intros osc w'.
  split; [reflexivity | ].
  split; [vm_compute; reflexivity | ].
  apply (setOscillatorFrequency_in_range 3 1e9 running osc).
  - reflexivity.
  - vm_compute. reflexivity.
Defined.

(** ** The rural hard stop (C9) *)

(** C9.  With the population density below the rural threshold 0.3, a
    [fadeOut] on a running engine cancels the voice's schedule from now on
    and ramps its gain to 0 at [now + 0.001] s, one millisecond, whatever the
    fade-out duration passed in; it makes no random draw. *)
Theorem fadeOut_rural_hard_stop
    (oscIndex : nat) (duration : float) (w : World) (gain : AudioParam) :
  isRunning (this w) = true ->
  (JS.toNumber (populationDensity (this w)) <? 0.3) = true ->
  nth_error (gainNodes (this w)) oscIndex = Some gain ->
  let now := currentTime (host w) in
  let w' := fadeOut oscIndex duration w in
  nth_error (gainNodes (this w')) oscIndex
  = Some (gain |> cancelScheduledValues now
               |> setValueAtTime (value gain) now
               |> linearRampToValueAtTime 0 (now + 0.001))
  /\ host w' = host w
  /\ (0.001 <=? 0.002) = true.
Proof.
  intros Hrun Hrural Hgain now w'. subst w'.
  unfold fadeOut. rewrite Hrun, Hgain, Hrural. cbn.
  rewrite nth_error_update_nth, Hgain. cbn.
  repeat split.
Qed.

(** In the countryside (density 0.1) the held voice 0 is cut within a
    millisecond, here with a 4 s fade-out asked for. *)
Lemma fadeOut_rural_hard_stop_witness :
  let gain := mkParam 0 [SetValueAtTime 0 16;
                         LinearRampToValueAtTime 0.11499999999999999 20] in
  let w' := fadeOut 0 4 ruralHeld in
  isRunning (this ruralHeld) = true
  /\ (JS.toNumber (populationDensity (this ruralHeld)) <? 0.3) = true
  /\ nth_error (gainNodes (this ruralHeld)) 0 = Some gain
  /\ nth_error (gainNodes (this w')) 0
     = Some (gain |> cancelScheduledValues 16
                  |> setValueAtTime 0 16
                  |> linearRampToValueAtTime 0 (16 + 0.001))
  /\ host w' = host ruralHeld
  /\ (0.001 <=? 0.002) = true.
Proof.
  intros gain w'.
  split; [vm_compute; reflexivity | ].
  split; [vm_compute; reflexivity | ].
  split; [vm_compute; reflexivity | ].
  apply (fadeOut_rural_hard_stop 0 4 ruralHeld gain);
    vm_compute; reflexivity.
Defined.

(** ** Tone selection *)

Section ScaleTones.

Variable M : MathLib.

Lemma get_spec (l : list float) (x : float) :
  JS.get l x = JS.Undefined \/ ratioOf l (JS.get l x).
Proof.
  unfold JS.get, JS.lookup.
  destruct (JS.to_index x) as [i | ]; [ | now left].
  destruct (nth_error l i) as [r | ] eqn:Hr; [ | now left].
  right. exists r. split; [reflexivity | ]. eapply nth_error_In, Hr.
Qed.

(** [getScaleTones] reads nothing of the engine but the scale and the
    heading. *)
Lemma getScaleTones_pure (e1 e2 : Engine) :
  scale e1 = scale e2 -> heading e1 = heading e2 ->
  getScaleTones M e1 = getScaleTones M e2.
Proof.
  intros Hs Hh. unfold getScaleTones. rewrite Hs, Hh. reflexivity.
Qed.

Lemma getScaleTones_length (e : Engine) :
  List.length (getScaleTones M e) = 6%nat.
Proof.
  unfold getScaleTones.
  repeat match goal with |- context [if ?c then _ else _] => destruct c end;
    reflexivity.
Qed.

(** Each of the six entries is a ratio of the active table, or [undefined]
    when its index names no element of the table. *)
Lemma getScaleTones_entries (e : Engine) :
  Forall (fun v => v = JS.Undefined \/ ratioOf (scaleRatios M (scale e)) v)
    (getScaleTones M e).
Proof.
  unfold getScaleTones.
  repeat match goal with |- context [if ?c then _ else _] => destruct c end;
    repeat (apply Forall_cons; [apply get_spec | ]); apply Forall_nil.
Qed.

(** C8.  For each of the five supported scales, the tones selected at
    heading 89.9 and at heading 90.1 share a ratio of the scale (the one at
    index 5 of its table). *)
Theorem heading_89_9_and_90_1_overlap (e1 e2 : Engine) (s : string) :
  In s supportedScales ->
  scale e1 = s -> scale e2 = s ->
  heading e1 = JS.Number 89.9 -> heading e2 = JS.Number 90.1 ->
  exists r : float,
    In r (scaleRatios M s)
    /\ In (JS.Number r) (getScaleTones M e1)
    /\ In (JS.Number r) (getScaleTones M e2).
Proof.
  intros Hs Hs1 Hs2 Hh1 Hh2.
  rewrite (getScaleTones_pure e1 (engineAt s 89.9)) by (subst s; auto).
  rewrite (getScaleTones_pure e2 (engineAt s 90.1)) by (subst s; auto).
  clear Hs1 Hs2 Hh1 Hh2.
  exists (nth 5 (scaleRatios M s) 0).
  unfold supportedScales in Hs. cbn [In] in Hs.
  destruct Hs as [Hs | [Hs | [Hs | [Hs | [Hs | []]]]]]; subst s;
    (split; [ | split]); vm_compute; tauto.
Qed.

End ScaleTones.

(** The overlap on an engine tuned to the quarter-tone scale. *)
Lemma heading_89_9_and_90_1_overlap_witness :
  In "quartertone"%string supportedScales
  /\ scale (engineAt "quartertone" 89.9) = "quartertone"%string
  /\ scale (engineAt "quartertone" 90.1) = "quartertone"%string
  /\ heading (engineAt "quartertone" 89.9) = JS.Number 89.9
  /\ heading (engineAt "quartertone" 90.1) = JS.Number 90.1
  /\ exists r : float,
       In r (scaleRatios seriesMath "quartertone")
       /\ In (JS.Number r) (getScaleTones seriesMath (engineAt "quartertone" 89.9))
       /\ In (JS.Number r) (getScaleTones seriesMath (engineAt "quartertone" 90.1)).
Proof.
  split; [cbn; tauto | ].
  repeat (split; [reflexivity | ]).
  apply (heading_89_9_and_90_1_overlap seriesMath
           (engineAt "quartertone" 89.9) (engineAt "quartertone" 90.1)
           "quartertone");
    first [reflexivity | cbn; tauto].
Defined.

(** ** The scale tables (C6) *)

Lemma nondecreasing_map_seq (f : nat -> float) (n start : nat) :
  (forall i, (start <= i)%nat -> (S i < start + n)%nat ->
             (f i <=? f (S i)) = true) ->
  nondecreasing (map f (seq start n)) = true.
Proof.
  revert start. induction n as [ | n IH]; intros start H; [reflexivity | ].
  destruct n as [ | n]; [reflexivity | ].
  change (nondecreasing (f start :: map f (seq (S start) (S n))) = true).
  cbn [seq map nondecreasing].
  rewrite H by lia. cbn [andb].
  apply (IH (S start)). intros i Hlo Hhi. apply H; lia.
Qed.

(** C6, as the code has it.  Every supported scale starts at 1.0, the
    quarter-tone one because [Math.pow(2, 0)] is 1.  The Dreyblatt and the
    harmonic tables never step down, and neither does the quarter-tone table
    as long as the host's [Math.pow(2, i/24)] does not.  The slendro and pelog
    tables are the base ratios followed by the base times 2, times 3 and (for
    slendro) times 4: no step down inside a block, but the whole table is not
    non-decreasing. *)
Theorem scale_tables (M : MathLib) :
  Math_pow M 2 0 = 1 ->
  (forall i, (i < 23)%nat ->
     (Math_pow M 2 (JS.of_nat i / 24) <=? Math_pow M 2 (JS.of_nat (S i) / 24))
     = true) ->
  (forall s, In s supportedScales -> nth_error (scaleRatios M s) 0 = Some 1)
  /\ nondecreasing (scaleRatios M "dreyblatt") = true
  /\ nondecreasing (scaleRatios M "harmonic") = true
  /\ nondecreasing (scaleRatios M "quartertone") = true
  /\ (scaleRatios M "slendro"
      = slendroBase ++ map (fun r => r * 2) slendroBase
          ++ map (fun r => r * 3) slendroBase
          ++ map (fun r => r * 4) slendroBase
      /\ nondecreasing slendroBase = true
      /\ nondecreasing (map (fun r => r * 2) slendroBase) = true
      /\ nondecreasing (map (fun r => r * 3) slendroBase) = true
      /\ nondecreasing (map (fun r => r * 4) slendroBase) = true
      /\ nondecreasing (scaleRatios M "slendro") = false)
  /\ (scaleRatios M "pelog"
      = pelogBase ++ map (fun r => r * 2) pelogBase
          ++ map (fun r => r * 3) pelogBase
      /\ nondecreasing pelogBase = true
      /\ nondecreasing (map (fun r => r * 2) pelogBase) = true
      /\ nondecreasing (map (fun r => r * 3) pelogBase) = true
      /\ nondecreasing (scaleRatios M "pelog") = false).
Proof.
  intros Hzero Hmono.
  split.
  { intros s Hs. unfold supportedScales in Hs. cbn [In] in Hs.
    destruct Hs as [Hs | [Hs | [Hs | [Hs | [Hs | []]]]]]; subst s;
      try reflexivity.
    change (Some (Math_pow M 2 (JS.of_nat 0 / 24)) = Some 1).
    replace (JS.of_nat 0 / 24) with 0 by reflexivity.
    now rewrite Hzero. }
  split; [reflexivity | ].
  split; [reflexivity | ].
  split.
  { change (nondecreasing
              (map (fun i => Math_pow M 2 (JS.of_nat i / 24)) (seq 0 24))
            = true).
    apply nondecreasing_map_seq. intros i _ Hi. apply Hmono. lia. }
  split; evaluate.
Qed.

(** The series host meets both provisos. *)
Lemma scale_tables_witness :
  Math_pow seriesMath 2 0 = 1
  /\ forallb
       (fun i => Math_pow seriesMath 2 (JS.of_nat i / 24)
                 <=? Math_pow seriesMath 2 (JS.of_nat (S i) / 24))
       (seq 0 23) = true
  /\ nth_error (scaleRatios seriesMath "quartertone") 0 = Some 1
  /\ nondecreasing (scaleRatios seriesMath "quartertone") = true.
Proof.
  split; [vm_compute; reflexivity | ].
  split; [vm_compute; reflexivity | ].
  assert (H : forall i, (i < 23)%nat ->
            (Math_pow seriesMath 2 (JS.of_nat i / 24)
             <=? Math_pow seriesMath 2 (JS.of_nat (S i) / 24)) = true).
  { intros i Hi.
    assert (Hall : forallb
              (fun i => Math_pow seriesMath 2 (JS.of_nat i / 24)
                        <=? Math_pow seriesMath 2 (JS.of_nat (S i) / 24))
              (seq 0 23) = true) by (vm_compute; reflexivity).
    rewrite forallb_forall in Hall. apply Hall. apply in_seq. lia. }
  destruct (scale_tables seriesMath eq_refl H) as [Hfirst [_ [_ [Hq _]]]].
  split; [apply Hfirst; cbn; tauto | exact Hq].
Defined.

(** The slendro table steps down where its third block begins: element 9 is
    1.87 * 2 = 3.74, element 10 is 1.0 * 3 = 3. *)
Lemma slendro_steps_down :
  In "slendro"%string supportedScales
  /\ nth_error (scaleRatios seriesMath "slendro") 9 = Some (1.87 * 2)
  /\ nth_error (scaleRatios seriesMath "slendro") 10 = Some (1.0 * 3)
  /\ (1.0 * 3 <? 1.87 * 2) = true
  /\ nondecreasing (scaleRatios seriesMath "slendro") = false.
Proof.
  split; [cbn; tauto | ].
  evaluate.
Qed.

(** ** Indices outside the table (C7, C10) *)

(** C7 at heading -10 on the Dreyblatt scale: [%] keeps the sign, the first
    index is [floor(-10/90 * 4) = -1], and the first of the six entries is
    [undefined], not a ratio of the scale. *)
Theorem getScaleTones_heading_minus_10 :
  getScaleTones seriesMath (engineAt "dreyblatt" (-10))
  = [JS.Undefined; JS.Number 1.125; JS.Number 1.375; JS.Number 1.625;
     JS.Number 1.875; JS.Number 2.125]
  /\ ~ ratioOf (scaleRatios seriesMath "dreyblatt") JS.Undefined.
Proof.
  split; [vm_compute; reflexivity | ].
  intros [r [Hr _]]. discriminate Hr.
Qed.

(** C10 at two inputs.  A negative heading on a supported scale: the first
    index is -1.  An unrecognised scale name at heading 45: the fallback
    table has 6 ratios, [Math.min(4, 6 - 10)] is -4 and the first index is
    [floor(0.5 * -4) = -2].  Either way the first entry is [undefined]. *)
Theorem getScaleTones_index_out_of_bounds :
  JS.rem (-10) 360 = -10
  /\ JS.Math_floor (-10 / 90 * JS.Math_min 4 (20 - 10)) = -1
  /\ getScaleTones seriesMath (engineAt "harmonic" (-10))
     = [JS.Undefined; JS.Number 2; JS.Number 4; JS.Number 6; JS.Number 8;
        JS.Number 10]
  /\ JS.Math_floor (45 / 90 * JS.Math_min 4 (6 - 10)) = -2
  /\ getScaleTones seriesMath (engineAt "just" 45)
     = [JS.Undefined; JS.Number 1; JS.Number 1.25; JS.Number 1.75;
        JS.Number 2; JS.Number 2].
Proof.
  evaluate.
Qed.

(** On whole-degree headings from 0 to 359 every supported scale yields six
    defined tones: the indices leave the table only for the inputs above. *)
Lemma getScaleTones_defined_on_degrees (M : MathLib) :
  forallb
    (fun s =>
       forallb
         (fun h => forallb JS.is_defined
                     (getScaleTones M (engineAt s (JS.of_nat h))))
         (seq 0 360))
    supportedScales = true.
Proof.
  vm_compute. reflexivity.
Qed.

(** ** The pulse scheduler's timers (C3, C4) *)

(** Drawing the timing of a cycle uses up draws and nothing else. *)
Lemma drawTiming_host (oscIndex : nat) (e : Engine) (h : Host) :
  timers (snd (drawTiming oscIndex e h)) = timers h
  /\ nextTimerId (snd (drawTiming oscIndex e h)) = nextTimerId h.
Proof.
  unfold drawTiming, random.
  repeat match goal with |- context [if ?c then _ else _] => destruct c end;
    cbn; split; reflexivity.
Qed.

(** [scheduleSporadicPulse] arms exactly one timer, an interval timer of the
    voice, and records its id. *)
Lemma scheduleSporadicPulse_spec (i : nat) (w : World) :
  let w' := scheduleSporadicPulse i w in
  exists t : Timer,
    timers (host w') = timers (host w) ++ [t]
    /\ timerId t = nextTimerId (host w)
    /\ isPulseDue i t
    /\ nextTimerId (host w') = S (nextTimerId (host w))
    /\ sporadicTimers (this w') = sporadicTimers (this w) ++ [timerId t]
    /\ mode (this w') = mode (this w)
    /\ isRunning (this w') = isRunning (this w).
Proof.
  cbv zeta. unfold scheduleSporadicPulse.
  destruct (drawTiming_host i (this w) (host w)) as [Ht Hn].
  destruct (drawTiming i (this w) (host w)) as [[[[iv d] fi] fo] h'].
  cbn in Ht, Hn. cbn. rewrite Ht, Hn.
  eexists. split; [reflexivity | ]. cbn.
  repeat split. exists iv, d, fi, fo. split; reflexivity.
Qed.

Lemma schedule_all_spec (voices : list nat) (w : World) :
  let w' := fold_left (fun w i => scheduleSporadicPulse i w) voices w in
  exists fresh : list Timer,
    timers (host w') = timers (host w) ++ fresh
    /\ map timerId fresh = seq (nextTimerId (host w)) (List.length voices)
    /\ Forall2 isPulseDue voices fresh
    /\ sporadicTimers (this w') = sporadicTimers (this w) ++ map timerId fresh
    /\ mode (this w') = mode (this w)
    /\ isRunning (this w') = isRunning (this w).
Proof.
  cbv zeta. revert w. induction voices as [ | i voices IH]; intros w.
  - exists []. cbn. rewrite !app_nil_r. repeat split. constructor.
  - cbn [fold_left].
    destruct (scheduleSporadicPulse_spec i w)
      as [t [Ht [Hid [Hp [Hn [Hs [Hm Hr]]]]]]].
    cbv zeta in *.
    destruct (IH (scheduleSporadicPulse i w))
      as [fresh [Ht' [Hid' [Hp' [Hs' [Hm' Hr']]]]]].
    exists (t :: fresh).
    rewrite Ht', Ht, Hs', Hs, Hm', Hm, Hr', Hr, <- !app_assoc. cbn.
    rewrite Hid', Hn, Hid.
    repeat split. constructor; assumption.
Qed.

Lemma filter_recorded_cons (id : nat) (ids : list nat) (l : list Timer) :
  filter (fun t => negb (recorded ids t))
    (filter (fun t => negb (Nat.eqb (timerId t) id)) l)
  = filter (fun t => negb (recorded (id :: ids) t)) l.
Proof.
  induction l as [ | t l IH]; [reflexivity | ].
  unfold recorded in *. cbn [filter existsb].
  destruct (Nat.eqb (timerId t) id); cbn [negb orb].
  - exact IH.
  - cbn [filter]. rewrite IH. reflexivity.
Qed.

Lemma clear_all_spec (ids : list nat) (h : Host) :
  let h' := fold_left (fun h timer => clearTimeout timer h) ids h in
  timers h' = filter (fun t => negb (recorded ids t)) (timers h)
  /\ nextTimerId h' = nextTimerId h.
Proof.
  cbv zeta. revert h. induction ids as [ | id ids IH]; intros h.
  - cbn. split; [ | reflexivity].
    induction (timers h) as [ | t l IHl]; cbn; congruence.
  - cbn [fold_left]. destruct (IH (clearTimeout id h)) as [Ht Hn].
    rewrite Ht, Hn. unfold clearTimeout. cbn [timers nextTimerId set_timers].
    split; [apply filter_recorded_cons | reflexivity].
Qed.

(** C4, as the code has it.  [setWaveform] leaves the host, and so every
    pending timer, as it is, and the list of recorded timers too.  [setMode]
    clears the timers recorded in [sporadicTimers], then arms eight fresh
    interval timers, one per voice 0 to 7 in that order, with new ids, and
    records exactly those. *)
Theorem setMode_setWaveform_schedule (m wf : string) (w : World) :
  (host (setWaveform wf w) = host w
   /\ sporadicTimers (this (setWaveform wf w)) = sporadicTimers (this w)
   /\ mode (this (setWaveform wf w)) = mode (this w))
  /\ exists fresh : list Timer,
       timers (host (setMode m w))
       = filter (fun t => negb (recorded (sporadicTimers (this w)) t))
           (timers (host w)) ++ fresh
       /\ map timerId fresh = seq (nextTimerId (host w)) 8
       /\ Forall2 isPulseDue (seq 0 8) fresh
       /\ sporadicTimers (this (setMode m w)) = map timerId fresh
       /\ mode (this (setMode m w)) = m.
Proof.
  split; [repeat split | ].
  unfold setMode.
  set (w1 := clearSporadicTimers (setWaveform (waveform (this (on_this (set_mode m) w)))
                                    (on_this (set_mode m) w))).
  destruct (schedule_all_spec (seq 0 8) w1)
    as [fresh [Ht [Hid [Hp [Hs [Hm _]]]]]].
  cbv zeta in *.
  destruct (clear_all_spec (sporadicTimers (this w)) (host w)) as [Hc Hn].
  cbv zeta in *.
  exists fresh. rewrite Ht, Hs, Hm.
  subst w1. unfold clearSporadicTimers. cbn.
  cbn in Hid. rewrite Hn in Hid. rewrite Hc.
  repeat split; assumption.
Qed.

(** On the started engine [setWaveform] cancels nothing and restarts
    nothing: the eight interval timers armed by [start] (ids 2 to 9) are all
    still pending, and they are the only chains. *)
Lemma setWaveform_keeps_schedule :
  isRunning (this running) = true
  /\ sporadicTimers (this running) = seq 2 8
  /\ timers (host (setWaveform "square" running)) = timers (host running)
  /\ forallb (fun id => pending id (host (setWaveform "square" running)))
       (seq 2 8) = true
  /\ nextTimerId (host (setWaveform "square" running))
     = nextTimerId (host running).
Proof.
  evaluate.
Qed.

(** C3 on a started engine whose voice 0 is being held.  The hold timer
    (id 10) is not in [sporadicTimers], so the three mode switches leave it
    pending next to the fresh interval timer of voice 0: nine chains.  When
    it fires it re-arms voice 0, which then runs two interval chains. *)
Theorem setMode_round_trip_duplicates_chain :
  let w := voice0Held |> setMode "drone" |> setMode "pulse" |> setMode "drone" in
  isRunning (this voice0Held) = true
  /\ liveChains voice0Held = [1; 1; 1; 1; 1; 1; 1; 1]%nat
  /\ chainsOf 0 voice0Held = [HoldEnd 0 4]
  /\ pending 10 (host voice0Held) = true
  /\ pending 10 (host w) = true
  /\ liveChains w = [2; 1; 1; 1; 1; 1; 1; 1]%nat
  /\ chainsOf 0 w = [HoldEnd 0 4; PulseDue 0 16000 8000 2 4]
  /\ chainsOf 0 (fire 10 w)
     = [PulseDue 0 16000 8000 2 4; PulseDue 0 16000 8000 2 4]
  /\ liveChains (fire 10 w) = [2; 1; 1; 1; 1; 1; 1; 1]%nat.
Proof.
  evaluate.
Qed.

(** ** What a frequency update touches *)

Lemma sameButOscillators_refl (w : World) : sameButOscillators w w.
Proof.
  split; [reflexivity | ].
  exists (oscillators (this w)). destruct w as [[] h]. reflexivity.
Qed.

Lemma sameButOscillators_trans (w1 w2 w3 : World) :
  sameButOscillators w1 w2 -> sameButOscillators w2 w3 ->
  sameButOscillators w1 w3.
Proof.
  intros [Hh [l Hl]] [Hh' [l' Hl']]. split; [congruence | ].
  exists l'. rewrite Hl', Hl. reflexivity.
Qed.

Lemma setOscillatorFrequency_same (i : nat) (f : float) (w : World) :
  sameButOscillators w (setOscillatorFrequency i f w).
Proof.
  unfold setOscillatorFrequency.
  destruct (nth_error (oscillators (this w)) i).
  - split; [reflexivity | ]. eexists. reflexivity.
  - apply sameButOscillators_refl.
Qed.

Lemma setOscillatorFrequency_other (i j : nat) (f : float) (w : World) :
  i <> j ->
  nth_error (oscillators (this (setOscillatorFrequency i f w))) j
  = nth_error (oscillators (this w)) j.
Proof.
  intros Hij. unfold setOscillatorFrequency.
  destruct (nth_error (oscillators (this w)) i); [ | reflexivity].
  cbn. apply nth_error_update_nth_other, Hij.
Qed.

Lemma setHarmonic_same (tones : list JS.value) (sub : bool) (fund : float)
    (w : World) (turn : nat * nat) :
  sameButOscillators w (setHarmonic tones sub fund w turn).
Proof.
  destruct turn as [oscIdx i]. unfold setHarmonic.
  apply setOscillatorFrequency_same.
Qed.

Lemma setHarmonic_other (tones : list JS.value) (sub : bool) (fund : float)
    (w : World) (turn : nat * nat) (j : nat) :
  fst turn <> j ->
  nth_error (oscillators (this (setHarmonic tones sub fund w turn))) j
  = nth_error (oscillators (this w)) j.
Proof.
  destruct turn as [oscIdx i]. intros Hj. unfold setHarmonic.
  apply setOscillatorFrequency_other, Hj.
Qed.

Lemma harmonics_same (tones : list JS.value) (sub : bool) (fund : float)
    (turns : list (nat * nat)) (w : World) :
  sameButOscillators w (fold_left (setHarmonic tones sub fund) turns w).
Proof.
  revert w. induction turns as [ | turn turns IH]; intros w; cbn.
  - apply sameButOscillators_refl.
  - eapply sameButOscillators_trans; [apply setHarmonic_same | apply IH].
Qed.

Lemma harmonics_other (tones : list JS.value) (sub : bool) (fund : float)
    (turns : list (nat * nat)) (w : World) (j : nat) :
  Forall (fun turn => fst turn <> j) turns ->
  nth_error
    (oscillators (this (fold_left (setHarmonic tones sub fund) turns w))) j
  = nth_error (oscillators (this w)) j.
Proof.
  revert w. induction turns as [ | turn turns IH]; intros w H; cbn.
  - reflexivity.
  - inversion H; subst. rewrite IH by assumption.
    apply setHarmonic_other. assumption.
Qed.

Section Update.
Variable M : MathLib.
Lemma tuneHarmonics_spec (w : World) :
  exists (fund drift sun lpf hpf : float) (l : list Oscillator),
    this (tuneHarmonics M w)
    = (this w |> set_fundamentalFreq fund |> set_sunElevation sun
              |> set_lowPassFilter lpf |> set_highPassFilter hpf
              |> set_oscillators l |> set_lastHeading (heading (this w)))
    /\ host (tuneHarmonics M w)
       = set_drawn (N.succ (N.succ (drawn (host w)))) (host w)
    /\ (is_nan (JS.toNumber (temperature (this w))) = true -> fund = nan)
    /\ forall osc, nth_error (oscillators (this w)) 0 = Some osc ->
         nth_error l 0
         = Some (mkOsc (wave osc)
                   (frequency osc
                      |> cancelScheduledValues (currentTime (host w))
                      |> setValueAtTime (value (frequency osc))
                           (currentTime (host w))
                      |> exponentialRampToValueAtTime
                           (JS.Math_max 20 (JS.Math_min 20000 (fund + drift)))
                           (currentTime (host w) + 2))).
Proof.
  unfold tuneHarmonics, random. cbv beta iota zeta.
  match goal with
  | |- context [set_fundamentalFreq ?fund (this w)] => set (FUND := fund)
  end.
  match goal with
  | |- context [set_sunElevation ?sun (set_fundamentalFreq FUND (this w))] =>
      set (SUN := sun)
  end.
  match goal with
  | |- context [set_lowPassFilter ?lpf (set_sunElevation SUN _)] =>
      set (LPF := lpf)
  end.
  match goal with
  | |- context [set_highPassFilter ?hpf (set_lowPassFilter LPF _)] =>
      set (HPF := hpf)
  end.
  set (E5 := set_highPassFilter HPF _).
  match goal with
  | |- context [setOscillatorFrequency 0 (_ + ?dr) (mkWorld E5 ?h)] =>
      set (DR := dr); set (H2 := h)
  end.
  set (W0 := mkWorld E5 H2). set (FD := fundamentalFreq E5 + DR).
  set (turns := combine harmonicIndices _).
  destruct (harmonics_same (getScaleTones M E5) (200 <? fundamentalFreq E5)
              FD turns (setOscillatorFrequency 0 FD W0)) as [Hh [l Hl]].
  assert (Hz := harmonics_other (getScaleTones M E5)
                  (200 <? fundamentalFreq E5) FD turns
                  (setOscillatorFrequency 0 FD W0) 0).
  destruct (setOscillatorFrequency_same 0 FD W0) as [Hh0 [l0 Hl0]].
  exists FUND, DR, SUN, LPF, HPF, l.
  split; [ | split; [ | split]].
  - cbn [this on_this]. rewrite Hl, Hl0. reflexivity.
  - cbn [host on_this]. rewrite Hh, Hh0. reflexivity.
  - intros Hnan. apply FloatFacts.is_nan_eq in Hnan. subst FUND.
    rewrite Hnan.
    replace (100 + (nan + 20) / 60 * 700) with nan by reflexivity.
    rewrite !FloatFacts.mul_nan_l.
    destruct (String.eqb (mode (this w)) "pulse");
      [ | destruct (String.eqb (mode (this w)) "click")]; reflexivity.
  - intros osc Hosc.
    rewrite Hl in Hz. cbn [oscillators set_oscillators] in Hz.
    rewrite Hz.
    + unfold setOscillatorFrequency.
      change (oscillators (this W0)) with (oscillators (this w)).
      rewrite Hosc. cbn [this on_this oscillators set_oscillators].
      change (oscillators E5) with (oscillators (this w)).
      rewrite nth_error_update_nth.
      change (oscillators (this W0)) with (oscillators (this w)).
      rewrite Hosc. reflexivity.
    + subst turns. cbn.
      repeat (apply Forall_cons; [cbn; discriminate | ]). apply Forall_nil.
Qed.

Lemma setOscillatorFrequency_spec (i : nat) (f : float) (w : World) :
  exists l : list Oscillator,
    this (setOscillatorFrequency i f w) = set_oscillators l (this w)
    /\ host (setOscillatorFrequency i f w) = host w
    /\ forall j, i <> j -> nth_error l j = nth_error (oscillators (this w)) j.
Proof.
  destruct (setOscillatorFrequency_same i f w) as [Hh [l Hl]].
  exists l. split; [exact Hl | split; [exact Hh | ]].
  intros j Hij. rewrite <- (setOscillatorFrequency_other i j f w Hij), Hl.
  reflexivity.
Qed.

Lemma set_gainNodes_same (e : Engine) : set_gainNodes (gainNodes e) e = e.
Proof. destruct e. reflexivity. Qed.

Lemma hostKeeps_refl (h : Host) : hostKeeps h h.
Proof. repeat split. Qed.

Lemma hostKeeps_trans (h1 h2 h3 : Host) :
  hostKeeps h1 h2 -> hostKeeps h2 h3 -> hostKeeps h1 h3.
Proof.
  unfold hostKeeps. intros H12 H23.
  decompose [and] H12. decompose [and] H23. repeat split; congruence.
Qed.

Lemma mixAndPan_spec (w : World) :
  exists (dry wet : float) (pans : list float),
    this (mixAndPan M w)
    = (this w |> set_dryGain dry |> set_wetGain wet |> set_panners pans)
    /\ host (mixAndPan M w) = host w
    /\ List.length pans = List.length (panners (this w)).
Proof.
  unfold mixAndPan. cbv beta iota zeta.
  do 3 eexists. split; [reflexivity | split; [reflexivity | ]].
  rewrite length_map, length_seq. reflexivity.
Qed.

(** The fourth block: with rain, one draw, and every gain goes through
    [rainTremolo]; without, nothing. *)
Lemma rainfallTremolo_spec (w : World) :
  exists (rate depth : float),
    this (rainfallTremolo M w)
    = set_gainNodes
        (if 0 <? JS.toNumber (rainfall (this w))
         then map (rainTremolo M rate depth (currentTime (host w)))
                (gainNodes (this w))
         else gainNodes (this w))
        (this w)
    /\ hostKeeps (host w) (host (rainfallTremolo M w)).
Proof.
  unfold rainfallTremolo, random. cbv beta iota zeta.
  destruct (0 <? JS.toNumber (rainfall (this w))).
  - do 2 eexists. split; [reflexivity | repeat split].
  - exists 0, 0. rewrite set_gainNodes_same.
    split; [reflexivity | apply hostKeeps_refl].
Qed.

Lemma reportFrequencies_spec (w : World) :
  this (reportFrequencies w) = this w
  /\ hostKeeps (host w) (host (reportFrequencies w)).
Proof.
  unfold reportFrequencies.
  destruct (onFrequencyUpdate (this w)); split;
    try reflexivity; repeat split.
Qed.

(** A frequency update on a running engine, as a whole: what it writes,
    and what it leaves alone. *)
Lemma updateFrequencies_running (w : World) :
  isRunning (this w) = true ->
  exists (fund drift sun lpf hpf : float) (l : list Oscillator)
         (dry wet : float) (pans : list float) (rate depth : float),
    this (updateFrequencies M w)
    = (this w |> set_fundamentalFreq fund |> set_sunElevation sun
              |> set_lowPassFilter lpf |> set_highPassFilter hpf
              |> set_oscillators l |> set_lastHeading (heading (this w))
              |> set_dryGain dry |> set_wetGain wet |> set_panners pans
              |> set_gainNodes
                   (if 0 <? JS.toNumber (rainfall (this w))
                    then map (rainTremolo M rate depth (currentTime (host w)))
                           (gainNodes (this w))
                    else gainNodes (this w)))
    /\ hostKeeps (host w) (host (updateFrequencies M w))
    /\ (is_nan (JS.toNumber (temperature (this w))) = true -> fund = nan)
    /\ forall osc, nth_error (oscillators (this w)) 0 = Some osc ->
         nth_error l 0
         = Some (mkOsc (wave osc)
                   (frequency osc
                      |> cancelScheduledValues (currentTime (host w))
                      |> setValueAtTime (value (frequency osc))
                           (currentTime (host w))
                      |> exponentialRampToValueAtTime
                           (JS.Math_max 20 (JS.Math_min 20000 (fund + drift)))
                           (currentTime (host w) + 2))).
Proof.
  intros Hrun. unfold updateFrequencies. rewrite Hrun. cbn [negb].
  destruct (tuneHarmonics_spec w)
    as (fund & drift & sun & lpf & hpf & l1 & Ht1 & Hh1 & Hnan & Hosc).
  set (w1 := tuneHarmonics M w) in *.
  unfold tuneSpeedVoice.
  match goal with
  | |- context [setOscillatorFrequency 3 ?f w1] =>
      destruct (setOscillatorFrequency_spec 3 f w1) as (l2 & Ht2 & Hh2 & Hl2);
      set (w2 := setOscillatorFrequency 3 f w1) in *
  end.
  destruct (mixAndPan_spec w2) as (dry & wet & pans & Ht3 & Hh3 & _).
  set (w3 := mixAndPan M w2) in *.
  destruct (rainfallTremolo_spec w3) as (rate & depth & Ht4 & Hk4).
  set (w4 := rainfallTremolo M w3) in *.
  destruct (reportFrequencies_spec w4) as (Ht5 & Hk5).
  exists fund, drift, sun, lpf, hpf, l2, dry, wet, pans, rate, depth.
  split; [ | split; [ | split]].
  - rewrite Ht5, Ht4, Hh3, Hh2, Hh1, Ht3, Ht2, Ht1. reflexivity.
  - eapply hostKeeps_trans; [ | exact Hk5].
    eapply hostKeeps_trans; [ | exact Hk4].
    rewrite Hh3, Hh2, Hh1. repeat split.
  - exact Hnan.
  - intros osc H0. rewrite Hl2 by discriminate.
    rewrite Ht1. cbn [oscillators set_oscillators set_lastHeading].
    apply Hosc, H0.
Qed.

Lemma updateFrequencies_stopped (w : World) :
  isRunning (this w) = false -> updateFrequencies M w = w.
Proof.
  intros H. unfold updateFrequencies. rewrite H. reflexivity.
Qed.

Lemma lastEvent_schedule (ev : AutomationEvent) (p : AudioParam) :
  lastEvent (schedule ev p) = Some ev.
Proof.
  unfold lastEvent, schedule. cbn [events]. rewrite map_app. cbn [map].
  apply last_last.
Qed.

Lemma tremoloRamps_shape (fuel : nat) (t cg rate depth now : float)
    (p : AudioParam) :
  exists ramps : list AutomationEvent,
    tremoloRamps M fuel t cg rate depth now p
    = mkParam (value p) (events p ++ ramps)
    /\ forallb isLinearRamp ramps = true.
Proof.
  revert t p. induction fuel as [ | fuel IH]; intros t p.
  - exists []. rewrite app_nil_r. destruct p. split; reflexivity.
  - cbn [tremoloRamps]. destruct (t <? 2).
    + match goal with
      | |- context [tremoloRamps M fuel ?t' _ _ _ _ ?p'] =>
          destruct (IH t' p') as [ramps [Hr Hl]]
      end.
      eexists. rewrite Hr. unfold linearRampToValueAtTime, schedule.
      cbn [value events]. rewrite <- app_assoc. split; [reflexivity | ].
      cbn. exact Hl.
    + exists []. rewrite app_nil_r. destruct p. split; reflexivity.
Qed.

(** One gain under the rain: its value is not written; a gain at 0 (or
    below) is left as it is; a gain above 0 loses what was scheduled from now
    on and gets the tremolo's linear ramps instead. *)
Lemma rainTremolo_spec (rate depth now : float) (gain : AudioParam) :
  value (rainTremolo M rate depth now gain) = value gain
  /\ if 0 <? value gain
     then exists ramps : list AutomationEvent,
            events (rainTremolo M rate depth now gain)
            = events (cancelScheduledValues now gain)
                ++ SetValueAtTime (value gain) now :: ramps
            /\ forallb isLinearRamp ramps = true
     else rainTremolo M rate depth now gain = gain.
Proof.
  unfold rainTremolo. destruct (0 <? value gain); [ | split; reflexivity].
  match goal with
  | |- context [tremoloRamps M ?f ?t ?cg ?r ?d ?n ?p] =>
      destruct (tremoloRamps_shape f t cg r d n p) as [ramps [Hr Hl]]
  end.
  rewrite Hr. cbn [value events setValueAtTime schedule cancelScheduledValues].
  split; [reflexivity | ].
  exists ramps. rewrite <- app_assoc. split; [reflexivity | exact Hl].
Qed.

(** C5, as the code has it.  A [setEnvironmentalData] call never writes a
    gain's value and never adds or removes a voice.  With no rain (rainfall
    not above 0, the default when it is left out), or on a stopped engine,
    every gain keeps its schedule.  With rain on a running engine, a voice
    whose gain is 0 is left alone, and a voice whose gain is above 0 has
    everything scheduled from now on cancelled and replaced by the tremolo:
    the current value set at [now], then linear ramps. *)
Theorem setEnvironmentalData_gains
    (lat lon speed_ temp humidity_ heading_ timeOfDay_ : JS.value)
    (populationDensity_ trafficDensity_ elevation_ rainfall_ : JS.value)
    (w : World) :
  let w' := setEnvironmentalData M lat lon speed_ temp humidity_ heading_
              timeOfDay_ populationDensity_ trafficDensity_ elevation_
              rainfall_ w in
  let rain := JS.toNumber (JS.param_default 0 rainfall_) in
  let now := currentTime (host w) in
  List.length (gainNodes (this w')) = List.length (gainNodes (this w))
  /\ forall (i : nat) (gain : AudioParam),
       nth_error (gainNodes (this w)) i = Some gain ->
       exists gain' : AudioParam,
         nth_error (gainNodes (this w')) i = Some gain'
         /\ value gain' = value gain
         /\ if isRunning (this w) && (0 <? rain) && (0 <? value gain)
            then exists ramps : list AutomationEvent,
                   events gain'
                   = events (cancelScheduledValues now gain)
                       ++ SetValueAtTime (value gain) now :: ramps
                   /\ forallb isLinearRamp ramps = true
            else gain' = gain.
Proof.
  cbv zeta. unfold setEnvironmentalData. cbv zeta.
  match goal with
  | |- context [updateFrequencies M (on_this ?st w)] => set (store := st)
  end.
  destruct (isRunning (this w)) eqn:Hrun.
  - destruct (updateFrequencies_running (on_this store w))
      as (fund & drift & sun & lpf & hpf & l & dry & wet & pans & rate
          & depth & Hthis & _); [exact Hrun | ].
    rewrite Hthis. clear Hthis.
    cbn [gainNodes set_gainNodes this on_this host].
    change (rainfall (store (this w))) with (JS.param_default 0 rainfall_).
    change (gainNodes (store (this w))) with (gainNodes (this w)).
    destruct (0 <? JS.toNumber (JS.param_default 0 rainfall_)).
    + split; [apply length_map | ].
      intros i gain Hi. eexists. rewrite nth_error_map, Hi. cbn [option_map].
      split; [reflexivity | ].
      destruct (rainTremolo_spec rate depth (currentTime (host w)) gain)
        as [Hv Hev].
      split; [exact Hv | ]. cbn [andb].
      destruct (0 <? value gain); exact Hev.
    + split; [reflexivity | ].
      intros i gain Hi. exists gain. repeat split; assumption.
  - rewrite updateFrequencies_stopped by exact Hrun.
    cbn [this on_this]. change (gainNodes (store (this w))) with (gainNodes (this w)).
    split; [reflexivity | ].
    intros i gain Hi. exists gain. repeat split; assumption.
Qed.

(** C2, as the code has it.  [setEnvironmentalData] stores every field as
    it is given; only the four trailing parameters have defaults, which
    replace [undefined] and nothing else.  A temperature that is [NaN] or
    [undefined] is stored like any other and, on a running engine, makes the
    fundamental [NaN] and [NaN] the frequency scheduled on voice 0. *)
Theorem setEnvironmentalData_stores_as_given
    (lat lon speed_ temp humidity_ heading_ timeOfDay_ : JS.value)
    (populationDensity_ trafficDensity_ elevation_ rainfall_ : JS.value)
    (w : World) :
  let w' := setEnvironmentalData M lat lon speed_ temp humidity_ heading_
              timeOfDay_ populationDensity_ trafficDensity_ elevation_
              rainfall_ w in
  (latitude (this w') = lat /\ longitude (this w') = lon
   /\ speed (this w') = speed_ /\ temperature (this w') = temp
   /\ humidity (this w') = humidity_ /\ heading (this w') = heading_
   /\ timeOfDay (this w') = timeOfDay_
   /\ populationDensity (this w') = JS.param_default 0.5 populationDensity_
   /\ trafficDensity (this w') = JS.param_default 0 trafficDensity_
   /\ elevation (this w') = JS.param_default 0 elevation_
   /\ rainfall (this w') = JS.param_default 0 rainfall_)
  /\ (isRunning (this w) = true ->
      is_nan (JS.toNumber temp) = true ->
      fundamentalFreq (this w') = nan
      /\ forall osc, nth_error (oscillators (this w)) 0 = Some osc ->
           exists p : AudioParam,
             nth_error (oscillators (this w')) 0 = Some (mkOsc (wave osc) p)
             /\ lastEvent p
                = Some (ExponentialRampToValueAtTime nan
                          (currentTime (host w) + 2))).
Proof.
  cbv zeta. unfold setEnvironmentalData. cbv zeta.
  match goal with
  | |- context [updateFrequencies M (on_this ?st w)] => set (store := st)
  end.
  destruct (isRunning (this w)) eqn:Hrun.
  - destruct (updateFrequencies_running (on_this store w))
      as (fund & drift & sun & lpf & hpf & l & dry & wet & pans & rate
          & depth & Hthis & _ & Hnan & Hosc); [exact Hrun | ].
    rewrite Hthis. clear Hthis.
    split; [conjuncts; reflexivity | ].
    intros _ Htemp.
    rewrite (Hnan Htemp) in *.
    split; [reflexivity | ].
    intros osc H0. eexists.
    cbn [oscillators set_oscillators set_gainNodes set_panners set_wetGain
         set_dryGain set_lastHeading].
    split; [apply Hosc; exact H0 | ].
    unfold exponentialRampToValueAtTime. rewrite lastEvent_schedule.
    rewrite FloatFacts.add_nan_l. reflexivity.
  - rewrite updateFrequencies_stopped by exact Hrun.
    split; [conjuncts; reflexivity | ].
    intros Habs. discriminate Habs.
Qed.
End Update.

(** An undefined temperature on the engine whose voice 0 is held: stored
    as [undefined], and the fundamental is [NaN]. *)
Lemma setEnvironmentalData_stores_as_given_witness :
  let w' := snapshot JS.Undefined JS.Undefined JS.Undefined voice0Held in
  isRunning (this voice0Held) = true
  /\ is_nan (JS.toNumber JS.Undefined) = true
  /\ temperature (this w') = JS.Undefined
  /\ populationDensity (this w') = JS.Number 0.5
  /\ fundamentalFreq (this w') = nan.
Proof.
  cbv zeta.
  destruct (setEnvironmentalData_stores_as_given seriesMath
              (JS.Number 40) (JS.Number (-74)) (JS.Number 0) JS.Undefined
              (JS.Number 50) (JS.Number 0) (JS.Number 0.5)
              JS.Undefined JS.Undefined JS.Undefined JS.Undefined voice0Held)
    as [Hfields Hnan].
  cbv zeta in Hfields, Hnan.
  assert (Hrun : isRunning (this voice0Held) = true) by (vm_compute; reflexivity).
  destruct (Hnan Hrun eq_refl) as [Hfund _].
  destruct Hfields as (_ & _ & _ & Htemp & _ & _ & _ & Hdens & _).
  split; [exact Hrun | ].
  split; [reflexivity | ].
  split; [exact Htemp | ].
  split; [exact Hdens | exact Hfund].
Defined.

(** A [NaN] temperature pushed to the started engine: it is stored, not
    replaced by 20; the fundamental is [NaN], and [NaN] is the frequency
    scheduled on voice 0.  The population density, left out, does get its
    default. *)
Lemma NaN_temperature_reaches_voice_0 :
  let w' := snapshot (JS.Number nan) JS.Undefined JS.Undefined running in
  isRunning (this running) = true
  /\ temperature (this w') = JS.Number nan
  /\ populationDensity (this w') = JS.Number 0.5
  /\ fundamentalFreq (this w') = nan
  /\ option_map (fun osc => lastEvent (frequency osc))
       (nth_error (oscillators (this w')) 0)
     = Some (Some (ExponentialRampToValueAtTime nan 2)).
Proof.
  evaluate.
Qed.

(** Rain on the engine whose voice 0 is half a second into its fade-in:
    the scheduler's ramp to the target volume is cancelled and the tremolo
    takes its place. *)
Lemma setEnvironmentalData_gains_witness :
  let gain := mkParam 0.01 [SetValueAtTime 0 16;
                            LinearRampToValueAtTime 0.11499999999999999 20] in
  let w' := snapshot (JS.Number 20) JS.Undefined (JS.Number 5) voice0FadingIn in
  nth_error (gainNodes (this voice0FadingIn)) 0 = Some gain
  /\ exists gain' : AudioParam,
       nth_error (gainNodes (this w')) 0 = Some gain'
       /\ value gain' = 0.01
       /\ exists ramps : list AutomationEvent,
            events gain'
            = SetValueAtTime 0 16 :: SetValueAtTime 0.01 16.5 :: ramps
            /\ forallb isLinearRamp ramps = true.
Proof.
  cbv zeta.
  assert (Hgain : nth_error (gainNodes (this voice0FadingIn)) 0
                  = Some (mkParam 0.01
                            [SetValueAtTime 0 16;
                             LinearRampToValueAtTime 0.11499999999999999 20]))
    by (vm_compute; reflexivity).
  split; [exact Hgain | ].
  destruct (setEnvironmentalData_gains seriesMath
              (JS.Number 40) (JS.Number (-74)) (JS.Number 0) (JS.Number 20)
              (JS.Number 50) (JS.Number 0) (JS.Number 0.5)
              JS.Undefined JS.Undefined JS.Undefined (JS.Number 5)
              voice0FadingIn) as [_ Hall].
  cbv zeta in Hall.
  destruct (Hall 0%nat _ Hgain) as (gain' & Hnth & Hval & Hev).
  exists gain'. split; [exact Hnth | ]. split; [exact Hval | ].
  replace (isRunning (this voice0FadingIn)) with true in Hev
    by (vm_compute; reflexivity).
  replace (currentTime (host voice0FadingIn)) with 16.5 in Hev
    by (vm_compute; reflexivity).
  cbn in Hev. exact Hev.
Defined.

(** The same call, evaluated: before it the gain of voice 0 holds the
    fade-in's ramp ending at 20 s; after it nothing is scheduled at 20 s any
    more, and 40 tremolo ramps follow the value set at 16.5 s. *)
Lemma rain_cancels_fade_in :
  let w' := snapshot (JS.Number 20) JS.Undefined (JS.Number 5) voice0FadingIn in
  isRunning (this voice0FadingIn) = true
  /\ currentTime (host voice0FadingIn) = 16.5
  /\ option_map events (nth_error (gainNodes (this voice0FadingIn)) 0)
     = Some [SetValueAtTime 0 16;
             LinearRampToValueAtTime 0.11499999999999999 20]
  /\ option_map (fun g => firstn 2 (events g))
       (nth_error (gainNodes (this w')) 0)
     = Some [SetValueAtTime 0 16; SetValueAtTime 0.01 16.5]
  /\ option_map (fun g => existsb (fun ev => eventTime ev =? 20) (events g))
       (nth_error (gainNodes (this w')) 0)
     = Some false
  /\ option_map (fun g => List.length (events g))
       (nth_error (gainNodes (this w')) 0)
     = Some 42%nat.
Proof.
  evaluate.
Qed.

(** ** Stopping *)

Lemma pending_filter_recorded (ids : list nat) (l : list Timer) (id : nat) :
  In id ids ->
  existsb (fun t => Nat.eqb (timerId t) id)
    (filter (fun t => negb (recorded ids t)) l) = false.
Proof.
  intros Hin. induction l as [ | t l IH]; [reflexivity | ].
  cbn [filter]. destruct (recorded ids t) eqn:Hr; cbn [negb]; [exact IH | ].
  cbn [existsb]. rewrite IH, orb_false_r.
  destruct (Nat.eqb (timerId t) id) eqn:He; [ | reflexivity].
  apply Nat.eqb_eq in He. subst id.
  unfold recorded in Hr.
  assert (Hex : existsb (Nat.eqb (timerId t)) ids = true).
  { apply existsb_exists. exists (timerId t). split; [exact Hin | ].
    apply Nat.eqb_refl. }
  congruence.
Qed.

Lemma isRunning_stop (w : World) : isRunning (this (stop w)) = false.
Proof.
  unfold stop. destruct (isRunning (this w)) eqn:Hrun; cbn [negb].
  - reflexivity.
  - exact Hrun.
Qed.

(** X6.  [stop] twice is [stop] once, and the engine is stopped after it
    whatever it was before. *)
Theorem stop_idempotent (w : World) :
  stop (stop w) = stop w /\ isRunning (this (stop w)) = false.
Proof.
  split; [ | apply isRunning_stop].
  unfold stop at 1. rewrite isRunning_stop. reflexivity.
Qed.

(** [stop] on a running engine releases the eight voices, forgets the
    recorded timers and leaves none of them pending; the timers it does not
    know of stay in the host's queue. *)
Lemma stop_running (w : World) :
  isRunning (this w) = true ->
  voices 0 (this (stop w))
  /\ sporadicTimers (this (stop w)) = []
  /\ timers (host (stop w))
     = filter (fun t => negb (recorded (sporadicTimers (this w)) t))
         (timers (host w))
  /\ forall id, In id (sporadicTimers (this w)) ->
       pending id (host (stop w)) = false.
Proof.
  intros Hrun. unfold stop. rewrite Hrun. cbn [negb].
  unfold clearSporadicTimers.
  destruct (clear_all_spec (sporadicTimers (this w)) (host w)) as [Ht _].
  cbv zeta in Ht. cbn [this host on_this].
  split; [repeat split | ].
  split; [reflexivity | ].
  split; [exact Ht | ].
  intros id Hin. unfold pending. rewrite Ht.
  apply pending_filter_recorded, Hin.
Qed.


(** Every closure handed to [setTimeout] tests the running flag first: on a
    stopped engine it changes nothing, in the engine or in the host. *)
Lemma runCallback_stopped (cb : Callback) (w : World) :
  isRunning (this w) = false -> runCallback cb w = w.
Proof.
  intros H. destruct cb; cbn [runCallback]; unfold pulseDue; rewrite ?H;
    reflexivity.
Qed.


Lemma filter_no_match (id : nat) (l : list Timer) :
  find (fun t => Nat.eqb (timerId t) id) l = None ->
  filter (fun t => negb (Nat.eqb (timerId t) id)) l = l.
Proof.
  induction l as [ | t l IH]; [reflexivity | ].
  cbn. destruct (Nat.eqb (timerId t) id); [discriminate | ].
  intros H. cbn. rewrite IH by exact H. reflexivity.
Qed.

(** X8.  After [stop], whichever timer the host still fires, left over or
    stale, the engine object is not touched and no new timer is armed: the
    queue only loses the timer fired. *)
Theorem fire_after_stop (id : nat) (w : World) :
  this (fire id (stop w)) = this (stop w)
  /\ timers (host (fire id (stop w)))
     = filter (fun t => negb (Nat.eqb (timerId t) id)) (timers (host (stop w))).
Proof.
  assert (Hstopped := isRunning_stop w).
  set (w' := stop w) in *. unfold fire.
  destruct (find (fun t => Nat.eqb (timerId t) id) (timers (host w'))) eqn:Hf.
  - rewrite runCallback_stopped by exact Hstopped.
    split; reflexivity.
  - split; [reflexivity | ]. symmetry. apply filter_no_match, Hf.
Qed.

(** ** The number of voices *)

Lemma setOscillatorFrequency_length (i : nat) (f : float) (w : World) :
  List.length (oscillators (this (setOscillatorFrequency i f w)))
  = List.length (oscillators (this w)).
Proof.
  unfold setOscillatorFrequency.
  destruct (nth_error (oscillators (this w)) i); [ | reflexivity].
  cbn. apply length_update_nth.
Qed.

Lemma harmonics_length (tones : list JS.value) (sub : bool) (fund : float)
    (turns : list (nat * nat)) (w : World) :
  List.length
    (oscillators (this (fold_left (setHarmonic tones sub fund) turns w)))
  = List.length (oscillators (this w)).
Proof.
  revert w. induction turns as [ | [oscIdx i] turns IH]; intros w; cbn.
  - reflexivity.
  - rewrite IH. unfold setHarmonic. apply setOscillatorFrequency_length.
Qed.

Section Voices.

Variable M : MathLib.

Lemma oscillators_after_lastHeading (w : World) :
  oscillators (this (on_this (fun e => set_lastHeading (heading e) e) w))
  = oscillators (this w).
Proof. reflexivity. Qed.

Lemma tuneHarmonics_voices (n : nat) (w : World) :
  voices n (this w) -> voices n (this (tuneHarmonics M w)).
Proof.
  intros (Ho & Hg & Hp).
  destruct (tuneHarmonics_spec M w)
    as (fund & drift & sun & lpf & hpf & l & Ht & _).
  split; [ | rewrite Ht; split; assumption].
  unfold tuneHarmonics, random. cbv beta iota zeta.
  match goal with
  | |- context [setOscillatorFrequency 0 ?fd (mkWorld ?e ?h)] =>
      assert (He : oscillators e = oscillators (this w)) by reflexivity;
      set (FD := fd) in *; set (E5 := e) in *; set (H2 := h) in *
  end.
  match goal with
  | |- context [fold_left (setHarmonic ?t ?s FD) ?turns ?w0] =>
      set (T := t); set (S := s); set (W1 := fold_left _ turns w0)
  end.
  rewrite oscillators_after_lastHeading. subst W1.
  rewrite harmonics_length, setOscillatorFrequency_length.
  cbn [this]. rewrite He. exact Ho.
Qed.

Lemma tuneSpeedVoice_voices (n : nat) (w : World) :
  voices n (this w) -> voices n (this (tuneSpeedVoice w)).
Proof.
  intros (Ho & Hg & Hp). unfold tuneSpeedVoice.
  match goal with
  | |- context [setOscillatorFrequency 3 ?f w] =>
      destruct (setOscillatorFrequency_spec 3 f w) as (l2 & Ht2 & _);
      pose proof (setOscillatorFrequency_length 3 f w) as Hl2
  end.
  split; [rewrite Hl2; exact Ho | ]. rewrite Ht2.
  cbn [gainNodes panners set_oscillators]. split; assumption.
Qed.

Lemma mixAndPan_voices (n : nat) (w : World) :
  voices n (this w) -> voices n (this (mixAndPan M w)).
Proof.
  intros (Ho & Hg & Hp).
  destruct (mixAndPan_spec M w) as (dry & wet & pans & Ht3 & _ & Hlen).
  rewrite Ht3.
  unfold voices.
  cbn [oscillators gainNodes panners set_panners set_wetGain set_dryGain].
  repeat split; congruence.
Qed.

Lemma rainfallTremolo_voices (n : nat) (w : World) :
  voices n (this w) -> voices n (this (rainfallTremolo M w)).
Proof.
  intros (Ho & Hg & Hp).
  destruct (rainfallTremolo_spec M w) as (rate & depth & Ht4 & _).
  rewrite Ht4. unfold voices.
  cbn [oscillators gainNodes panners set_gainNodes].
  split; [exact Ho | ]. split; [ | exact Hp].
  destruct (0 <? JS.toNumber (rainfall (this w)));
    [rewrite length_map | ]; exact Hg.
Qed.

Lemma reportFrequencies_voices (n : nat) (w : World) :
  voices n (this w) -> voices n (this (reportFrequencies w)).
Proof.
  intros Hv. destruct (reportFrequencies_spec w) as [Ht5 _].
  rewrite Ht5. exact Hv.
Qed.

(** A frequency update neither adds nor removes a voice. *)
Lemma updateFrequencies_voices (n : nat) (w : World) :
  voices n (this w) -> voices n (this (updateFrequencies M w)).
Proof.
  intros Hv. unfold updateFrequencies.
  destruct (isRunning (this w)); cbn [negb]; [ | exact Hv].
  apply reportFrequencies_voices, rainfallTremolo_voices, mixAndPan_voices,
    tuneSpeedVoice_voices, tuneHarmonics_voices, Hv.
Qed.

End Voices.

(** ** What a frequency update leaves of the oscillators

    A glide replaces the schedule of an oscillator's frequency and nothing
    else of it: any reading of the bank that does not look at the frequency
    parameters is the same after the update. *)

Section OscillatorReadings.

Variable M : MathLib.
Variable A : Type.
Variable reading : list Oscillator -> A.
Hypothesis reading_glide :
  forall (i : nat) (l : list Oscillator) (p : AudioParam -> AudioParam),
    reading (update_nth i (fun osc => mkOsc (wave osc) (p (frequency osc))) l)
    = reading l.

Lemma setOscillatorFrequency_reading (i : nat) (f : float) (w : World) :
  reading (oscillators (this (setOscillatorFrequency i f w)))
  = reading (oscillators (this w)).
Proof.
  unfold setOscillatorFrequency.
  destruct (nth_error (oscillators (this w)) i); [ | reflexivity].
  cbn [this on_this oscillators set_oscillators].
  match goal with
  | |- context [update_nth i (fun osc => mkOsc (wave osc) (@?p osc)) ?l] =>
      idtac
  end.
  apply (reading_glide i (oscillators (this w))
           (fun q => exponentialRampToValueAtTime
                       (JS.Math_max 20 (JS.Math_min 20000 f))
                       (currentTime (host w) + 2)
                       (setValueAtTime (value q) (currentTime (host w))
                          (cancelScheduledValues (currentTime (host w)) q)))).
Qed.

Lemma harmonics_reading (tones : list JS.value) (sub : bool) (fund : float)
    (turns : list (nat * nat)) (w : World) :
  reading (oscillators (this (fold_left (setHarmonic tones sub fund) turns w)))
  = reading (oscillators (this w)).
Proof.
  revert w. induction turns as [ | [oscIdx i] turns IH]; intros w; cbn.
  - reflexivity.
  - rewrite IH. unfold setHarmonic. apply setOscillatorFrequency_reading.
Qed.

Lemma tuneHarmonics_reading (w : World) :
  reading (oscillators (this (tuneHarmonics M w)))
  = reading (oscillators (this w)).
Proof.
  unfold tuneHarmonics, random. cbv beta iota zeta.
  match goal with
  | |- context [setOscillatorFrequency 0 ?fd (mkWorld ?e ?h)] =>
      assert (He : oscillators e = oscillators (this w)) by reflexivity;
      set (FD := fd) in *; set (E5 := e) in *; set (H2 := h) in *
  end.
  match goal with
  | |- context [fold_left (setHarmonic ?t ?s FD) ?turns ?w0] =>
      set (T := t); set (S := s); set (W1 := fold_left _ turns w0)
  end.
  rewrite oscillators_after_lastHeading. subst W1.
  rewrite harmonics_reading, setOscillatorFrequency_reading.
  cbn [this]. rewrite He. reflexivity.
Qed.

Lemma tuneSpeedVoice_reading (w : World) :
  reading (oscillators (this (tuneSpeedVoice w)))
  = reading (oscillators (this w)).
Proof.
  unfold tuneSpeedVoice. apply setOscillatorFrequency_reading.
Qed.

Lemma mixAndPan_reading (w : World) :
  reading (oscillators (this (mixAndPan M w)))
  = reading (oscillators (this w)).
Proof.
  destruct (mixAndPan_spec M w) as (dry & wet & pans & Ht3 & _).
  rewrite Ht3. reflexivity.
Qed.

Lemma rainfallTremolo_reading (w : World) :
  reading (oscillators (this (rainfallTremolo M w)))
  = reading (oscillators (this w)).
Proof.
  destruct (rainfallTremolo_spec M w) as (rate & depth & Ht4 & _).
  rewrite Ht4. reflexivity.
Qed.

Lemma reportFrequencies_reading (w : World) :
  reading (oscillators (this (reportFrequencies w)))
  = reading (oscillators (this w)).
Proof.
  destruct (reportFrequencies_spec w) as [Ht5 _]. rewrite Ht5. reflexivity.
Qed.

Lemma updateFrequencies_reading (w : World) :
  reading (oscillators (this (updateFrequencies M w)))
  = reading (oscillators (this w)).
Proof.
  unfold updateFrequencies.
  destruct (isRunning (this w)); cbn [negb]; [ | reflexivity].
  rewrite reportFrequencies_reading, rainfallTremolo_reading,
    mixAndPan_reading, tuneSpeedVoice_reading.
  apply tuneHarmonics_reading.
Qed.

End OscillatorReadings.

Lemma map_wave_glide (i : nat) (l : list Oscillator)
    (p : AudioParam -> AudioParam) :
  map wave (update_nth i (fun osc => mkOsc (wave osc) (p (frequency osc))) l)
  = map wave l.
Proof.
  revert i. induction l as [ | osc l IH]; intros [ | i]; cbn; try reflexivity.
  rewrite IH. reflexivity.
Qed.

(** A frequency update changes no oscillator's waveform. *)
Lemma updateFrequencies_waves (M : MathLib) (w : World) :
  map wave (oscillators (this (updateFrequencies M w)))
  = map wave (oscillators (this w)).
Proof.
  apply (updateFrequencies_reading M _ (map wave) map_wave_glide).
Qed.

(** ** The frame of a frequency update *)

Section Frame.

Variable M : MathLib.

Lemma updateFrequencies_settings (w : World) :
  sameSettings (this w) (this (updateFrequencies M w)).
Proof.
  destruct (isRunning (this w)) eqn:Hrun.
  - destruct (updateFrequencies_running M w Hrun)
      as (fund & drift & sun & lpf & hpf & l & dry & wet & pans & rate
          & depth & Hthis & _).
    rewrite Hthis. unfold sameSettings. conjuncts; reflexivity.
  - rewrite updateFrequencies_stopped by exact Hrun.
    unfold sameSettings. conjuncts; reflexivity.
Qed.

Lemma updateFrequencies_host (w : World) :
  hostKeeps (host w) (host (updateFrequencies M w)).
Proof.
  destruct (isRunning (this w)) eqn:Hrun.
  - destruct (updateFrequencies_running M w Hrun)
      as (fund & drift & sun & lpf & hpf & l & dry & wet & pans & rate
          & depth & _ & Hk & _).
    exact Hk.
  - rewrite updateFrequencies_stopped by exact Hrun. apply hostKeeps_refl.
Qed.

Lemma updateFrequencies_gainNodes (w : World) :
  exists rate depth : float,
    gainNodes (this (updateFrequencies M w))
    = if isRunning (this w) && (0 <? JS.toNumber (rainfall (this w)))
      then map (rainTremolo M rate depth (currentTime (host w)))
             (gainNodes (this w))
      else gainNodes (this w).
Proof.
  destruct (isRunning (this w)) eqn:Hrun.
  - destruct (updateFrequencies_running M w Hrun)
      as (fund & drift & sun & lpf & hpf & l & dry & wet & pans & rate
          & depth & Hthis & _).
    exists rate, depth. rewrite Hthis. reflexivity.
  - rewrite updateFrequencies_stopped by exact Hrun. exists 0, 0. reflexivity.
Qed.

Lemma updateFrequencies_panners (w : World) :
  List.length (panners (this (updateFrequencies M w)))
  = List.length (panners (this w)).
Proof.
  unfold updateFrequencies.
  destruct (isRunning (this w)); cbn [negb]; [ | reflexivity].
  assert (H1 : forall w0, panners (this (tuneHarmonics M w0)) = panners (this w0)).
  { intros w0. destruct (tuneHarmonics_spec M w0)
      as (fund & drift & sun & lpf & hpf & l & Ht & _).
    rewrite Ht. reflexivity. }
  assert (H2 : forall w0, panners (this (tuneSpeedVoice w0)) = panners (this w0)).
  { intros w0. unfold tuneSpeedVoice.
    match goal with
    | |- context [setOscillatorFrequency 3 ?f w0] =>
        destruct (setOscillatorFrequency_spec 3 f w0) as (l2 & Ht2 & _)
    end.
    rewrite Ht2. reflexivity. }
  assert (H3 : forall w0, List.length (panners (this (mixAndPan M w0)))
                          = List.length (panners (this w0))).
  { intros w0. destruct (mixAndPan_spec M w0) as (dry & wet & pans & Ht3 & _ & Hl).
    rewrite Ht3. exact Hl. }
  assert (H4 : forall w0, panners (this (rainfallTremolo M w0)) = panners (this w0)).
  { intros w0. destruct (rainfallTremolo_spec M w0) as (rate & depth & Ht4 & _).
    rewrite Ht4. reflexivity. }
  assert (H5 : forall w0, panners (this (reportFrequencies w0)) = panners (this w0)).
  { intros w0. destruct (reportFrequencies_spec w0) as [Ht5 _].
    rewrite Ht5. reflexivity. }
  rewrite H5, H4, H3, H2, H1. reflexivity.
Qed.

(** Whatever the state and the snapshot, a frequency update (and so
    [setScale] and [setEnvironmentalData] after storing) arms and cancels no
    timer, starts no click, does not move the clock, changes neither the
    running flag, the mode, the waveform, the scale nor any environmental
    field, and neither adds nor removes a voice nor changes a waveform. *)
Lemma updateFrequencies_keeps (w : World) :
  sameSettings (this w) (this (updateFrequencies M w))
  /\ hostKeeps (host w) (host (updateFrequencies M w))
  /\ map wave (oscillators (this (updateFrequencies M w)))
     = map wave (oscillators (this w))
  /\ List.length (gainNodes (this (updateFrequencies M w)))
     = List.length (gainNodes (this w))
  /\ List.length (panners (this (updateFrequencies M w)))
     = List.length (panners (this w)).
Proof.
  split; [apply updateFrequencies_settings | ].
  split; [apply updateFrequencies_host | ].
  split; [apply updateFrequencies_waves | ].
  split; [ | apply updateFrequencies_panners].
  destruct (updateFrequencies_gainNodes w) as (rate & depth & Hg).
  rewrite Hg.
  destruct (isRunning (this w) && (0 <? JS.toNumber (rainfall (this w))));
    [apply length_map | reflexivity].
Qed.

End Frame.

(** ** Starting *)

Lemma scheduleSporadicPulse_this (i : nat) (w : World) :
  exists ids : list nat,
    this (scheduleSporadicPulse i w) = set_sporadicTimers ids (this w).
Proof.
  unfold scheduleSporadicPulse.
  destruct (drawTiming i (this w) (host w)) as [[[[iv d] fi] fo] h'].
  cbn. eexists. reflexivity.
Qed.

Lemma schedule_all_this (vs : list nat) (w : World) :
  exists ids : list nat,
    this (fold_left (fun w i => scheduleSporadicPulse i w) vs w)
    = set_sporadicTimers ids (this w).
Proof.
  revert w. induction vs as [ | i vs IH]; intros w; cbn [fold_left].
  - exists (sporadicTimers (this w)). destruct w as [[] h]. reflexivity.
  - destruct (IH (scheduleSporadicPulse i w)) as [ids Hids].
    destruct (scheduleSporadicPulse_this i w) as [ids' Hids'].
    exists ids. rewrite Hids, Hids'. reflexivity.
Qed.

Lemma newVoices_spec (e : Engine) :
  oscillators e = [] -> gainNodes e = [] -> panners e = [] ->
  let e' := fold_left (fun e _ => newVoice e) (seq 0 8) e in
  map wave (oscillators e') = repeat (BuiltIn (waveform e)) 8
  /\ gainNodes e' = repeat (mkParam 0 []) 8
  /\ panners e' = repeat 0 8
  /\ sameSettings e e'.
Proof.
  intros Ho Hg Hp. destruct e. cbn in Ho, Hg, Hp. subst.
  cbv zeta. unfold sameSettings. conjuncts; reflexivity.
Qed.

Lemma rainTremolo_silent (M : MathLib) (rate depth now : float) (n : nat) :
  map (rainTremolo M rate depth now) (repeat (mkParam 0 []) n)
  = repeat (mkParam 0 []) n.
Proof.
  induction n as [ | n IH]; [reflexivity | ].
  cbn [repeat map]. rewrite IH. reflexivity.
Qed.

Section Start.

Variable M : MathLib.

(** The tail of [start]: an update, then the eight cycles. *)
Lemma start_tail (w0 : World) :
  isRunning (this w0) = true ->
  let w' := startSporadicOscillators (updateFrequencies M w0) in
  isRunning (this w') = true
  /\ map wave (oscillators (this w')) = map wave (oscillators (this w0))
  /\ (exists rate depth : float,
        gainNodes (this w')
        = if 0 <? JS.toNumber (rainfall (this w0))
          then map (rainTremolo M rate depth (currentTime (host w0)))
                 (gainNodes (this w0))
          else gainNodes (this w0))
  /\ List.length (panners (this w')) = List.length (panners (this w0))
  /\ exists fresh : list Timer,
       timers (host w') = timers (host w0) ++ fresh
       /\ Forall2 isPulseDue (seq 0 8) fresh
       /\ sporadicTimers (this w')
          = sporadicTimers (this w0) ++ map timerId fresh.
Proof.
  intros Hrun. cbv zeta. unfold startSporadicOscillators.
  destruct (updateFrequencies_keeps M w0) as (Hs & Hk & Hw & _ & Hp).
  destruct (updateFrequencies_gainNodes M w0) as (rate & depth & Hg).
  rewrite Hrun in Hg. cbn [andb] in Hg.
  generalize dependent (updateFrequencies M w0). intros w1 Hs Hk Hw Hp Hg.
  destruct (schedule_all_spec (seq 0 8) w1)
    as (fresh & Ht & _ & Hf & Hsp & _ & Hr).
  cbv zeta in Ht, Hsp, Hr.
  destruct (schedule_all_this (seq 0 8) w1) as (ids & Hids).
  destruct Hs as (Hs1 & _ & _ & _ & Hs5 & _).
  destruct Hk as (_ & _ & Hk3 & _).
  split; [congruence | ].
  split; [rewrite Hids; exact Hw | ].
  split; [exists rate, depth; rewrite Hids; exact Hg | ].
  split; [rewrite Hids; exact Hp | ].
  exists fresh. split; [congruence | ]. split; [exact Hf | congruence].
Qed.

(** What [start] does to an engine that is not running and holds no voice
    (a new one, or one that was stopped): eight voices, silent, each
    oscillator of the built-in type named by [waveform] (for a custom
    waveform, no periodic wave is installed here); the resume check and eight
    interval timers, one per voice in order, are armed and the eight are
    recorded. *)
Lemma start_stopped (w : World) :
  isRunning (this w) = false ->
  voices 0 (this w) ->
  let w' := start M w in
  isRunning (this w') = true
  /\ map wave (oscillators (this w')) = repeat (BuiltIn (waveform (this w))) 8
  /\ gainNodes (this w') = repeat (mkParam 0 []) 8
  /\ List.length (panners (this w')) = 8%nat
  /\ exists (resume : Timer) (fresh : list Timer),
       timers (host w') = timers (host w) ++ resume :: fresh
       /\ callback resume = ResumeCheck
       /\ Forall2 isPulseDue (seq 0 8) fresh
       /\ sporadicTimers (this w')
          = sporadicTimers (this w) ++ map timerId fresh.
Proof.
  intros Hrun (Ho & Hg & Hp). cbv zeta.
  apply length_zero_iff_nil in Ho, Hg, Hp.
  unfold start. rewrite Hrun. unfold setTimeout, createReverbImpulse.
  cbv beta iota zeta.
  match goal with
  | |- context [updateFrequencies M (mkWorld (set_isRunning true ?e1) ?h1)] =>
      set (E1 := e1); set (H1 := h1)
  end.
  assert (Hnv : map wave (oscillators E1) = repeat (BuiltIn (waveform (this w))) 8
                /\ gainNodes E1 = repeat (mkParam 0 []) 8
                /\ panners E1 = repeat 0 8
                /\ sameSettings (this w) E1).
  { subst E1.
    match goal with
    | |- context [fold_left ?f ?l ?e0] =>
        destruct (newVoices_spec e0) as (Hw & Hg' & Hp' & Hs);
        [exact Ho | exact Hg | exact Hp | ]
    end.
    cbv zeta in Hw, Hg', Hp', Hs.
    split; [exact Hw | ]. split; [exact Hg' | ]. split; [exact Hp' | ].
    exact Hs. }
  destruct Hnv as (Hw1 & Hg1 & Hp1 & Hs1).
  set (W0 := mkWorld (set_isRunning true E1) H1).
  assert (HrunW0 : isRunning (this W0) = true) by reflexivity.
  assert (HwW0 : map wave (oscillators (this W0))
                 = repeat (BuiltIn (waveform (this w))) 8) by exact Hw1.
  assert (HgW0 : gainNodes (this W0) = repeat (mkParam 0 []) 8) by exact Hg1.
  assert (HpW0 : panners (this W0) = repeat 0 8) by exact Hp1.
  assert (HtW0 : timers (host W0)
                 = timers (host w)
                     ++ [mkTimer (nextTimerId (host w)) 100 ResumeCheck])
    by reflexivity.
  assert (HsW0 : sporadicTimers (this W0) = sporadicTimers (this w)).
  { cbn. apply Hs1. }
  clearbody W0. clear E1 H1 Hw1 Hg1 Hp1 Hs1.
  change (mkWorld _ _ |> updateFrequencies M |> startSporadicOscillators)
    with (startSporadicOscillators (updateFrequencies M W0)) || idtac.
  destruct (start_tail W0 HrunW0)
    as (Hr & Hw & (rate & depth & Hgn) & Hpn & fresh & Ht & Hf & Hsp).
  cbv zeta in Hr, Hw, Hgn, Hpn, Ht, Hsp.
  split; [exact Hr | ].
  split; [congruence | ].
  split.
  { rewrite Hgn, HgW0.
    destruct (0 <? JS.toNumber (rainfall (this W0)));
      [apply rainTremolo_silent | reflexivity]. }
  split; [rewrite Hpn, HpW0; reflexivity | ].
  exists (mkTimer (nextTimerId (host w)) 100 ResumeCheck), fresh.
  rewrite Ht, HtW0, <- app_assoc. cbn [app].
  split; [reflexivity | ]. split; [reflexivity | ].
  split; [exact Hf | congruence].
Qed.


End Start.


(** ** Fade-in targets *)


(** ** Envelopes touch one gain *)

Lemma sameButGain_refl (i : nat) (e : Engine) : sameButGain i e e.
Proof.
  exists (gainNodes e). split; [destruct e; reflexivity | ].
  split; reflexivity.
Qed.

Lemma sameButGain_update (i : nat) (f : AudioParam -> AudioParam) (e : Engine) :
  sameButGain i e (set_gainNodes (update_nth i f (gainNodes e)) e).
Proof.
  eexists. split; [reflexivity | ].
  split; [apply length_update_nth | ].
  intros j Hj. apply nth_error_update_nth_other. congruence.
Qed.

(** [fadeIn] and [fadeOut] write the gain schedule of their own voice and
    nothing else: no other voice's gain, no oscillator, no timer; the host
    only loses the draws used. *)
Lemma fades_frame (oscIndex : nat) (duration volume : float)
    (w : World) :
  (sameButGain oscIndex (this w) (this (fadeIn oscIndex duration volume w))
   /\ hostKeeps (host w) (host (fadeIn oscIndex duration volume w)))
  /\ (sameButGain oscIndex (this w) (this (fadeOut oscIndex duration w))
      /\ hostKeeps (host w) (host (fadeOut oscIndex duration w))).
Proof.
  split.
  - unfold fadeIn.
    destruct (isRunning (this w)); cbn [negb];
      [ | split; [apply sameButGain_refl | apply hostKeeps_refl]].
    destruct (nth_error (gainNodes (this w)) oscIndex);
      [ | split; [apply sameButGain_refl | apply hostKeeps_refl]].
    unfold random. cbv beta iota zeta. cbn [this host].
    split; [apply sameButGain_update | repeat split].
  - unfold fadeOut.
    destruct (isRunning (this w)); cbn [negb];
      [ | split; [apply sameButGain_refl | apply hostKeeps_refl]].
    destruct (nth_error (gainNodes (this w)) oscIndex);
      [ | split; [apply sameButGain_refl | apply hostKeeps_refl]].
    destruct (JS.toNumber (populationDensity (this w)) <? 0.3).
    + cbn [this host].
      split; [apply sameButGain_update | apply hostKeeps_refl].
    + unfold random. cbv beta iota zeta. cbn [this host].
      split; [apply sameButGain_update | repeat split].
Qed.

(** X16.  A fade-in on a running engine always restarts the voice from silence:
    whatever the gain was doing, its schedule from now on is dropped, the
    gain is set to 0 at [now], and one linear ramp follows; two draws are
    used. *)
Theorem fadeIn_restarts_from_silence (oscIndex : nat)
    (duration volume : float) (w : World) (gain : AudioParam) :
  isRunning (this w) = true ->
  nth_error (gainNodes (this w)) oscIndex = Some gain ->
  let now := currentTime (host w) in
  let w' := fadeIn oscIndex duration volume w in
  (exists level until : float,
     nth_error (gainNodes (this w')) oscIndex
     = Some (gain |> cancelScheduledValues now
                  |> setValueAtTime 0 now
                  |> linearRampToValueAtTime level until))
  /\ drawn (host w') = (drawn (host w) + 2)%N.
Proof.
  intros Hrun Hgain. cbv zeta. unfold fadeIn. rewrite Hrun, Hgain.
  cbn [negb]. unfold random. cbv beta iota zeta.
  cbn [this host gainNodes set_gainNodes drawn set_drawn].
  split.
  - do 2 eexists. rewrite nth_error_update_nth, Hgain. reflexivity.
  - lia.
Qed.

Lemma fadeIn_restarts_from_silence_witness :
  isRunning (this running) = true
  /\ nth_error (gainNodes (this running)) 2 = Some (mkParam 0 [])
  /\ (exists level until : float,
        nth_error (gainNodes (this (fadeIn 2 1.5 0.1 running))) 2
        = Some (mkParam 0 []
                  |> cancelScheduledValues 0
                  |> setValueAtTime 0 0
                  |> linearRampToValueAtTime level until))
  /\ drawn (host (fadeIn 2 1.5 0.1 running)) = (drawn (host running) + 2)%N.
Proof.
  assert (Hrun : isRunning (this running) = true) by (vm_compute; reflexivity).
  assert (Hg : nth_error (gainNodes (this running)) 2 = Some (mkParam 0 []))
    by (vm_compute; reflexivity).
  split; [exact Hrun | ]. split; [exact Hg | ].
  exact (fadeIn_restarts_from_silence 2 1.5 0.1 running (mkParam 0 []) Hrun Hg).
Defined.

(** ** The timers stay in order *)

Lemma isPulseDue_isInterval (i : nat) (t : Timer) :
  isPulseDue i t -> isInterval t = true.
Proof.
  intros (a & b & c & d & H & _). unfold isInterval. rewrite H. reflexivity.
Qed.

Lemma arms_nil (w w' : World) :
  timers (host w') = timers (host w) ->
  nextTimerId (host w') = nextTimerId (host w) ->
  sporadicTimers (this w') = sporadicTimers (this w) ->
  arms [] w w'.
Proof.
  intros Ht Hn Hs. unfold arms. cbn. rewrite app_nil_r, Nat.add_0_r, app_nil_r.
  repeat split; assumption.
Qed.

Lemma arms_trans (a1 a2 : list Timer) (w1 w2 w3 : World) :
  arms a1 w1 w2 -> arms a2 w2 w3 -> arms (a1 ++ a2) w1 w3.
Proof.
  intros (Ht1 & Hn1 & Hi1 & Hs1) (Ht2 & Hn2 & Hi2 & Hs2). unfold arms.
  rewrite Ht2, Ht1, Hn2, Hn1, Hs2, Hs1, length_app, map_app, filter_app,
    map_app, seq_app, Hi1, Hi2, Hn1, <- !app_assoc.
  repeat split. lia.
Qed.

Lemma in_seq_lt (a n id : nat) : In id (seq a n) -> (a <= id < a + n)%nat.
Proof. apply in_seq. Qed.

Lemma timersInOrder_arms (added : list Timer) (w w' : World) :
  timersInOrder w -> arms added w w' -> timersInOrder w'.
Proof.
  intros (Hnd & Hlt & Hrec & Htr) (Ht & Hn & Hi & Hs).
  unfold timersInOrder. rewrite Ht, Hn, Hs.
  assert (Hadded : Forall (fun t => (nextTimerId (host w) <= timerId t
                                     < nextTimerId (host w) + List.length added)%nat)
                     added).
  { apply Forall_forall. intros t Hin. apply in_seq_lt. rewrite <- Hi.
    apply in_map, Hin. }
  rewrite Forall_forall in Hadded, Hlt, Hrec, Htr.
  split; [ | split; [ | split]].
  - rewrite map_app, Hi. apply NoDup_app; [exact Hnd | apply seq_NoDup | ].
    intros id Hin1 Hin2. apply in_seq in Hin2.
    apply in_map_iff in Hin1. destruct Hin1 as (t & <- & Hin1).
    specialize (Hlt t Hin1). lia.
  - apply Forall_forall. intros t Hin. apply in_app_or in Hin.
    destruct Hin as [Hin | Hin]; [specialize (Hlt t Hin) | specialize (Hadded t Hin)];
      lia.
  - apply Forall_forall. intros id Hin. apply in_app_or in Hin.
    destruct Hin as [Hin | Hin]; [specialize (Hrec id Hin); lia | ].
    apply in_map_iff in Hin. destruct Hin as (t & <- & Hin).
    apply filter_In in Hin. destruct Hin as [Hin _].
    specialize (Hadded t Hin). lia.
  - apply Forall_forall. intros t Hin Hp. apply in_or_app.
    apply in_app_or in Hin. destruct Hin as [Hin | Hin].
    + left. exact (Htr t Hin Hp).
    + right. apply in_map, filter_In. split; [exact Hin | exact Hp].
Qed.

(** Cancelling timers keeps the ids of the pending ones distinct. *)
Lemma distinct_ids_filter (keep : Timer -> bool) (queue : list Timer) :
  NoDup (map timerId queue) -> NoDup (map timerId (filter keep queue)).
Proof.
  intros Hnd. induction queue as [ | t queue IH]; cbn; [constructor | ].
  cbn in Hnd. apply NoDup_cons_iff in Hnd. destruct Hnd as [Hnin Hnd].
  destruct (keep t); [ | apply IH, Hnd].
  cbn. apply NoDup_cons; [ | apply IH, Hnd].
  intros Hin. apply Hnin. apply in_map_iff in Hin.
  destruct Hin as (z & Hz & Hin). apply filter_In in Hin.
  apply in_map_iff. exists z. tauto.
Qed.

Lemma Forall_filter {A : Type} (P : A -> Prop) (p : A -> bool) (l : list A) :
  Forall P l -> Forall P (filter p l).
Proof.
  rewrite !Forall_forall. intros H x Hin. apply filter_In in Hin. apply H, Hin.
Qed.

(** Cancelling timers, with the recorded ids kept as they are. *)
Lemma timersInOrder_filter (p : Timer -> bool) (w w' : World) :
  timersInOrder w ->
  timers (host w') = filter p (timers (host w)) ->
  nextTimerId (host w') = nextTimerId (host w) ->
  sporadicTimers (this w') = sporadicTimers (this w) ->
  timersInOrder w'.
Proof.
  intros (Hnd & Hlt & Hrec & Htr) Ht Hn Hs. unfold timersInOrder.
  rewrite Ht, Hn, Hs.
  split; [apply distinct_ids_filter, Hnd | ].
  split; [apply Forall_filter, Hlt | ].
  split; [exact Hrec | apply Forall_filter, Htr].
Qed.

(** Cancelling every recorded timer and forgetting the record. *)
Lemma timersInOrder_reset (w w' : World) :
  timersInOrder w ->
  timers (host w')
  = filter (fun t => negb (recorded (sporadicTimers (this w)) t))
      (timers (host w)) ->
  nextTimerId (host w') = nextTimerId (host w) ->
  sporadicTimers (this w') = [] ->
  timersInOrder w'.
Proof.
  intros (Hnd & Hlt & Hrec & Htr) Ht Hn Hs. unfold timersInOrder.
  rewrite Ht, Hn, Hs.
  split; [apply distinct_ids_filter, Hnd | ].
  split; [apply Forall_filter, Hlt | ].
  split; [constructor | ].
  apply Forall_forall. intros t Hin Hp. apply filter_In in Hin.
  destruct Hin as [Hin Hnot]. rewrite Forall_forall in Htr.
  specialize (Htr t Hin Hp).
  assert (Hr : recorded (sporadicTimers (this w)) t = true).
  { unfold recorded. apply existsb_exists. exists (timerId t).
    split; [exact Htr | apply Nat.eqb_refl]. }
  rewrite Hr in Hnot. discriminate Hnot.
Qed.

Lemma scheduleSporadicPulse_arms (i : nat) (w : World) :
  exists t : Timer,
    arms [t] w (scheduleSporadicPulse i w) /\ isPulseDue i t.
Proof.
  destruct (scheduleSporadicPulse_spec i w)
    as (t & Ht & Hid & Hp & Hn & Hs & _).
  cbv zeta in Ht, Hn, Hs.
  exists t. split; [ | exact Hp]. unfold arms.
  cbn [List.length map filter seq].
  rewrite (isPulseDue_isInterval i t Hp). cbn [map].
  rewrite Ht, Hn, Hs, Hid. repeat split. lia.
Qed.

Lemma schedule_all_arms (vs : list nat) (w : World) :
  exists fresh : list Timer,
    arms fresh w (fold_left (fun w i => scheduleSporadicPulse i w) vs w)
    /\ Forall2 isPulseDue vs fresh.
Proof.
  revert w. induction vs as [ | i vs IH]; intros w; cbn [fold_left].
  - exists []. split; [apply arms_nil; reflexivity | constructor].
  - destruct (scheduleSporadicPulse_arms i w) as (t & Ha & Hp).
    destruct (IH (scheduleSporadicPulse i w)) as (fresh & Ha' & Hf).
    exists (t :: fresh). split; [ | constructor; assumption].
    apply (arms_trans [t] fresh _ _ _ Ha Ha').
Qed.

(** The interval closure on a running engine arms exactly one timer, on the
    same voice, which is not an interval timer: the hold timer, or in click
    mode the re-arm timer. *)
Lemma pulseDue_arms (i : nat) (interval duration fi fo : float) (w : World) :
  isRunning (this w) = true ->
  (i < List.length (oscillators (this w)))%nat ->
  exists t : Timer,
    arms [t] w (pulseDue i interval duration fi fo w)
    /\ voiceOf (callback t) = Some i
    /\ isInterval t = false.
Proof.
  intros Hrun Hi. unfold pulseDue. rewrite Hrun. cbn [negb].
  destruct (String.eqb (mode (this w)) "click").
  - destruct (nth_error (oscillators (this w)) i) as [osc | ] eqn:Hosc.
    + cbv beta iota zeta. unfold setTimeout.
      exists (mkTimer (nextTimerId (host w)) interval (ClickRearm i)).
      split; [ | split; reflexivity].
      unfold arms. cbn.
      destruct (2000 <? value (frequency osc)); cbn;
        rewrite ?app_nil_r; repeat split; lia.
    + apply nth_error_None in Hosc. lia.
  - cbv beta iota zeta.
    destruct (fades_frame i fi (targetVolumeOf (mode (this w)) i) w)
      as [[(gains & Hthis & _) (_ & _ & Ht & Hn & _)] _].
    generalize dependent (fadeIn i fi (targetVolumeOf (mode (this w)) i) w).
    intros w1 Hthis Ht Hn.
    unfold setTimeout. cbn [fst snd].
    exists (mkTimer (nextTimerId (host w)) duration (HoldEnd i fo)).
    split; [ | split; reflexivity].
    unfold arms. cbn. rewrite Ht, Hn, Hthis, app_nil_r. cbn.
    repeat split. lia.
Qed.

Lemma sameShape_refl (e : Engine) : sameShape e e.
Proof. repeat split. Qed.

Lemma sameShape_trans (e1 e2 e3 : Engine) :
  sameShape e1 e2 -> sameShape e2 e3 -> sameShape e1 e3.
Proof.
  unfold sameShape. intros H12 H23.
  decompose [and] H12. decompose [and] H23. repeat split; congruence.
Qed.

Lemma sameButGain_shape (i : nat) (e e' : Engine) :
  sameButGain i e e' -> sameShape e e'.
Proof.
  intros (gains & -> & Hlen & _). unfold sameShape. cbn.
  repeat split. exact Hlen.
Qed.

Lemma scheduleSporadicPulse_shape (i : nat) (w : World) :
  sameShape (this w) (this (scheduleSporadicPulse i w)).
Proof.
  destruct (scheduleSporadicPulse_this i w) as [ids ->]. repeat split.
Qed.

Lemma schedule_all_shape (vs : list nat) (w : World) :
  sameShape (this w)
    (this (fold_left (fun w i => scheduleSporadicPulse i w) vs w)).
Proof.
  destruct (schedule_all_this vs w) as [ids ->]. repeat split.
Qed.

Lemma pulseDue_shape (i : nat) (interval duration fi fo : float) (w : World) :
  sameShape (this w) (this (pulseDue i interval duration fi fo w)).
Proof.
  unfold pulseDue.
  destruct (isRunning (this w)); cbn [negb]; [ | apply sameShape_refl].
  destruct (String.eqb (mode (this w)) "click").
  - destruct (nth_error (oscillators (this w)) i); [ | apply sameShape_refl].
    cbv beta iota zeta. unfold setTimeout. cbn [this]. apply sameShape_refl.
  - cbv beta iota zeta. unfold setTimeout. cbn [this].
    eapply sameButGain_shape, fades_frame.
Qed.

Lemma runCallback_shape (cb : Callback) (w : World) :
  sameShape (this w) (this (runCallback cb w)).
Proof.
  destruct cb as [ | i iv d fi fo | i | i fo]; cbn [runCallback].
  - apply sameShape_refl.
  - apply pulseDue_shape.
  - destruct (isRunning (this w)); cbn [negb];
      [apply scheduleSporadicPulse_shape | apply sameShape_refl].
  - destruct (isRunning (this w)); cbn [negb]; [ | apply sameShape_refl].
    eapply sameShape_trans; [ | apply scheduleSporadicPulse_shape].
    destruct (fades_frame i fo 0 w) as [_ [Hout _]].
    eapply sameButGain_shape, Hout.
Qed.

(** What a closure arms when it runs on a running engine: nothing for the
    resume check, and for a voice's closure exactly one timer, on that
    voice. *)
Lemma runCallback_arms (cb : Callback) (w : World) :
  isRunning (this w) = true ->
  (forall i, voiceOf cb = Some i ->
             (i < List.length (oscillators (this w)))%nat) ->
  exists added : list Timer,
    arms added w (runCallback cb w)
    /\ map (fun t => voiceOf (callback t)) added
       = match voiceOf cb with
         | Some i => [Some i]
         | None => []
         end.
Proof.
  intros Hrun Hi.
  destruct cb as [ | i iv d fi fo | i | i fo]; cbn [runCallback voiceOf] in *.
  - exists []. split; [apply arms_nil; reflexivity | reflexivity].
  - destruct (pulseDue_arms i iv d fi fo w Hrun) as (t & Ha & Hv & _);
      [apply Hi; reflexivity | ].
    exists [t]. split; [exact Ha | cbn; rewrite Hv; reflexivity].
  - rewrite Hrun. cbn [negb].
    destruct (scheduleSporadicPulse_arms i w) as (t & Ha & Hp).
    exists [t]. split; [exact Ha | ].
    destruct Hp as (a & b & c & d & Hc & _). cbn. rewrite Hc. reflexivity.
  - rewrite Hrun. cbn [negb].
    destruct (fades_frame i fo 0 w)
      as [_ [(gains & Hthis & _) (_ & _ & Ht & Hn & _)]].
    assert (Ha0 : arms [] w (fadeOut i fo w)).
    { apply arms_nil; [exact Ht | exact Hn | rewrite Hthis; reflexivity]. }
    destruct (scheduleSporadicPulse_arms i (fadeOut i fo w)) as (t & Ha & Hp).
    exists [t]. split; [exact (arms_trans [] [t] _ _ _ Ha0 Ha) | ].
    destruct Hp as (a & b & c & d & Hc & _). cbn. rewrite Hc. reflexivity.
Qed.

(** ** Firing a timer *)

Lemma count_without (p : Timer -> bool) (t : Timer) (l : list Timer) :
  NoDup (map timerId l) -> In t l ->
  (List.length
     (filter p (filter (fun x => negb (Nat.eqb (timerId x) (timerId t))) l))
   + (if p t then 1 else 0))%nat
  = List.length (filter p l).
Proof.
  induction l as [ | x l IH]; [intros _ []| ].
  cbn [map]. intros Hnd Hin. inversion Hnd as [ | y r Hnin Hnd']; subst.
  destruct Hin as [-> | Hin].
  - cbn [filter]. rewrite Nat.eqb_refl. cbn [negb].
    assert (Hsame : filter (fun x => negb (Nat.eqb (timerId x) (timerId t))) l = l).
    { clear IH Hnd Hnd'. induction l as [ | y l IHl]; [reflexivity | ].
      cbn. destruct (Nat.eqb (timerId y) (timerId t)) eqn:He.
      - apply Nat.eqb_eq in He. exfalso. apply Hnin. left. exact He.
      - cbn. rewrite IHl; [reflexivity | ].
        intros H. apply Hnin. right. exact H. }
    rewrite Hsame. destruct (p t); cbn; lia.
  - cbn [filter].
    destruct (Nat.eqb (timerId x) (timerId t)) eqn:He.
    + apply Nat.eqb_eq in He. exfalso. apply Hnin. rewrite He.
      apply in_map, Hin.
    + cbn [negb filter]. specialize (IH Hnd' Hin).
      destruct (p x); cbn [List.length]; lia.
Qed.

Lemma count_added (j : nat) (cb : Callback) (added : list Timer) :
  map (fun t => voiceOf (callback t)) added
  = match voiceOf cb with
    | Some i => [Some i]
    | None => []
    end ->
  List.length (filter (onVoice j) added)
  = match voiceOf cb with
    | Some i => if Nat.eqb j i then 1 else 0
    | None => 0
    end%nat.
Proof.
  intros H. destruct (voiceOf cb) as [i | ].
  - destruct added as [ | t [ | t' r]]; try discriminate H.
    cbn in H. injection H as Hv. cbn. unfold onVoice. rewrite Hv.
    destruct (Nat.eqb j i); reflexivity.
  - destruct added; [reflexivity | discriminate H].
Qed.

Lemma find_timer (id : nat) (l : list Timer) (t : Timer) :
  find (fun t => Nat.eqb (timerId t) id) l = Some t ->
  In t l /\ timerId t = id.
Proof.
  intros H. apply find_some in H. destruct H as [Hin He].
  split; [exact Hin | apply Nat.eqb_eq, He].
Qed.

(** X18.  On a running, well-formed engine the host firing a timer, whichever it
    is, leaves every voice with as many live chains as it had: the closure
    that runs arms exactly one successor on its own voice.  Firing alone
    neither ends a chain nor doubles one. *)
Theorem fire_conserves_chains (id : nat) (w : World) :
  wellFormed w ->
  isRunning (this w) = true ->
  forall j : nat,
    List.length (chainsOf j (fire id w)) = List.length (chainsOf j w).
Proof.
  intros ((Hnd & _) & Hv & Hvoice) Hrun j. rewrite Hrun in Hv.
  unfold fire.
  destruct (find (fun t => Nat.eqb (timerId t) id) (timers (host w)))
    as [t | ] eqn:Hfind; [ | reflexivity].
  apply find_timer in Hfind. destruct Hfind as [Hin <-].
  set (w1 := on_host (clearTimeout (timerId t)) w).
  destruct (runCallback_arms (callback t) w1) as (added & (Ht & _) & Hvs).
  { exact Hrun. }
  { intros i Hi. rewrite Forall_forall in Hvoice.
    specialize (Hvoice t Hin i Hi). destruct Hv as (Ho & _).
    change (oscillators (this w1)) with (oscillators (this w)). lia. }
  unfold chainsOf. rewrite !length_map, Ht, filter_app, length_app.
  rewrite (count_added j (callback t) added Hvs).
  rewrite <- (count_without (onVoice j) t (timers (host w)) Hnd Hin).
  change (timers (host w1))
    with (filter (fun x => negb (Nat.eqb (timerId x) (timerId t)))
            (timers (host w))).
  unfold onVoice at 3. destruct (voiceOf (callback t)); reflexivity.
Qed.

(** ** Well-formedness is kept *)

Lemma voices_shape (e e' : Engine) :
  sameShape e e' ->
  voices (if isRunning e then 8 else 0) e ->
  voices (if isRunning e' then 8 else 0) e'.
Proof.
  intros (Hr & Ho & Hg & Hp) (Ho' & Hg' & Hp'). rewrite Hr.
  repeat split; congruence.
Qed.

Lemma added_voices (cb : Callback) (added : list Timer) :
  (forall i, voiceOf cb = Some i -> (i < 8)%nat) ->
  map (fun t => voiceOf (callback t)) added
  = match voiceOf cb with
    | Some i => [Some i]
    | None => []
    end ->
  Forall (fun t => forall i, voiceOf (callback t) = Some i -> (i < 8)%nat) added.
Proof.
  intros Hcb H. destruct (voiceOf cb) as [k | ].
  - destruct added as [ | t [ | t' r]]; try discriminate H.
    cbn in H. injection H as Hv. constructor; [ | constructor].
    intros i Hi. apply Hcb. congruence.
  - destruct added; [constructor | discriminate H].
Qed.

Lemma pulseDue_voices (vs : list nat) (fresh : list Timer) :
  Forall2 isPulseDue vs fresh ->
  Forall (fun i => (i < 8)%nat) vs ->
  Forall (fun t => forall i, voiceOf (callback t) = Some i -> (i < 8)%nat) fresh.
Proof.
  induction 1 as [ | v t vs fresh Hp _ IH]; intros Hvs; constructor.
  - inversion Hvs; subst. destruct Hp as (a & b & c & d & Hc & _).
    intros i Hi. rewrite Hc in Hi. cbn in Hi. congruence.
  - apply IH. inversion Hvs; assumption.
Qed.

Lemma seq_below_8 : Forall (fun i => (i < 8)%nat) (seq 0 8).
Proof. repeat constructor. Qed.

Lemma wellFormed_fire (id : nat) (w : World) :
  wellFormed w -> wellFormed (fire id w).
Proof.
  intros (Hord & Hv & Hvoice). unfold fire.
  destruct (find (fun t => Nat.eqb (timerId t) id) (timers (host w)))
    as [t | ] eqn:Hfind; [ | exact (conj Hord (conj Hv Hvoice))].
  apply find_timer in Hfind. destruct Hfind as [Hin <-].
  set (w1 := on_host (clearTimeout (timerId t)) w).
  assert (Hord1 : timersInOrder w1).
  { apply (timersInOrder_filter
             (fun x => negb (Nat.eqb (timerId x) (timerId t))) w w1 Hord);
      reflexivity. }
  assert (Hvoice1 : Forall (fun t => forall i, voiceOf (callback t) = Some i ->
                                     (i < 8)%nat) (timers (host w1))).
  { apply Forall_filter, Hvoice. }
  assert (Hcb : forall i, voiceOf (callback t) = Some i -> (i < 8)%nat).
  { rewrite Forall_forall in Hvoice. apply Hvoice, Hin. }
  split; [ | split].
  - destruct (isRunning (this w)) eqn:Hrun.
    + destruct (runCallback_arms (callback t) w1) as (added & Ha & _).
      { exact Hrun. }
      { intros i Hi. destruct Hv as (Ho & _).
        change (oscillators (this w1)) with (oscillators (this w)).
        specialize (Hcb i Hi). lia. }
      apply (timersInOrder_arms added w1 _ Hord1 Ha).
    + rewrite runCallback_stopped by exact Hrun. exact Hord1.
  - apply (voices_shape (this w)); [apply (runCallback_shape _ w1) | exact Hv].
  - destruct (isRunning (this w)) eqn:Hrun.
    + destruct (runCallback_arms (callback t) w1) as (added & (Ht & _) & Hvs).
      { exact Hrun. }
      { intros i Hi. destruct Hv as (Ho & _).
        change (oscillators (this w1)) with (oscillators (this w)).
        specialize (Hcb i Hi). lia. }
      rewrite Ht. apply Forall_app. split; [exact Hvoice1 | ].
      apply (added_voices (callback t) added Hcb Hvs).
    + rewrite runCallback_stopped by exact Hrun. exact Hvoice1.
Qed.

Lemma wellFormed_stop (w : World) : wellFormed w -> wellFormed (stop w).
Proof.
  intros (Hord & Hv & Hvoice).
  destruct (isRunning (this w)) eqn:Hrun.
  - destruct (stop_running w Hrun) as (Hv0 & Hs & Ht & _).
    split; [ | split].
    + apply (timersInOrder_reset w _ Hord Ht); [ | exact Hs].
      unfold stop. rewrite Hrun. cbn [negb]. unfold clearSporadicTimers.
      destruct (clear_all_spec (sporadicTimers (this w)) (host w)) as [_ Hn].
      exact Hn.
    + rewrite isRunning_stop. exact Hv0.
    + rewrite Ht. apply Forall_filter, Hvoice.
  - unfold stop. rewrite Hrun. cbn [negb].
    split; [exact Hord | split; [rewrite Hrun; exact Hv | exact Hvoice]].
Qed.

Lemma setWaveform_shape (wf : string) (w : World) :
  sameShape (this w) (this (setWaveform wf w))
  /\ host (setWaveform wf w) = host w
  /\ sporadicTimers (this (setWaveform wf w)) = sporadicTimers (this w).
Proof.
  unfold setWaveform, sameShape. cbn. rewrite length_map. repeat split.
Qed.

Lemma wellFormed_setWaveform (wf : string) (w : World) :
  wellFormed w -> wellFormed (setWaveform wf w).
Proof.
  intros (Hord & Hv & Hvoice).
  destruct (setWaveform_shape wf w) as (Hsh & Hh & Hs).
  split; [ | split].
  - apply (timersInOrder_arms [] w _ Hord).
    apply arms_nil; [rewrite Hh; reflexivity | rewrite Hh; reflexivity | exact Hs].
  - apply (voices_shape _ _ Hsh Hv).
  - rewrite Hh. exact Hvoice.
Qed.

Lemma wellFormed_setMode (m : string) (w : World) :
  wellFormed w -> wellFormed (setMode m w).
Proof.
  intros (Hord & Hv & Hvoice). unfold setMode.
  set (w1 := setWaveform (waveform (this (on_this (set_mode m) w)))
               (on_this (set_mode m) w)).
  assert (Hsh1 : sameShape (this w) (this w1)).
  { unfold w1, setWaveform, sameShape. cbn. rewrite length_map. repeat split. }
  assert (Hh1 : host w1 = host w) by reflexivity.
  assert (Hs1 : sporadicTimers (this w1) = sporadicTimers (this w)) by reflexivity.
  clearbody w1.
  set (w2 := clearSporadicTimers w1).
  destruct (clear_all_spec (sporadicTimers (this w1)) (host w1)) as [Ht2 Hn2].
  cbv zeta in Ht2, Hn2.
  assert (Hord2 : timersInOrder w2).
  { apply (timersInOrder_reset w w2 Hord).
    - unfold w2, clearSporadicTimers. cbn [host]. rewrite Ht2, Hs1, Hh1.
      reflexivity.
    - unfold w2, clearSporadicTimers. cbn [host]. rewrite Hn2, Hh1. reflexivity.
    - reflexivity. }
  assert (Hsh2 : sameShape (this w1) (this w2)) by (repeat split).
  assert (Hvoice2 : Forall (fun t => forall i, voiceOf (callback t) = Some i ->
                                     (i < 8)%nat) (timers (host w2))).
  { unfold w2, clearSporadicTimers. cbn [host]. rewrite Ht2, Hh1.
    apply Forall_filter, Hvoice. }
  clearbody w2.
  destruct (schedule_all_arms (seq 0 8) w2) as (fresh & Ha & Hf).
  split; [ | split].
  - apply (timersInOrder_arms fresh w2 _ Hord2 Ha).
  - apply (voices_shape (this w)); [ | exact Hv].
    eapply sameShape_trans; [exact Hsh1 | ].
    eapply sameShape_trans; [exact Hsh2 | apply schedule_all_shape].
  - destruct Ha as (Ht & _). rewrite Ht. apply Forall_app.
    split; [exact Hvoice2 | ].
    apply (pulseDue_voices (seq 0 8) fresh Hf seq_below_8).
Qed.

Lemma newVoices_settings (e : Engine) :
  sameSettings e (fold_left (fun e _ => newVoice e) (seq 0 8) e).
Proof. destruct e. unfold sameSettings. conjuncts; reflexivity. Qed.

Section WellFormed.

Variable M : MathLib.

Lemma updateFrequencies_shape (w : World) :
  sameShape (this w) (this (updateFrequencies M w)).
Proof.
  destruct (updateFrequencies_keeps M w) as ((Hr & _) & _ & Hw & Hg & Hp).
  split; [exact Hr | ]. split; [ | split; assumption].
  rewrite <- (length_map wave), Hw, length_map. reflexivity.
Qed.

Lemma updateFrequencies_arms (w : World) :
  arms [] w (updateFrequencies M w).
Proof.
  destruct (updateFrequencies_keeps M w)
    as ((_ & _ & _ & _ & Hs & _) & (_ & _ & Ht & Hn & _) & _).
  apply arms_nil; assumption.
Qed.

Lemma wellFormed_updateFrequencies (w : World) :
  wellFormed w -> wellFormed (updateFrequencies M w).
Proof.
  intros (Hord & Hv & Hvoice).
  split; [ | split].
  - apply (timersInOrder_arms [] w _ Hord), updateFrequencies_arms.
  - apply (voices_shape _ _ (updateFrequencies_shape w) Hv).
  - destruct (updateFrequencies_arms w) as (Ht & _).
    rewrite Ht, app_nil_r. exact Hvoice.
Qed.

(** [start] on a stopped engine arms the resume check and then the eight
    interval timers, with the next nine ids. *)
Lemma start_arms (w : World) :
  isRunning (this w) = false ->
  exists fresh : list Timer,
    arms (mkTimer (nextTimerId (host w)) 100 ResumeCheck :: fresh) w
      (start M w)
    /\ Forall2 isPulseDue (seq 0 8) fresh.
Proof.
  intros Hrun. unfold start. rewrite Hrun.
  unfold setTimeout, createReverbImpulse. cbv beta iota zeta.
  match goal with
  | |- context [updateFrequencies M (mkWorld (set_isRunning true ?e1) ?h1)] =>
      set (E1 := e1); set (H1 := h1)
  end.
  set (W0 := mkWorld (set_isRunning true E1) H1).
  assert (Ha0 : arms [mkTimer (nextTimerId (host w)) 100 ResumeCheck] w W0).
  { unfold arms. cbn [List.length map filter isInterval callback seq timerId].
    split; [reflexivity | ]. split; [cbn; lia | ]. split; [reflexivity | ].
    rewrite app_nil_r. subst W0 E1. cbn [this sporadicTimers set_isRunning].
    match goal with
    | |- context [fold_left ?f ?l ?e0] =>
        destruct (newVoices_settings e0) as (_ & _ & _ & _ & Hs & _)
    end.
    rewrite Hs. reflexivity. }
  clearbody W0. clear E1 H1.
  unfold startSporadicOscillators.
  destruct (schedule_all_arms (seq 0 8) (updateFrequencies M W0))
    as (fresh & Ha2 & Hf).
  exists fresh. split; [ | exact Hf].
  apply (arms_trans [_] fresh _ _ _ Ha0).
  apply (arms_trans [] fresh _ _ _ (updateFrequencies_arms W0) Ha2).
Qed.

Lemma wellFormed_start (w : World) : wellFormed w -> wellFormed (start M w).
Proof.
  intros (Hord & Hv & Hvoice).
  destruct (isRunning (this w)) eqn:Hrun.
  - unfold start. rewrite Hrun. split; [exact Hord | ].
    split; [rewrite Hrun; exact Hv | exact Hvoice].
  - destruct (start_arms w Hrun) as (fresh & Ha & Hf).
    destruct (start_stopped M w Hrun Hv) as (Hr & Hw & Hg & Hp & _).
    cbv zeta in Hr, Hw, Hg, Hp.
    split; [apply (timersInOrder_arms _ w _ Hord Ha) | ]. split.
    + rewrite Hr. split; [ | split].
      * rewrite <- (length_map wave), Hw. apply repeat_length.
      * rewrite Hg. apply repeat_length.
      * exact Hp.
    + destruct Ha as (Ht & _). rewrite Ht. apply Forall_app.
      split; [exact Hvoice | ]. constructor.
      * intros i Hi. discriminate Hi.
      * apply (pulseDue_voices (seq 0 8) fresh Hf seq_below_8).
Qed.

Lemma wellFormed_store (f : Engine -> Engine) (w : World) :
  (forall e, sameShape e (f e)) ->
  (forall e, sporadicTimers (f e) = sporadicTimers e) ->
  wellFormed w -> wellFormed (on_this f w).
Proof.
  intros Hsh Hs (Hord & Hv & Hvoice). split; [ | split].
  - apply (timersInOrder_arms [] w _ Hord).
    apply arms_nil; [reflexivity | reflexivity | apply Hs].
  - apply (voices_shape _ _ (Hsh (this w)) Hv).
  - exact Hvoice.
Qed.

(** Well-formedness is an invariant: whatever is done to the engine, a
    call of its interface or the host firing a timer (pending or not),
    moving the clock or rendering, a well-formed state stays well formed. *)
Lemma wellFormed_step (a : Action) (w : World) :
  wellFormed w -> wellFormed (perform M a w).
Proof.
  intros Hwf. destruct a; cbn [perform].
  - apply wellFormed_start, Hwf.
  - apply wellFormed_stop, Hwf.
  - apply wellFormed_setMode, Hwf.
  - apply wellFormed_setWaveform, Hwf.
  - unfold setScale. apply wellFormed_updateFrequencies.
    apply wellFormed_store; [ | | exact Hwf]; intros e; repeat split.
  - unfold setEnvironmentalData. cbv zeta.
    apply wellFormed_updateFrequencies.
    apply wellFormed_store; [ | | exact Hwf]; intros e; repeat split.
  - apply wellFormed_fire, Hwf.
  - unfold advanceTo. destruct Hwf as (Hord & Hv & Hvoice).
    split; [ | split; assumption].
    apply (timersInOrder_arms [] w _ Hord). apply arms_nil; reflexivity.
  - unfold rendered. apply wellFormed_store; [ | | exact Hwf]; intros e.
    + unfold sameShape. cbn. rewrite length_update_nth. repeat split.
    + reflexivity.
Qed.


End WellFormed.

(** ** What a mode switch leaves pending *)

Lemma setMode_timers (m : string) (w : World) :
  exists fresh : list Timer,
    timers (host (setMode m w))
    = filter (fun t => negb (recorded (sporadicTimers (this w)) t))
        (timers (host w)) ++ fresh
    /\ map timerId fresh = seq (nextTimerId (host w)) 8
    /\ Forall2 isPulseDue (seq 0 8) fresh.
Proof.
  unfold setMode.
  set (w1 := setWaveform (waveform (this (on_this (set_mode m) w)))
               (on_this (set_mode m) w)).
  assert (Hh1 : host w1 = host w) by reflexivity.
  assert (Hs1 : sporadicTimers (this w1) = sporadicTimers (this w)) by reflexivity.
  clearbody w1.
  destruct (clear_all_spec (sporadicTimers (this w1)) (host w1)) as [Ht2 Hn2].
  cbv zeta in Ht2, Hn2.
  destruct (schedule_all_arms (seq 0 8) (clearSporadicTimers w1))
    as (fresh & (Ht & _ & Hid & _) & Hf).
  exists fresh. rewrite Ht. unfold clearSporadicTimers in *. cbn [host] in *.
  rewrite Ht2, Hs1, Hh1. split; [reflexivity | ].
  split; [ | exact Hf].
  rewrite Hid, Hn2, Hh1.
  rewrite <- (Forall2_length Hf), length_seq. reflexivity.
Qed.

Lemma intervals_of_fresh (vs : list nat) (fresh : list Timer) :
  Forall2 isPulseDue vs fresh ->
  filter isInterval fresh = fresh
  /\ map (fun t => voiceOf (callback t)) fresh = map Some vs.
Proof.
  induction 1 as [ | v t vs fresh Hp _ [IH1 IH2]]; [split; reflexivity | ].
  cbn. rewrite (isPulseDue_isInterval v t Hp), IH1, IH2.
  destruct Hp as (a & b & c & d & Hc & _). rewrite Hc. split; reflexivity.
Qed.

Lemma no_interval_left (ids : list nat) (l : list Timer) :
  Forall (fun t => isInterval t = true -> In (timerId t) ids) l ->
  filter isInterval (filter (fun t => negb (recorded ids t)) l) = [].
Proof.
  induction 1 as [ | t l Ht _ IH]; [reflexivity | ].
  cbn [filter]. destruct (recorded ids t) eqn:Hr; cbn [negb]; [exact IH | ].
  cbn [filter]. destruct (isInterval t) eqn:Hint; [ | exact IH].
  exfalso. specialize (Ht eq_refl).
  assert (Hr' : recorded ids t = true).
  { unfold recorded. apply existsb_exists. exists (timerId t).
    split; [exact Ht | apply Nat.eqb_refl]. }
  congruence.
Qed.

(** X19.  On a well-formed state, after [setMode] the pending interval timers are
    exactly eight, one per voice 0 to 7 in order, and none of the timers
    recorded before the call is pending.  Whatever other chain survives a
    mode switch is a hold timer or a click re-arm timer armed before it. *)
Theorem setMode_leaves_eight_intervals (m : string) (w : World) :
  wellFormed w ->
  map (fun t => voiceOf (callback t))
    (filter isInterval (timers (host (setMode m w))))
  = map Some (seq 0 8)
  /\ forall id, In id (sporadicTimers (this w)) ->
       pending id (host (setMode m w)) = false.
Proof.
  intros ((_ & _ & Hrec & Htr) & _).
  destruct (setMode_timers m w) as (fresh & Ht & Hid & Hf).
  destruct (intervals_of_fresh (seq 0 8) fresh Hf) as [Hi Hv].
  rewrite Ht. split.
  - rewrite filter_app, Hi.
    rewrite (no_interval_left _ _ Htr).
    exact Hv.
  - intros id Hin. unfold pending. rewrite Ht, existsb_app.
    rewrite (pending_filter_recorded _ _ _ Hin). cbn [orb].
    rewrite Forall_forall in Hrec. specialize (Hrec id Hin).
    apply not_true_is_false. intros Hex. apply existsb_exists in Hex.
    destruct Hex as (t & Hint & He). apply Nat.eqb_eq in He.
    assert (Hin' : In (timerId t) (seq (nextTimerId (host w)) 8)).
    { rewrite <- Hid. apply in_map, Hint. }
    apply in_seq in Hin'. lia.
Qed.

Lemma wellFormed_fresh (rate : float) (draws : N -> float) :
  wellFormed (mkWorld newEngine (newHost rate draws)).
Proof.
  split; [ | split].
  - repeat split; constructor.
  - repeat split.
  - constructor.
Qed.

Lemma wellFormed_new : wellFormed world0.
Proof. apply wellFormed_fresh. Qed.


Lemma wellFormed_advanceTo (t : float) (w : World) :
  wellFormed w -> wellFormed (advanceTo t w).
Proof. exact (wellFormed_step seriesMath (AdvanceTo t) w). Qed.

Lemma wellFormed_voice0Held : wellFormed voice0Held.
Proof.
  unfold voice0Held, running.
  apply wellFormed_fire, wellFormed_advanceTo, (wellFormed_start seriesMath).
  apply wellFormed_new.
Qed.

(** ** Clamps *)

Lemma leb_refl_finite (x : float) : is_nan x = false -> (x <=? x) = true.
Proof.
  intros Hx. rewrite leb_spec. unfold is_nan in Hx.
  rewrite eqb_spec in Hx. unfold SFleb. unfold SFeqb in Hx.
  destruct (SFcompare (Prim2SF x) (Prim2SF x)) as [[ | | ] | ];
    cbn in Hx |- *; congruence.
Qed.

Lemma clamp_within (lo hi f : float) :
  is_nan lo = false -> is_nan hi = false ->
  JS.is_neg_zero lo = false -> JS.is_pos_zero hi = false ->
  (lo <=? hi) = true ->
  within lo hi (JS.Math_max lo (JS.Math_min hi f)).
Proof.
  intros Hlo Hhi Hnz Hpz Hle. unfold within.
  assert (Hll := leb_refl_finite lo Hlo).
  assert (Hhh := leb_refl_finite hi Hhi).
  destruct (is_nan f) eqn:Hf.
  - left. unfold JS.Math_min. rewrite Hf, orb_true_r.
    unfold JS.Math_max. rewrite orb_true_r. reflexivity.
  - right. unfold JS.Math_min. rewrite Hhi, Hf. cbn [orb].
    rewrite Hpz, andb_false_r.
    destruct (f <? hi) eqn:Hfh.
    + unfold JS.Math_max. rewrite Hlo, Hf. cbn [orb].
      rewrite Hnz, andb_false_r.
      destruct (lo <? f) eqn:Hlf.
      * split; [apply FloatFacts.ltb_leb, Hlf | apply FloatFacts.ltb_leb, Hfh].
      * split; [exact Hll | exact Hle].
    + unfold JS.Math_max. rewrite Hlo, Hhi. cbn [orb].
      rewrite Hnz, andb_false_r.
      destruct (lo <? hi); split; assumption.
Qed.

Lemma panOf_within (e : Engine) (panPosition : float) (i : nat) :
  within (-0.8) 0.8 (panOf e panPosition i).
Proof. unfold panOf. cbv zeta. apply clamp_within; reflexivity. Qed.

Lemma calculateSunElevation_within (M : MathLib) (e : Engine) :
  within (-90) 90 (calculateSunElevation M e).
Proof. unfold calculateSunElevation. cbv zeta. apply clamp_within; reflexivity. Qed.

Section Clamps.
Variable M : MathLib.

Lemma tuneHarmonics_sunElevation (w : World) :
  sunElevation (this (tuneHarmonics M w)) = calculateSunElevation M (this w).
Proof.
  unfold tuneHarmonics, random. cbv beta iota zeta.
  match goal with
  | |- context [set_fundamentalFreq ?fund (this w)] => set (FUND := fund)
  end.
  match goal with
  | |- context [set_sunElevation ?sun (set_fundamentalFreq FUND (this w))] =>
      set (SUN := sun)
  end.
  match goal with
  | |- context [set_lowPassFilter ?lpf (set_sunElevation SUN _)] =>
      set (LPF := lpf)
  end.
  match goal with
  | |- context [set_highPassFilter ?hpf (set_lowPassFilter LPF _)] =>
      set (HPF := hpf)
  end.
  set (E5 := set_highPassFilter HPF _).
  match goal with
  | |- context [setOscillatorFrequency 0 (_ + ?dr) (mkWorld E5 ?h)] =>
      set (DR := dr); set (H2 := h)
  end.
  set (W0 := mkWorld E5 H2). set (FD := fundamentalFreq E5 + DR).
  set (turns := combine harmonicIndices _).
  destruct (harmonics_same (getScaleTones M E5) (200 <? fundamentalFreq E5)
              FD turns (setOscillatorFrequency 0 FD W0)) as [_ [l Hl]].
  destruct (setOscillatorFrequency_same 0 FD W0) as [_ [l0 Hl0]].
  cbn [this on_this]. rewrite Hl, Hl0. reflexivity.
Qed.

Lemma updateFrequencies_sunElevation (w : World) :
  isRunning (this w) = true ->
  sunElevation (this (updateFrequencies M w))
  = calculateSunElevation M (this w).
Proof.
  intros Hrun. unfold updateFrequencies. rewrite Hrun. cbn [negb].
  assert (H2 : forall w0, sunElevation (this (tuneSpeedVoice w0))
                          = sunElevation (this w0)).
  { intros w0. unfold tuneSpeedVoice.
    match goal with
    | |- context [setOscillatorFrequency 3 ?f w0] =>
        destruct (setOscillatorFrequency_spec 3 f w0) as (l2 & Ht2 & _)
    end.
    rewrite Ht2. reflexivity. }
  assert (H3 : forall w0, sunElevation (this (mixAndPan M w0))
                          = sunElevation (this w0)).
  { intros w0. destruct (mixAndPan_spec M w0) as (dry & wet & pans & Ht3 & _).
    rewrite Ht3. reflexivity. }
  assert (H4 : forall w0, sunElevation (this (rainfallTremolo M w0))
                          = sunElevation (this w0)).
  { intros w0. destruct (rainfallTremolo_spec M w0) as (rate & depth & Ht4 & _).
    rewrite Ht4. reflexivity. }
  assert (H5 : forall w0, sunElevation (this (reportFrequencies w0))
                          = sunElevation (this w0)).
  { intros w0. destruct (reportFrequencies_spec w0) as [Ht5 _].
    rewrite Ht5. reflexivity. }
  rewrite H5, H4, H3, H2. apply tuneHarmonics_sunElevation.
Qed.

Lemma mixAndPan_within (w : World) :
  Forall (within (-0.8) 0.8) (panners (this (mixAndPan M w))).
Proof.
  unfold mixAndPan. cbv beta iota zeta. cbn [this panners set_panners].
  apply Forall_forall. intros v Hin.
  apply in_map_iff in Hin. destruct Hin as (i & <- & _).
  apply panOf_within.
Qed.

Lemma updateFrequencies_pans (w : World) :
  isRunning (this w) = true ->
  Forall (within (-0.8) 0.8) (panners (this (updateFrequencies M w))).
Proof.
  intros Hrun. unfold updateFrequencies. rewrite Hrun. cbn [negb].
  assert (H4 : forall w0, panners (this (rainfallTremolo M w0))
                          = panners (this w0)).
  { intros w0. destruct (rainfallTremolo_spec M w0) as (rate & depth & Ht4 & _).
    rewrite Ht4. reflexivity. }
  assert (H5 : forall w0, panners (this (reportFrequencies w0))
                          = panners (this w0)).
  { intros w0. destruct (reportFrequencies_spec w0) as [Ht5 _].
    rewrite Ht5. reflexivity. }
  rewrite H5, H4. apply mixAndPan_within.
Qed.

(** ** The tremolo loop *)

Lemma tremoloRamps_times (fuel : nat) (t cg rate depth now : float)
    (p : AudioParam) :
  tremoloRamps M fuel t cg rate depth now p
  = mkParam (value p)
      (events p ++ map (tremoloRamp M cg rate depth now) (tremoloTimes fuel t)).
Proof.
  revert t p. induction fuel as [ | fuel IH]; intros t p.
  - cbn. rewrite app_nil_r. destruct p. reflexivity.
  - cbn [tremoloRamps tremoloTimes]. destruct (t <? 2).
    + rewrite IH. unfold linearRampToValueAtTime, schedule.
      cbn [value events map]. rewrite <- app_assoc. reflexivity.
    + cbn. rewrite app_nil_r. destruct p. reflexivity.
Qed.

End Clamps.

Lemma tremoloTimes_fuel (extra : nat) :
  tremoloTimes (40 + extra) 0 = tremoloTimes 40 0.
Proof. destruct extra; vm_compute; reflexivity. Qed.

(** ** The application's toggles *)

Lemma setMode_mode (m : string) (w : World) : mode (this (setMode m w)) = m.
Proof.
  unfold setMode.
  match goal with
  | |- context [fold_left ?f ?l ?w0] =>
      destruct (schedule_all_spec l w0) as (fresh & _ & _ & _ & _ & Hm & _)
  end.
  cbv zeta in Hm. rewrite Hm. reflexivity.
Qed.

(** ** The properties, stated *)

(** X1.  [getScaleTones] is a function of the scale and the heading alone; it
    always returns six entries, and each is a ratio of the active scale's
    table or, when its index names no element of the table, [undefined]. *)
Theorem getScaleTones_shape (M : MathLib) (e1 e2 : Engine) :
  List.length (getScaleTones M e1) = 6%nat
  /\ Forall (fun v => v = JS.Undefined \/ ratioOf (scaleRatios M (scale e1)) v)
       (getScaleTones M e1)
  /\ (scale e1 = scale e2 -> heading e1 = heading e2 ->
      getScaleTones M e1 = getScaleTones M e2).
Proof.
  split; [apply getScaleTones_length | ].
  split; [apply getScaleTones_entries | apply getScaleTones_pure].
Qed.

(** X15.  [fadeIn] and [fadeOut] write the gain schedule of their own voice and
    nothing else: no other voice's gain, no oscillator, no timer; the host
    only loses the draws used. *)
Theorem fades_touch_one_gain (oscIndex : nat) (duration volume : float)
    (w : World) :
  (sameButGain oscIndex (this w) (this (fadeIn oscIndex duration volume w))
   /\ hostKeeps (host w) (host (fadeIn oscIndex duration volume w)))
  /\ (sameButGain oscIndex (this w) (this (fadeOut oscIndex duration w))
      /\ hostKeeps (host w) (host (fadeOut oscIndex duration w))).
Proof. apply fades_frame. Qed.

(** X5.  [stop] on a running engine releases the eight voices, forgets the
    recorded timers and leaves none of them pending; the timers it does not
    know of stay in the host's queue. *)
Theorem stop_cancels_recorded (w : World) :
  isRunning (this w) = true ->
  voices 0 (this (stop w))
  /\ sporadicTimers (this (stop w)) = []
  /\ timers (host (stop w))
     = filter (fun t => negb (recorded (sporadicTimers (this w)) t))
         (timers (host w))
  /\ forall id, In id (sporadicTimers (this w)) ->
       pending id (host (stop w)) = false.
Proof. apply stop_running. Qed.

(** Stopping the engine whose voice 0 is held: the eight recorded interval
    timers are gone, the resume check (1) and the hold timer (10) stay. *)
Lemma stop_cancels_recorded_witness :
  isRunning (this voice0Held) = true
  /\ voices 0 (this (stop voice0Held))
  /\ sporadicTimers (this (stop voice0Held)) = []
  /\ map timerId (timers (host (stop voice0Held))) = [1; 10]%nat
  /\ pending 3 (host (stop voice0Held)) = false.
Proof.
  assert (Hrun : isRunning (this voice0Held) = true) by (vm_compute; reflexivity).
  destruct (stop_cancels_recorded voice0Held Hrun) as (Hv & Hs & Ht & Hp).
  split; [exact Hrun | ]. split; [exact Hv | ]. split; [exact Hs | ].
  split; [vm_compute; reflexivity | ].
  apply Hp. vm_compute. tauto.
Defined.



(** X3.  What [start] does to an engine that is not running and holds no voice
    (a new one, or one that was stopped): eight voices, silent, each
    oscillator of the built-in type named by [waveform] (for a custom
    waveform, no periodic wave is installed here); the resume check and eight
    interval timers, one per voice in order, are armed and the eight are
    recorded. *)
Theorem start_allocates (M : MathLib) (w : World) :
  isRunning (this w) = false ->
  voices 0 (this w) ->
  let w' := start M w in
  isRunning (this w') = true
  /\ map wave (oscillators (this w')) = repeat (BuiltIn (waveform (this w))) 8
  /\ gainNodes (this w') = repeat (mkParam 0 []) 8
  /\ List.length (panners (this w')) = 8%nat
  /\ exists (resume : Timer) (fresh : list Timer),
       timers (host w') = timers (host w) ++ resume :: fresh
       /\ callback resume = ResumeCheck
       /\ Forall2 isPulseDue (seq 0 8) fresh
       /\ sporadicTimers (this w')
          = sporadicTimers (this w) ++ map timerId fresh.
Proof. apply start_stopped. Qed.

Lemma start_allocates_witness :
  isRunning (this world0) = false
  /\ voices 0 (this world0)
  /\ isRunning (this running) = true
  /\ gainNodes (this running) = repeat (mkParam 0 []) 8
  /\ map wave (oscillators (this running)) = repeat (BuiltIn "sine") 8.
Proof.
  assert (Hv : voices 0 (this world0)) by (repeat split).
  destruct (start_allocates seriesMath world0 eq_refl Hv)
    as (Hr & Hw & Hg & _).
  split; [reflexivity | ]. split; [exact Hv | ].
  split; [exact Hr | ]. split; [exact Hg | exact Hw].
Defined.

(** X9.  Whatever the state and the snapshot, a frequency update (and so
    [setScale] and [setEnvironmentalData] after storing) arms and cancels no
    timer, starts no click, does not move the clock, changes neither the
    running flag, the mode, the waveform, the scale nor any environmental
    field, and neither adds nor removes a voice nor changes a waveform. *)
Theorem updateFrequencies_frame (M : MathLib) (w : World) :
  sameSettings (this w) (this (updateFrequencies M w))
  /\ hostKeeps (host w) (host (updateFrequencies M w))
  /\ map wave (oscillators (this (updateFrequencies M w)))
     = map wave (oscillators (this w))
  /\ List.length (gainNodes (this (updateFrequencies M w)))
     = List.length (gainNodes (this w))
  /\ List.length (panners (this (updateFrequencies M w)))
     = List.length (panners (this w)).
Proof. apply updateFrequencies_keeps. Qed.

(** The voice-0-held state is reached from a new engine, so it is well
    formed; firing the interval timer of voice 1 there leaves voice 1 with
    one chain. *)
Lemma fire_conserves_chains_witness :
  wellFormed voice0Held
  /\ isRunning (this voice0Held) = true
  /\ List.length (chainsOf 1 (fire 3 voice0Held))
     = List.length (chainsOf 1 voice0Held).
Proof.
  assert (Hwf : wellFormed voice0Held) by apply wellFormed_voice0Held.
  assert (Hrun : isRunning (this voice0Held) = true) by (vm_compute; reflexivity).
  split; [exact Hwf | ]. split; [exact Hrun | ].
  exact (fire_conserves_chains 3 voice0Held Hwf Hrun 1%nat).
Defined.

(** A mode switch on that state: eight interval timers, voices 0 to 7, and
    the timer recorded for voice 1 (id 3) is no longer pending. *)
Lemma setMode_leaves_eight_intervals_witness :
  wellFormed voice0Held
  /\ map (fun t => voiceOf (callback t))
       (filter isInterval (timers (host (setMode "pulse" voice0Held))))
     = map Some (seq 0 8)
  /\ pending 3 (host (setMode "pulse" voice0Held)) = false.
Proof.
  assert (Hwf : wellFormed voice0Held) by apply wellFormed_voice0Held.
  destruct (setMode_leaves_eight_intervals "pulse" voice0Held Hwf) as [Hi Hp].
  split; [exact Hwf | ]. split; [exact Hi | ].
  apply Hp. vm_compute. tauto.
Defined.

Lemma toggleMode_mode (w : World) :
  mode (this (toggleMode w))
  = if String.eqb "drone" (mode (this w)) then "pulse"%string
    else if String.eqb "pulse" (mode (this w)) then "click"%string
    else "drone"%string.
Proof.
  unfold toggleMode, indexOf. cbv zeta. cbn [indexOfFrom List.length].
  destruct (String.eqb "drone" (mode (this w)));
    [ | destruct (String.eqb "pulse" (mode (this w)));
        [ | destruct (String.eqb "click" (mode (this w)))]];
    lazy -[setMode mode this]; apply setMode_mode.
Qed.

Lemma toggleWaveform_waveform (w : World) :
  waveform (this (toggleWaveform w))
  = if String.eqb "sine" (waveform (this w)) then "sawtooth"%string
    else if String.eqb "sawtooth" (waveform (this w)) then "organ"%string
    else if String.eqb "organ" (waveform (this w)) then "square"%string
    else if String.eqb "square" (waveform (this w)) then "metallic"%string
    else if String.eqb "metallic" (waveform (this w)) then "harsh"%string
    else "sine"%string.
Proof.
  unfold toggleWaveform, indexOf. cbv zeta. cbn [indexOfFrom List.length].
  destruct (String.eqb "sine" (waveform (this w)));
    [ | destruct (String.eqb "sawtooth" (waveform (this w)));
    [ | destruct (String.eqb "organ" (waveform (this w)));
    [ | destruct (String.eqb "square" (waveform (this w)));
    [ | destruct (String.eqb "metallic" (waveform (this w)));
    [ | destruct (String.eqb "harsh" (waveform (this w)))]]]]];
    reflexivity.
Qed.

Lemma toggleWaveform_next (w : World) (x : string) :
  waveform (this w) = x ->
  waveform (this (toggleWaveform w))
  = if String.eqb "sine" x then "sawtooth"%string
    else if String.eqb "sawtooth" x then "organ"%string
    else if String.eqb "organ" x then "square"%string
    else if String.eqb "square" x then "metallic"%string
    else if String.eqb "metallic" x then "harsh"%string
    else "sine"%string.
Proof. intros <-. apply toggleWaveform_waveform. Qed.

Lemma not_listed (x : string) (l : list string) :
  ~ In x l -> forallb (fun y => negb (String.eqb y x)) l = true.
Proof.
  induction l as [ | y l IH]; intros H; cbn; [reflexivity | ].
  destruct (String.eqb_spec y x) as [-> | _].
  - exfalso. apply H. left. reflexivity.
  - apply IH. intros Hin. apply H. right. exact Hin.
Qed.

(** X21.  [toggleMode] always lands on one of the three modes: from a mode that
    is none of them on 'drone' (indexOf gives -1), and from one of them on
    the next, so that three presses bring the mode back. *)
Theorem toggleMode_cycles (w : World) :
  In (mode (this (toggleMode w))) ["drone"; "pulse"; "click"]%string
  /\ (~ In (mode (this w)) ["drone"; "pulse"; "click"]%string ->
      mode (this (toggleMode w)) = "drone"%string)
  /\ (In (mode (this w)) ["drone"; "pulse"; "click"]%string ->
      mode (this (toggleMode (toggleMode (toggleMode w)))) = mode (this w)).
Proof.
  split; [ | split].
  - rewrite toggleMode_mode.
    destruct (String.eqb "drone" (mode (this w)));
      [ | destruct (String.eqb "pulse" (mode (this w)))]; cbn; tauto.
  - intros H. apply not_listed in H. cbn [forallb] in H.
    rewrite toggleMode_mode.
    destruct (String.eqb "drone" (mode (this w))); cbn [negb andb] in H; [discriminate | ].
    destruct (String.eqb "pulse" (mode (this w))); cbn [negb andb] in H; [discriminate | ].
    reflexivity.
  - intros H. rewrite !toggleMode_mode.
    destruct H as [H | [H | [H | []]]]; rewrite <- H; reflexivity.
Qed.

(** X22.  [toggleWaveform] steps through the six waveforms in the same way: an
    unknown waveform is followed by 'sine', and six presses bring a listed
    waveform back. *)
Theorem toggleWaveform_cycles (w : World) :
  let waveforms :=
    ["sine"; "sawtooth"; "organ"; "square"; "metallic"; "harsh"]%string in
  let six w :=
    toggleWaveform (toggleWaveform (toggleWaveform
      (toggleWaveform (toggleWaveform (toggleWaveform w))))) in
  In (waveform (this (toggleWaveform w))) waveforms
  /\ (~ In (waveform (this w)) waveforms ->
      waveform (this (toggleWaveform w)) = "sine"%string)
  /\ (In (waveform (this w)) waveforms ->
      waveform (this (six w)) = waveform (this w)).
Proof.
  cbv zeta. split; [ | split].
  - rewrite toggleWaveform_waveform.
    destruct (String.eqb "sine" (waveform (this w)));
    [ | destruct (String.eqb "sawtooth" (waveform (this w)));
    [ | destruct (String.eqb "organ" (waveform (this w)));
    [ | destruct (String.eqb "square" (waveform (this w)));
    [ | destruct (String.eqb "metallic" (waveform (this w)))]]]];
      cbn; tauto.
  - intros H. apply not_listed in H. cbn [forallb] in H.
    rewrite toggleWaveform_waveform.
    destruct (String.eqb "sine" (waveform (this w))); cbn [negb andb] in H; [discriminate | ].
    destruct (String.eqb "sawtooth" (waveform (this w))); cbn [negb andb] in H; [discriminate | ].
    destruct (String.eqb "organ" (waveform (this w))); cbn [negb andb] in H; [discriminate | ].
    destruct (String.eqb "square" (waveform (this w))); cbn [negb andb] in H; [discriminate | ].
    destruct (String.eqb "metallic" (waveform (this w))); cbn [negb andb] in H; [discriminate | ].
    reflexivity.
  - intros H.
    destruct H as [H | [H | [H | [H | [H | [H | []]]]]]];
      rewrite <- H; symmetry in H;
      do 6 (match type of H with
            | waveform (this ?w0) = _ =>
                apply (toggleWaveform_next w0) in H;
                match type of H with
                | _ = ?r => let r' := eval vm_compute in r in
                            change r with r' in H
                end
            end);
      exact H.
Qed.

(** X12.  The tremolo loop [for (let t = 0; t < 2; t += 0.05)] makes forty turns
    (the sum of forty 0.05s is just above 1.95, and the next is not below 2):
    the fuel of 64 is never used up, and more fuel changes nothing. *)
Theorem tremoloRamps_fuel (M : MathLib) (extra : nat)
    (cg rate depth now : float) (p : AudioParam) :
  tremoloRamps M (64 + extra) 0 cg rate depth now p
  = tremoloRamps M 64 0 cg rate depth now p
  /\ tremoloRamps M 64 0 cg rate depth now p = tremoloRamps M 40 0 cg rate depth now p
  /\ List.length (tremoloTimes 40 0) = 40%nat.
Proof.
  rewrite !tremoloRamps_times.
  change (64 + extra)%nat with (40 + (24 + extra))%nat.
  change 64%nat with (40 + 24)%nat.
  rewrite !tremoloTimes_fuel. repeat split.
Qed.

(** X13.  Under the rain a voice whose gain is above 0 gets, after the
    cancellation and the anchor at its current gain, exactly forty linear
    ramps, at the forty times of the loop after [now]; their targets are the
    current gain scaled by the modulation. *)
Theorem rain_tremolo_forty_ramps (M : MathLib) (rate depth now : float)
    (gain : AudioParam) :
  (0 <? value gain) = true ->
  events (rainTremolo M rate depth now gain)
  = events (cancelScheduledValues now gain)
      ++ SetValueAtTime (value gain) now
      :: map (tremoloRamp M (value gain) rate depth now) (tremoloTimes 40 0)
  /\ List.length (events (rainTremolo M rate depth now gain))
     = (List.length (events (cancelScheduledValues now gain)) + 41)%nat.
Proof.
  intros Hpos.
  assert (He : events (rainTremolo M rate depth now gain)
               = events (cancelScheduledValues now gain)
                   ++ SetValueAtTime (value gain) now
                   :: map (tremoloRamp M (value gain) rate depth now)
                        (tremoloTimes 40 0)).
  { unfold rainTremolo. cbv zeta. rewrite Hpos. rewrite tremoloRamps_times.
    change 64%nat with (40 + 24)%nat. rewrite tremoloTimes_fuel.
    cbn [events value setValueAtTime schedule cancelScheduledValues].
    rewrite <- app_assoc. reflexivity. }
  split; [exact He | ].
  rewrite He, length_app. cbn [List.length]. rewrite length_map.
  reflexivity.
Qed.

Lemma rain_tremolo_forty_ramps_witness :
  (0 <? value (mkParam 0.1 [ExponentialRampToValueAtTime 0.15 20])) = true
  /\ List.length
       (events (rainTremolo seriesMath 5 0.5 16
                  (mkParam 0.1 [ExponentialRampToValueAtTime 0.15 20])))
     = 41%nat.
Proof.
  split; [reflexivity | ].
  exact (proj2 (rain_tremolo_forty_ramps seriesMath 5 0.5 16
                  (mkParam 0.1 [ExponentialRampToValueAtTime 0.15 20])
                  eq_refl)).
Defined.

(** X10.  After a frequency update on a running engine the stored sun elevation
    is that of [calculateSunElevation] on the snapshot, and it is NaN or
    between -90 and 90 degrees. *)
Theorem sunElevation_clamped (M : MathLib) (w : World) :
  isRunning (this w) = true ->
  sunElevation (this (updateFrequencies M w))
  = calculateSunElevation M (this w)
  /\ within (-90) 90 (sunElevation (this (updateFrequencies M w))).
Proof.
  intros Hrun. rewrite (updateFrequencies_sunElevation M w Hrun).
  split; [reflexivity | apply calculateSunElevation_within].
Qed.

Lemma sunElevation_clamped_witness :
  isRunning (this running) = true
  /\ sunElevation (this (updateFrequencies seriesMath running))
     = calculateSunElevation seriesMath (this running)
  /\ within (-90) 90 (sunElevation (this (updateFrequencies seriesMath running))).
Proof.
  assert (H : isRunning (this running) = true) by (vm_compute; reflexivity).
  split; [exact H | ].
  exact (sunElevation_clamped seriesMath running H).
Defined.

(** X11.  After a frequency update on a running engine every voice's pan is NaN
    or between -0.8 and 0.8, whatever the heading and the density. *)
Theorem pans_clamped (M : MathLib) (w : World) :
  isRunning (this w) = true ->
  Forall (within (-0.8) 0.8) (panners (this (updateFrequencies M w))).
Proof. apply updateFrequencies_pans. Qed.

Lemma pans_clamped_witness :
  isRunning (this running) = true
  /\ Forall (within (-0.8) 0.8)
       (panners (this (updateFrequencies seriesMath running))).
Proof.
  assert (H : isRunning (this running) = true) by (vm_compute; reflexivity).
  split; [exact H | ].
  exact (pans_clamped seriesMath running H).
Defined.

(** X17.  In click mode the body of an interval timer leaves the engine object
    as it is: no gain is written (the eight oscillators stay where their
    gains are), and the timer that re-arms the voice is not recorded in
    [sporadicTimers].  It starts one click now, at 0.35, 0.45 or 0.60
    according to the voice's frequency, and arms that one timer, after the
    interval drawn when the cycle was scheduled. *)
Theorem click_leaves_engine (oscIndex : nat)
    (interval duration fadeInT fadeOutT : float) (w : World) :
  isRunning (this w) = true ->
  mode (this w) = "click"%string ->
  (oscIndex < List.length (oscillators (this w)))%nat ->
  let w' := pulseDue oscIndex interval duration fadeInT fadeOutT w in
  this w' = this w
  /\ timers (host w')
     = timers (host w)
         ++ [mkTimer (nextTimerId (host w)) interval (ClickRearm oscIndex)]
  /\ exists v : float,
       clicks (host w')
       = clicks (host w) ++ [mkClick oscIndex v (currentTime (host w))]
       /\ In v [0.35; 0.45; 0.60].
Proof.
  intros Hrun Hmode Hlt. cbv zeta. unfold pulseDue.
  rewrite Hrun, Hmode. cbn [negb String.eqb].
  change (String.eqb "click" "click") with true. cbv iota.
  destruct (nth_error (oscillators (this w)) oscIndex) as [osc | ] eqn:Hosc.
  - unfold setTimeout. cbv beta iota zeta.
    destruct (2000 <? value (frequency osc));
      [ | destruct (200 <? value (frequency osc))];
      (split; [reflexivity | split; [reflexivity | ]];
       eexists; split; [reflexivity | cbn; tauto]).
  - apply nth_error_None in Hosc. lia.
Qed.

Lemma click_leaves_engine_witness :
  isRunning (this (setMode "click" running)) = true
  /\ mode (this (setMode "click" running)) = "click"%string
  /\ (0 < List.length (oscillators (this (setMode "click" running))))%nat
  /\ this (pulseDue 0 2000 1.5 0.0001 0.0001 (setMode "click" running))
     = this (setMode "click" running).
Proof.
  assert (Hrun : isRunning (this (setMode "click" running)) = true)
    by (vm_compute; reflexivity).
  assert (Hmode : mode (this (setMode "click" running)) = "click"%string)
    by apply setMode_mode.
  assert (Hlt : (0 < List.length (oscillators (this (setMode "click" running))))%nat)
    by (vm_compute; lia).
  split; [exact Hrun | ]. split; [exact Hmode | ]. split; [exact Hlt | ].
  exact (proj1 (click_leaves_engine 0 2000 1.5 0.0001 0.0001
                  (setMode "click" running) Hrun Hmode Hlt)).
Defined.
